(** * clarify_be: safety gate, response parser and schema repair

    A shallow embedding of [src/utils/safety.js], [src/services/analysisService.js]
    and the Joi schemas of [src/schemas], followed by the properties the
    specification states about them.

    Strings are JavaScript strings whose code units are below 256 (the
    ISO-8859-1 range), written as [string]; on that range [toLowerCase],
    [trim], the canonicalization of case-insensitive patterns and the
    regular-expression classes below are those of ECMAScript. *)

From Stdlib Require Import Bool Arith Lia List ZArith QArith Ascii String.
From Stdlib Require Import Numbers.DecimalString.
Import ListNotations.
Local Open Scope string_scope.
Local Open Scope nat_scope.

Set Warnings "-register-all,-abstract-large-number".

(* ===================================================================== *)
(** ** JavaScript string primitives *)
(* ===================================================================== *)

Module JsString.

Definition charCode (c : ascii) : nat := nat_of_ascii c.

Definition between (lo hi : nat) (c : ascii) : bool :=
  (lo <=? charCode c) && (charCode c <=? hi).

(** Code units with a lower-case partner inside the 8-bit range:
    A-Z and U+00C0..U+00DE without the multiplication sign U+00D7. *)
Definition hasLower (c : ascii) : bool :=
  between 65 90 c || (between 192 222 c && negb (charCode c =? 215)).

(** a-z and U+00E0..U+00FE without the division sign U+00F7. *)
Definition hasUpper (c : ascii) : bool :=
  between 97 122 c || (between 224 254 c && negb (charCode c =? 247)).

Definition toLowerChar (c : ascii) : ascii :=
  if hasLower c then ascii_of_nat (charCode c + 32) else c.

Definition toUpperChar (c : ascii) : ascii :=
  if hasUpper c then ascii_of_nat (charCode c - 32) else c.

(** [String.prototype.toLowerCase] *)
Fixpoint toLowerCase (s : string) : string :=
  match s with
  | EmptyString => EmptyString
  | String c r => String (toLowerChar c) (toLowerCase r)
  end.

(** [String.prototype.toUpperCase].  The sharp s (U+00DF) becomes "SS";
    U+00B5 and U+00FF, whose upper-case forms lie above U+00FF, are
    kept: no comparison against an ASCII literal is affected. *)
Fixpoint toUpperCase (s : string) : string :=
  match s with
  | EmptyString => EmptyString
  | String c r =>
      if charCode c =? 223 then String "S" (String "S" (toUpperCase r))
      else String (toUpperChar c) (toUpperCase r)
  end.

(** WhiteSpace and LineTerminator code units: TAB, LF, VT, FF, CR, SP, NBSP. *)
Definition isWhiteSpace (c : ascii) : bool :=
  between 9 13 c || (charCode c =? 32) || (charCode c =? 160).

Fixpoint trimStart (s : string) : string :=
  match s with
  | EmptyString => EmptyString
  | String c r => if isWhiteSpace c then trimStart r else s
  end.

Fixpoint trimEnd (s : string) : string :=
  match s with
  | EmptyString => EmptyString
  | String c r =>
      match trimEnd r with
      | EmptyString => if isWhiteSpace c then EmptyString else String c EmptyString
      | r' => String c r'
      end
  end.

(** [String.prototype.trim] *)
Definition trim (s : string) : string := trimEnd (trimStart s).

(** [s.includes(t)] *)
Fixpoint includes (s t : string) : bool :=
  String.prefix t s ||
  match s with
  | EmptyString => false
  | String _ r => includes r t
  end.

(** [s.indexOf(c)] for a one-character needle; [None] stands for -1. *)
Fixpoint indexOf (c : ascii) (s : string) : option nat :=
  match s with
  | EmptyString => None
  | String a r =>
      if Ascii.eqb a c then Some 0 else option_map S (indexOf c r)
  end.

(** [s.lastIndexOf(c)] *)
Fixpoint lastIndexOf (c : ascii) (s : string) : option nat :=
  match s with
  | EmptyString => None
  | String a r =>
      match lastIndexOf c r with
      | Some i => Some (S i)
      | None => if Ascii.eqb a c then Some 0 else None
      end
  end.

(** [s.slice(from, to)] for [0 <= from <= to]. *)
Definition slice (from to : nat) (s : string) : string :=
  String.substring from (to - from) s.

Definition isEmpty (s : string) : bool :=
  match s with EmptyString => true | _ => false end.

Fixpoint repeat (c : ascii) (n : nat) : string :=
  match n with
  | O => EmptyString
  | S k => String c (repeat c k)
  end.

Definition dq : string := String (ascii_of_nat 34) EmptyString.

Definition quoted (s : string) : string := dq ++ s ++ dq.

End JsString.
Import JsString.

(* ===================================================================== *)
(** ** Regular expressions (the backtracking matcher of ECMAScript) *)
(* ===================================================================== *)

Module RegExp.

Inductive ClassItem : Type :=
| CChar (c : ascii)
| CRange (lo hi : ascii)
| CSpace            (* \s *)
| CNotSpace         (* \S *)
| CDigit.           (* \d *)

Inductive Pattern : Type :=
| PEmpty
| PChar (c : ascii)
| PClass (negated : bool) (items : list ClassItem)
| PSeq (p q : Pattern)
| PAlt (p q : Pattern)
| PRepeat (p : Pattern) (min : nat) (max : option nat) (greedy : bool)
| PGroup (n : nat) (p : Pattern)        (* n-th capturing group *)
| PWordBoundary.                        (* \b *)

Record RegExp : Type := mkRegExp
  { pattern : Pattern; ignoreCase : bool; global : bool }.

(** Position in the subject: the code unit before it, its index, the
    text after it, and the captures made so far. *)
Record MatchState : Type := mkState
  { prev : option ascii;
    endIndex : nat;
    rest : string;
    captures : list (nat * string) }.

(** Canonicalize of a pattern without the u flag. *)
Definition canonicalize (ic : bool) (c : ascii) : ascii :=
  if ic then toUpperChar c else c.

Definition itemHas (it : ClassItem) (c : ascii) : bool :=
  match it with
  | CChar a => Ascii.eqb a c
  | CRange lo hi => between (charCode lo) (charCode hi) c
  | CSpace => isWhiteSpace c
  | CNotSpace => negb (isWhiteSpace c)
  | CDigit => between 48 57 c
  end.

Definition classHas (ic : bool) (items : list ClassItem) (c : ascii) : bool :=
  existsb (fun it => itemHas it c) items ||
  (ic && (existsb (fun it => itemHas it (toUpperChar c)) items ||
          existsb (fun it => itemHas it (toLowerChar c)) items)).

Definition isWordChar (o : option ascii) : bool :=
  match o with
  | None => false
  | Some c => between 97 122 c || between 65 90 c || between 48 57 c || (charCode c =? 95)
  end.

Definition peek (s : string) : option ascii :=
  match s with EmptyString => None | String c _ => Some c end.

Definition orElse {A} (a : option A) (b : unit -> option A) : option A :=
  match a with Some _ => a | None => b tt end.

(** [matchP ic p x c]: the matcher of [p] run at [x] with continuation
    [c]; alternatives are tried left to right, quantifiers are greedy
    unless marked otherwise, and an iteration that consumes nothing
    once the minimum was reached is rejected (RepeatMatcher).  A
    quantifier iterates at most [min] times before that rule applies and
    then once per code unit left, which bounds the recursion of [rep]. *)
Fixpoint matchP (ic : bool) (p : Pattern) (x : MatchState)
         (c : MatchState -> option MatchState) {struct p} : option MatchState :=
  match p with
  | PEmpty => c x
  | PChar a =>
      match rest x with
      | EmptyString => None
      | String b r =>
          if Ascii.eqb (canonicalize ic a) (canonicalize ic b)
          then c (mkState (Some b) (S (endIndex x)) r (captures x))
          else None
      end
  | PClass neg items =>
      match rest x with
      | EmptyString => None
      | String b r =>
          if xorb neg (classHas ic items b)
          then c (mkState (Some b) (S (endIndex x)) r (captures x))
          else None
      end
  | PSeq p1 p2 => matchP ic p1 x (fun y => matchP ic p2 y c)
  | PAlt p1 p2 => orElse (matchP ic p1 x c) (fun _ => matchP ic p2 x c)
  | PRepeat p1 mn mx greedy =>
      (fix rep (fuel mn : nat) (mx : option nat) (x : MatchState) {struct fuel}
         : option MatchState :=
         match fuel with
         | O => None
         | S fuel' =>
             match mx with
             | Some O => c x
             | _ =>
                 let d := fun y : MatchState =>
                   if (mn =? 0) && (endIndex y =? endIndex x) then None
                   else rep fuel' (Nat.pred mn) (option_map Nat.pred mx) y in
                 if negb (mn =? 0) then matchP ic p1 x d
                 else if greedy
                      then orElse (matchP ic p1 x d) (fun _ => c x)
                      else orElse (c x) (fun _ => matchP ic p1 x d)
             end
         end) (mn + String.length (rest x) + 2) mn mx x
  | PGroup n p1 =>
      matchP ic p1 x (fun y =>
        c (mkState (prev y) (endIndex y) (rest y)
             ((n, String.substring 0 (endIndex y - endIndex x) (rest x))
                :: captures y)))
  | PWordBoundary =>
      if xorb (isWordChar (prev x)) (isWordChar (peek (rest x)))
      then c x else None
  end.

(** A successful match: where it starts and the state where it ends. *)
Definition matchAt (re : RegExp) (pv : option ascii) (i : nat) (s : string)
  : option MatchState :=
  matchP (ignoreCase re) (pattern re) (mkState pv i s []) (fun y => Some y).

(** Leftmost match at or after the current position. *)
Fixpoint search (re : RegExp) (pv : option ascii) (i : nat) (s : string)
  : option (nat * MatchState) :=
  match matchAt re pv i s with
  | Some y => Some (i, y)
  | None =>
      match s with
      | EmptyString => None
      | String c r => search re (Some c) (S i) r
      end
  end.

(** [re.exec(s)] / [s.match(re)] for a regular expression without the
    g flag: start index, end index and captures of the leftmost match. *)
Definition exec (re : RegExp) (s : string) : option (nat * MatchState) :=
  search re None 0 s.

(** [re.test(s)] (no g flag, so no [lastIndex] is carried over). *)
Definition test (re : RegExp) (s : string) : bool :=
  match exec re s with Some _ => true | None => false end.

Fixpoint assoc (n : nat) (l : list (nat * string)) : option string :=
  match l with
  | [] => None
  | (k, v) :: r => if k =? n then Some v else assoc n r
  end.

(** [m[n]] of a match array. *)
Definition group (n : nat) (m : nat * MatchState) : option string :=
  assoc n (captures (snd m)).

(** The walk behind [s.replace(re, replacement)] for a replacement text
    without dollar signs: [skip] counts the code units of the current
    match still to be dropped, [finished] is set after the first match
    of a regular expression without the g flag.  An empty match is
    followed by one copied code unit, as [lastIndex] advances by one. *)
Fixpoint replaceWalk (re : RegExp) (replacement : string) (finished : bool)
         (pv : option ascii) (i skip : nat) (s : string) {struct s} : string :=
  match skip with
  | S k =>
      match s with
      | EmptyString => EmptyString
      | String c r => replaceWalk re replacement finished (Some c) (S i) k r
      end
  | O =>
      if finished then s
      else
        match matchAt re pv i s with
        | Some y =>
            replacement ++
            match s with
            | EmptyString => EmptyString
            | String c r =>
                match endIndex y - i with
                | O => String c (replaceWalk re replacement (negb (global re))
                                    (Some c) (S i) 0 r)
                | S k => replaceWalk re replacement (negb (global re))
                                    (Some c) (S i) k r
                end
            end
        | None =>
            match s with
            | EmptyString => EmptyString
            | String c r =>
                String c (replaceWalk re replacement finished (Some c) (S i) 0 r)
            end
        end
  end.

Definition replace (re : RegExp) (replacement : string) (s : string) : string :=
  replaceWalk re replacement false None 0 0 s.

(** *** Pattern syntax *)

Fixpoint lit (s : string) : Pattern :=
  match s with
  | EmptyString => PEmpty
  | String c EmptyString => PChar c
  | String c r => PSeq (PChar c) (lit r)
  end.

Fixpoint seq (ps : list Pattern) : Pattern :=
  match ps with
  | [] => PEmpty
  | [p] => p
  | p :: r => PSeq p (seq r)
  end.

Fixpoint alt (ps : list Pattern) : Pattern :=
  match ps with
  | [] => PEmpty
  | [p] => p
  | p :: r => PAlt p (alt r)
  end.

Definition opt (p : Pattern) : Pattern := PRepeat p 0 (Some 1) true.
Definition plus (p : Pattern) : Pattern := PRepeat p 1 None true.
Definition star (p : Pattern) : Pattern := PRepeat p 0 None true.
Definition lazyStar (p : Pattern) : Pattern := PRepeat p 0 None false.
Definition times (n : nat) (p : Pattern) : Pattern := PRepeat p n (Some n) true.
Definition atLeast (n : nat) (p : Pattern) : Pattern := PRepeat p n None true.

Definition digit : Pattern := PClass false [CDigit].
Definition space : Pattern := PClass false [CSpace].
Definition anyChar : Pattern := PClass false [CSpace; CNotSpace].   (* [\s\S] *)

End RegExp.
Import RegExp.

(* ===================================================================== *)
(** ** JavaScript values *)
(* ===================================================================== *)

(** Values as [JSON.parse] produces them, and [undefined].  The code
    below inspects a number for its truthiness only and otherwise turns
    it into text; its integer payload stands for the double and is
    written in decimal digits.  An object is the list of its own
    properties in insertion order, a key occurring once. *)
Inductive JsVal : Type :=
| JUndefined
| JNull
| JBool (b : bool)
| JNum (z : Z)
| JStr (s : string)
| JArr (items : list JsVal)
| JObj (fields : list (string * JsVal)).

Module Js.

Fixpoint lookup (k : string) (fields : list (string * JsVal)) : JsVal :=
  match fields with
  | [] => JUndefined
  | (k', v) :: r => if String.eqb k' k then v else lookup k r
  end.

Definition isNullish (v : JsVal) : bool :=
  match v with JUndefined | JNull => true | _ => false end.

(** [v?.k] for a key that no prototype defines: the own property of an
    object, [undefined] on every other value. *)
Definition optGet (v : JsVal) (k : string) : JsVal :=
  match v with
  | JObj fields => lookup k fields
  | _ => JUndefined
  end.

(** ToBoolean *)
Definition truthy (v : JsVal) : bool :=
  match v with
  | JUndefined | JNull => false
  | JBool b => b
  | JNum z => negb (Z.eqb z 0)
  | JStr s => negb (isEmpty s)
  | JArr _ | JObj _ => true
  end.

(** [a || b] *)
Definition or (a b : JsVal) : JsVal := if truthy a then a else b.

End Js.

(* ===================================================================== *)
(** ** src/utils/safety.js *)
(* ===================================================================== *)

Module SafetyUtils.

Definition crisisKeywords : list string :=
  [ "suicide"; "kill myself"; "end it all"; "not worth living"; "better off dead";
    "hurt myself"; "self harm"; "cutting"; "overdose"; "jump off"; "hang myself";
    "want to die"; "death wish"; "no point"; "hopeless"; "worthless"; "burden";
    "crisis"; "emergency"; "help me"; "can't go on"; "give up"; "final solution" ].

Definition insensitive (p : Pattern) : RegExp := mkRegExp p true false.
Definition globally (p : Pattern) : RegExp := mkRegExp p false true.

Definition endings : Pattern :=
  PGroup 1 (alt [lit "die"; lit "kill myself"; lit "end it all"]).

Definition crisisPatterns : list RegExp :=
  [ insensitive (seq [lit "i want to "; endings]);
    insensitive (seq [lit "i should "; endings]);
    insensitive (seq [lit "i'm going to "; endings]);
    insensitive (seq [lit "i can't ";
                      PGroup 1 (alt [lit "go on"; lit "take it anymore"; lit "handle this"])]);
    insensitive (seq [lit "i'm ";
                      PGroup 1 (alt [lit "hopeless"; lit "worthless"; lit "a burden"])]);
    insensitive (seq [lit "there's no ";
                      PGroup 1 (alt [lit "point"; lit "hope"; lit "reason"])]);
    insensitive (seq [lit "i "; PGroup 1 (alt [lit "hate"; lit "despise"]); lit " myself"]);
    insensitive (seq [lit "i "; PGroup 1 (alt [lit "wish"; lit "want"]); lit " i was ";
                      PGroup 2 (alt [lit "dead"; lit "never born"])]) ].

Definition upperAZ : ClassItem := CRange "A" "Z".
Definition lowerAZ : ClassItem := CRange "a" "z".
Definition digits09 : ClassItem := CRange "0" "9".
Definition separator : Pattern := PClass false [CChar "-"; CChar "."; CSpace].

Record PiiPatterns : Type :=
  { email : RegExp; phone : RegExp; ssn : RegExp; creditCard : RegExp; name : RegExp }.

Definition piiPatterns : PiiPatterns :=
  {| email := globally (seq
       [ PWordBoundary;
         plus (PClass false [upperAZ; lowerAZ; digits09;
                             CChar "."; CChar "_"; CChar "%"; CChar "+"; CChar "-"]);
         PChar "@";
         plus (PClass false [upperAZ; lowerAZ; digits09; CChar "."; CChar "-"]);
         PChar ".";
         atLeast 2 (PClass false [upperAZ; CChar "|"; lowerAZ]);
         PWordBoundary ]);
     phone := globally (seq
       [ PWordBoundary;
         opt (seq [opt (PChar "+"); PChar "1"; opt separator]);
         opt (PChar "(");
         PGroup 1 (times 3 (PClass false [digits09]));
         opt (PChar ")");
         opt separator;
         PGroup 2 (times 3 (PClass false [digits09]));
         opt separator;
         PGroup 3 (times 4 (PClass false [digits09]));
         PWordBoundary ]);
     ssn := globally (seq
       [ PWordBoundary; times 3 digit; opt (PChar "-"); times 2 digit;
         opt (PChar "-"); times 4 digit; PWordBoundary ]);
     creditCard := globally (seq
       [ PWordBoundary;
         times 4 digit; opt (PClass false [CChar "-"; CSpace]);
         times 4 digit; opt (PClass false [CChar "-"; CSpace]);
         times 4 digit; opt (PClass false [CChar "-"; CSpace]);
         times 4 digit; PWordBoundary ]);
     name := globally (seq
       [ PWordBoundary;
         PClass false [upperAZ]; plus (PClass false [lowerAZ]); PChar " ";
         PClass false [upperAZ]; plus (PClass false [lowerAZ]);
         PWordBoundary ]) |}.

Definition promptInjectionPatterns : list RegExp :=
  map (fun s => insensitive (lit s))
    [ "ignore previous instructions"; "forget everything"; "you are now";
      "pretend to be"; "act as if"; "roleplay as"; "system prompt";
      "jailbreak"; "override"; "bypass" ].

(** /https?:\/\/[^\s]+/g *)
Definition urlPattern : RegExp :=
  globally (seq [lit "http"; opt (PChar "s"); lit "://"; plus (PClass true [CSpace])]).

(** [detectCrisis(input)] on a string; the empty string is falsy. *)
Definition detectCrisis (input : string) : bool :=
  if isEmpty input then false
  else
    let lowerInput := toLowerCase input in
    existsb (fun keyword => includes lowerInput (toLowerCase keyword)) crisisKeywords
    || existsb (fun pattern => test pattern input) crisisPatterns.

(** [detectPromptInjection(input)] *)
Definition detectPromptInjection (input : string) : bool :=
  if isEmpty input then false
  else existsb (fun pattern => test pattern input) promptInjectionPatterns.

(** [redactPII(text, redactNames)] *)
Definition redactPII (text : string) (redactNames : bool) : string :=
  if isEmpty text then EmptyString
  else
    let redacted := text in
    let redacted := replace (email piiPatterns) "[EMAIL_REDACTED]" redacted in
    let redacted := replace (phone piiPatterns) "[PHONE_REDACTED]" redacted in
    let redacted := replace (ssn piiPatterns) "[SSN_REDACTED]" redacted in
    let redacted := replace (creditCard piiPatterns) "[CARD_REDACTED]" redacted in
    if redactNames
    then replace (name piiPatterns) "[NAME_REDACTED]" redacted
    else redacted.

Record CrisisResponse : Type :=
  { code : string; message : string; resources : list string; timestamp : string }.

(** [getCrisisResponse()]; [now] is what [new Date().toISOString()]
    yields at the call. *)
Definition getCrisisResponse (now : string) : CrisisResponse :=
  {| code := "CRISIS_DETECTED";
     message := "We detected content that suggests you may be in crisis. Please reach out to a mental health professional or crisis hotline immediately. In the US: 988 Suicide & Crisis Lifeline. In the UK: 116 123 Samaritans. In Canada: 1-833-456-4566 Crisis Services Canada.";
     resources :=
       [ "988 Suicide & Crisis Lifeline (US)";
         "116 123 Samaritans (UK)";
         "1-833-456-4566 Crisis Services Canada";
         "International Association for Suicide Prevention: https://www.iasp.info/resources/Crisis_Centres/" ];
     timestamp := now |}.

(** The object [validateInput] returns, one constructor per shape. *)
Inductive ValidationResult : Type :=
| Rejected (error : string)               (* { isValid: false, error } *)
| Crisis (response : CrisisResponse)      (* { isValid: false, isCrisis: true, response } *)
| Accepted (processedInput : string) (originalLength sanitizedLength : nat).

Definition isValid (r : ValidationResult) : bool :=
  match r with Accepted _ _ _ => true | _ => false end.

(** [undefined] reads as [false]. *)
Definition isCrisis (r : ValidationResult) : bool :=
  match r with Crisis _ => true | _ => false end.

Definition error (r : ValidationResult) : option string :=
  match r with Rejected e => Some e | _ => None end.

Definition response (r : ValidationResult) : option CrisisResponse :=
  match r with Crisis c => Some c | _ => None end.

Definition processedInput (r : ValidationResult) : option string :=
  match r with Accepted p _ _ => Some p | _ => None end.

Section Gate.

(** [sanitizeHtml(input, { allowedTags: [], allowedAttributes: {} })]
    of the sanitize-html package, which is not part of the repository. *)
Variable sanitizeHtml : string -> string.

(** [sanitizeInput(input)] *)
Definition sanitizeInput (input : string) : string :=
  if isEmpty input then EmptyString
  else
    let sanitized := sanitizeHtml input in
    let sanitized := replace urlPattern "[URL_REMOVED]" sanitized in
    let sanitized :=
      fold_left (fun acc pattern => replace pattern "[INJECTION_ATTEMPT_REMOVED]" acc)
                promptInjectionPatterns sanitized in
    String.substring 0 10000 (trim sanitized).

(** [validateInput(input, storageOptIn, redactNames)] *)
Definition validateInput (now : string) (input : JsVal)
           (storageOptIn redactNames : bool) : ValidationResult :=
  match input with
  | JStr input =>
      if isEmpty input then Rejected "Invalid input provided"
      else if detectCrisis input then Crisis (getCrisisResponse now)
      else if detectPromptInjection input then Rejected "Invalid input detected"
      else
        let sanitized := sanitizeInput input in
        if String.length sanitized =? 0
        then Rejected "Input is empty after sanitization"
        else
          let processedInput :=
            if storageOptIn && negb redactNames then sanitized
            else redactPII sanitized redactNames in
          Accepted processedInput (String.length input) (String.length sanitized)
  | _ => Rejected "Invalid input provided"
  end.

End Gate.

End SafetyUtils.

(* ===================================================================== *)
(** ** JSON.stringify *)
(* ===================================================================== *)

Module Json.

Definition hexDigit (n : nat) : ascii :=
  if n <? 10 then ascii_of_nat (48 + n) else ascii_of_nat (87 + n).

(** One code unit inside QuoteJSONString. *)
Definition escapeChar (c : ascii) : string :=
  let n := charCode c in
  if n =? 8 then "\b"
  else if n =? 9 then "\t"
  else if n =? 10 then "\n"
  else if n =? 12 then "\f"
  else if n =? 13 then "\r"
  else if n =? 34 then "\" ++ dq
  else if n =? 92 then "\\"
  else if n <? 32
       then "\u00" ++ String (hexDigit (n / 16)) (String (hexDigit (n mod 16)) EmptyString)
       else String c EmptyString.

Fixpoint escape (s : string) : string :=
  match s with
  | EmptyString => EmptyString
  | String c r => escapeChar c ++ escape r
  end.

Definition quote (s : string) : string := dq ++ escape s ++ dq.

Fixpoint join (sep : string) (l : list string) : string :=
  match l with
  | [] => EmptyString
  | [s] => s
  | s :: r => s ++ sep ++ join sep r
  end.

Definition numberToString (z : Z) : string :=
  NilEmpty.string_of_int (Z.to_int z).

(** [JSON.stringify(v)]; [None] is [undefined].  Inside an array
    [undefined] is written as null, inside an object the property is
    left out. *)
Fixpoint stringify (v : JsVal) : option string :=
  match v with
  | JUndefined => None
  | JNull => Some "null"
  | JBool b => Some (if b then "true" else "false")
  | JNum z => Some (numberToString z)
  | JStr s => Some (quote s)
  | JArr items =>
      Some ("[" ++ join ","
              (map (fun x => match stringify x with Some s => s | None => "null" end) items)
            ++ "]")
  | JObj fields =>
      Some ("{" ++ join ","
              (flat_map (fun kv => match stringify (snd kv) with
                                   | Some s => [quote (fst kv) ++ ":" ++ s]
                                   | None => []
                                   end) fields)
            ++ "}")
  end.

(** [`${JSON.stringify(v)}`] *)
Definition interpolate (v : JsVal) : string :=
  match stringify v with Some s => s | None => "undefined" end.

End Json.

(* ===================================================================== *)
(** ** src/schemas: the stage values and their strict schemas *)
(* ===================================================================== *)

Module Schemas.

Record NarrativeLoop : Type :=
  { trigger : string;
    fear : string;
    emotion : string;
    outcome : string;
    whyItFeelsReal : string;
    hiddenLogic : string;
    breakingActions : list string;
    mechanisms : list string }.

Record MicroTest : Type :=
  { description : string; timeframe : string; successCriteria : string }.

Record ToolAction : Type :=
  { protocol : string; steps : list string; example : string }.

Record SpiessMap : Type :=
  { sensations : list string;
    emotions : list string;
    needs : list string;
    confirmationBias : string;
    microTest : MicroTest;
    toolAction : ToolAction }.

Definition strings (l : list string) : JsVal := JArr (map JStr l).

(** The records as the objects the code builds, keys in source order. *)
Definition narrativeLoopObject (nl : NarrativeLoop) : JsVal :=
  JObj [ ("trigger", JStr (trigger nl));
         ("fear", JStr (fear nl));
         ("emotion", JStr (emotion nl));
         ("outcome", JStr (outcome nl));
         ("whyItFeelsReal", JStr (whyItFeelsReal nl));
         ("hiddenLogic", JStr (hiddenLogic nl));
         ("breakingActions", strings (breakingActions nl));
         ("mechanisms", strings (mechanisms nl)) ].

Definition spiessMapObject (sp : SpiessMap) : JsVal :=
  JObj [ ("sensations", strings (sensations sp));
         ("emotions", strings (emotions sp));
         ("needs", strings (needs sp));
         ("confirmationBias", JStr (confirmationBias sp));
         ("microTest",
           JObj [ ("description", JStr (description (microTest sp)));
                  ("timeframe", JStr (timeframe (microTest sp)));
                  ("successCriteria", JStr (successCriteria (microTest sp))) ]);
         ("toolAction",
           JObj [ ("protocol", JStr (protocol (toolAction sp)));
                  ("steps", strings (steps (toolAction sp)));
                  ("example", JStr (example (toolAction sp))) ]) ].

(** [Joi.string().min(lo).max(hi)]: the length is counted in code units. *)
Definition joiString (lo hi : nat) (s : string) : bool :=
  negb (isEmpty s) && (lo <=? String.length s) && (String.length s <=? hi).

(** [Joi.string().valid(...allowed)] *)
Definition joiValid (allowed : list string) (s : string) : bool :=
  existsb (String.eqb s) allowed.

(** [Joi.array().items(item).min(lo).max(hi)] *)
Definition joiArray (item : string -> bool) (lo hi : nat) (l : list string) : bool :=
  forallb item l && (lo <=? List.length l) && (List.length l <=? hi).

Definition narrativeLoopSchema (nl : NarrativeLoop) : bool :=
  joiString 1 1000 (trigger nl) &&
  joiString 1 1000 (fear nl) &&
  joiString 1 1000 (emotion nl) &&
  joiString 1 1000 (outcome nl) &&
  joiString 1 1000 (whyItFeelsReal nl) &&
  joiString 1 1000 (hiddenLogic nl) &&
  joiArray (joiString 1 500) 1 5 (breakingActions nl) &&
  joiArray (joiString 1 200) 1 10 (mechanisms nl).

Definition needsEnum : list string :=
  [ "safety"; "belonging"; "autonomy"; "competence"; "purpose"; "connection";
    "recognition"; "control"; "predictability"; "growth"; "contribution"; "meaning" ].

Definition protocols : list string := [ "STOP"; "Values First"; "Bridge Belief" ].

Definition spiessMapSchema (sp : SpiessMap) : bool :=
  joiArray (joiString 1 200) 1 5 (sensations sp) &&
  joiArray (joiString 1 200) 1 5 (emotions sp) &&
  joiArray (joiValid needsEnum) 1 3 (needs sp) &&
  joiString 1 1000 (confirmationBias sp) &&
  (joiString 1 500 (description (microTest sp)) &&
   joiString 1 100 (timeframe (microTest sp)) &&
   joiString 1 300 (successCriteria (microTest sp))) &&
  (joiValid protocols (protocol (toolAction sp)) &&
   joiArray (joiString 1 300) 1 5 (steps (toolAction sp)) &&
   joiString 1 500 (example (toolAction sp))).

(** The [tags] enumeration of [sessionSchema] and of the Session model. *)
Definition sessionTags : list string :=
  [ "fear_of_rejection"; "autonomy_threat"; "perfectionism"; "people_pleasing";
    "boundary_signaling"; "attention_testing"; "vulnerability_avoidance" ].

End Schemas.
Import Schemas.

(* ===================================================================== *)
(** ** Calls to the completion service *)
(* ===================================================================== *)

Module Completion.

(** The argument of [openai.chat.completions.create]. *)
Record Request : Type :=
  { model : string;
    messages : list (string * string);      (* role, content *)
    max_tokens : nat;
    temperature : Q }.

(** What a call comes to: it throws, or it resolves and
    [response.choices[0].message.content] is a string or null.  A
    response on which that access itself throws is a [Throws]. *)
Inductive Reply : Type :=
| Throws (err : string)
| Content (content : option string).

(** The service answers a request knowing the requests made before. *)
Definition Service : Type := list Request -> Request -> Reply.

Inductive Result (A : Type) : Type :=
| Return (a : A)
| Throw (err : string).
Arguments Return {A} a.
Arguments Throw {A} err.

(** An asynchronous computation: it runs against the requests made so
    far, returns or throws, and leaves the requests it added. *)
Definition Async (A : Type) : Type := list Request -> Result A * list Request.

Definition ret {A} (a : A) : Async A := fun h => (Return a, h).

Definition throw {A} (err : string) : Async A := fun h => (Throw err, h).

Definition bind {A B} (m : Async A) (f : A -> Async B) : Async B :=
  fun h =>
    match m h with
    | (Return a, h') => f a h'
    | (Throw e, h') => (Throw e, h')
    end.

(** [try { body } catch (error) { handler }] *)
Definition tryCatch {A} (body : Async A) (handler : string -> Async A) : Async A :=
  fun h =>
    match body h with
    | (Return a, h') => (Return a, h')
    | (Throw e, h') => handler e h'
    end.

Definition create (openai : Service) (req : Request) : Async (option string) :=
  fun h =>
    (match openai h req with
     | Throws e => Throw e
     | Content c => Return c
     end, (h ++ [req])%list).

End Completion.
Import Completion.

Declare Scope async_scope.
Delimit Scope async_scope with async.
Notation "x <- m ;; k" := (bind m (fun x => k))
  (at level 61, m at next level, right associativity) : async_scope.

(* ===================================================================== *)
(** ** src/services/analysisService.js *)
(* ===================================================================== *)

Module AnalysisService.

(** [{ ok: true, data }] or [{ ok: false, error }] *)
Inductive Parsed : Type :=
| Ok (data : JsVal)
| Failed (error : string).

Definition ok (p : Parsed) : bool :=
  match p with Ok _ => true | Failed _ => false end.

Definition backticks : Pattern := lit "```".

(** /```json\s*([\s\S]*?)\s*```/i *)
Definition labeledFence : RegExp :=
  mkRegExp (seq [backticks; lit "json"; star space; PGroup 1 (lazyStar anyChar);
                 star space; backticks]) true false.

(** /```\s*([\s\S]*?)\s*```/i *)
Definition plainFence : RegExp :=
  mkRegExp (seq [backticks; star space; PGroup 1 (lazyStar anyChar);
                 star space; backticks]) true false.

(** The scan of [candidate] for the brace that closes the first one:
    [i] is the loop index, [depth] the nesting so far. *)
Fixpoint scanBraces (candidate : string) (i : nat) (depth : Z) : option nat :=
  match candidate with
  | EmptyString => None
  | String ch r =>
      if Ascii.eqb ch "{" then scanBraces r (S i) (depth + 1)
      else if Ascii.eqb ch "}"
           then if Z.eqb (depth - 1) 0 then Some i
                else scanBraces r (S i) (depth - 1)
           else scanBraces r (S i) depth
  end.

(** The text between the fences: [fencedMatch[1]] when a fence matched
    and the capture is not empty. *)
Definition fencedBody (text : string) : option string :=
  let fencedMatch :=
    match exec labeledFence text with
    | Some m => Some m
    | None => exec plainFence text
    end in
  match fencedMatch with
  | Some m =>
      match group 1 m with
      | Some body => if isEmpty body then None else Some body
      | None => None
      end
  | None => None
  end.

(** The text the brace strategy hands to [JSON.parse]: the balanced
    prefix of [candidate] when the scan finds one, [candidate] itself
    otherwise. *)
Definition braceBody (text : string) : option string :=
  match indexOf "{" text, lastIndexOf "}" text with
  | Some firstBrace, Some lastBrace =>
      if firstBrace <? lastBrace then
        let candidate := slice firstBrace (lastBrace + 1) text in
        match scanBraces candidate 0 0 with
        | Some e => Some (slice 0 (e + 1) candidate)
        | None => Some candidate
        end
      else None
  | _, _ => None
  end.

(** *** normalizeNarrativeLoop, normalizeSpiessMap *)

Module Normalize.

Definition sanitizeString (val : JsVal) : string :=
  match val with JStr s => trim s | _ => EmptyString end.

(** [.filter(Boolean)] keeps the non-empty strings. *)
Definition sanitizeArray (arr : JsVal) : list string :=
  match arr with
  | JArr items => filter (fun v => negb (isEmpty v)) (map sanitizeString items)
  | _ => []
  end.

End Normalize.

Definition normalizeNarrativeLoop (nl : JsVal) : NarrativeLoop :=
  {| trigger := Normalize.sanitizeString (Js.optGet nl "trigger");
     fear := Normalize.sanitizeString (Js.optGet nl "fear");
     emotion := Normalize.sanitizeString (Js.optGet nl "emotion");
     outcome := Normalize.sanitizeString (Js.optGet nl "outcome");
     whyItFeelsReal := Normalize.sanitizeString (Js.optGet nl "whyItFeelsReal");
     hiddenLogic := Normalize.sanitizeString (Js.optGet nl "hiddenLogic");
     breakingActions := Normalize.sanitizeArray (Js.optGet nl "breakingActions");
     mechanisms := Normalize.sanitizeArray (Js.optGet nl "mechanisms") |}.

Definition normalizeSpiessMap (sp : JsVal) : SpiessMap :=
  {| sensations := Normalize.sanitizeArray (Js.optGet sp "sensations");
     emotions := Normalize.sanitizeArray (Js.optGet sp "emotions");
     needs := map toLowerCase (Normalize.sanitizeArray (Js.optGet sp "needs"));
     confirmationBias := Normalize.sanitizeString (Js.optGet sp "confirmationBias");
     microTest :=
       {| description := Normalize.sanitizeString (Js.optGet (Js.optGet sp "microTest") "description");
          timeframe := Normalize.sanitizeString (Js.optGet (Js.optGet sp "microTest") "timeframe");
          successCriteria :=
            Normalize.sanitizeString (Js.optGet (Js.optGet sp "microTest") "successCriteria") |};
     toolAction :=
       {| protocol := Normalize.sanitizeString (Js.optGet (Js.optGet sp "toolAction") "protocol");
          steps := Normalize.sanitizeArray (Js.optGet (Js.optGet sp "toolAction") "steps");
          example := Normalize.sanitizeString (Js.optGet (Js.optGet sp "toolAction") "example") |} |}.

(** *** repairNarrativeLoop, repairSpiessMap *)

Module Repair.

Definition trimmed (v : JsVal) : string :=
  match v with JStr s => trim s | _ => EmptyString end.

Definition sanitizeString (val : JsVal) (fallback : string) : string :=
  let s := trimmed val in
  if 0 <? String.length s then s else fallback.

Definition cleaned (items : list JsVal) : list string :=
  filter (fun v => 0 <? String.length v) (map trimmed items).

(** [sanitizeArray] of [repairNarrativeLoop] *)
Definition sanitizeArrayLoop (arr : JsVal) (fallbackItem : string) : list string :=
  match arr with
  | JArr items =>
      let cleaned := cleaned items in
      if 0 <? List.length cleaned then cleaned else [fallbackItem]
  | _ => [fallbackItem]
  end.

(** [sanitizeArray] of [repairSpiessMap]; [max] is [None] when the
    third argument is left out. *)
Definition sanitizeArray (arr : JsVal) (fallbackItem : string) (max : option nat)
  : list string :=
  let items := match arr with JArr items => items | _ => [] end in
  let items := cleaned items in
  let items := if List.length items =? 0 then [fallbackItem] else items in
  match max with
  | Some n => firstn n items
  | None => items
  end.

Definition allowedNeeds : list string := needsEnum.

Definition sanitizeNeeds (arr : JsVal) : list string :=
  let items := match arr with JArr items => items | _ => [] end in
  let filtered :=
    filter (fun v => existsb (String.eqb v) allowedNeeds) (map trimmed items) in
  if 0 <? List.length filtered then firstn 3 filtered else ["safety"].

Definition sanitizeProtocol (val : JsVal) : string :=
  let allowed := ["STOP"; "Values First"; "Bridge Belief"] in
  let v := trimmed val in
  if existsb (String.eqb v) allowed then v else "STOP".

End Repair.

(** [repairNarrativeLoop(narrativeLoop)]; [None] is the TypeError of
    reading a property of [null] or [undefined]. *)
Definition repairNarrativeLoop (narrativeLoop : JsVal) : option NarrativeLoop :=
  if Js.isNullish narrativeLoop then None
  else
    let field := Js.optGet narrativeLoop in
    Some
      {| trigger := Repair.sanitizeString (field "trigger") "Hypothesis: Trigger not clearly identified";
         fear := Repair.sanitizeString (field "fear") "Hypothesis: Fear not clearly identified";
         emotion := Repair.sanitizeString (field "emotion") "Hypothesis: Emotion not clearly identified";
         outcome := Repair.sanitizeString (field "outcome") "Hypothesis: Outcome not clearly identified";
         whyItFeelsReal :=
           Repair.sanitizeString (field "whyItFeelsReal")
             "Hypothesis: Why it feels real not clearly identified";
         hiddenLogic :=
           Repair.sanitizeString (field "hiddenLogic")
             "Hypothesis: Hidden logic not clearly identified";
         breakingActions :=
           Repair.sanitizeArrayLoop (field "breakingActions")
             "Hypothesis: Breaking action not clearly identified";
         mechanisms :=
           Repair.sanitizeArrayLoop (field "mechanisms")
             "Hypothesis: Mechanism not clearly identified" |}.

(** [repairSpiessMap(spiessMap)] *)
Definition repairSpiessMap (spiessMap : JsVal) : option SpiessMap :=
  if Js.isNullish spiessMap then None
  else
    let field := Js.optGet spiessMap in
    let micro := Js.or (field "microTest") (JObj []) in
    let tool := Js.or (field "toolAction") (JObj []) in
    Some
      {| sensations :=
           Repair.sanitizeArray (field "sensations")
             "Hypothesis: Sensation not clearly identified" (Some 5);
         emotions :=
           Repair.sanitizeArray (field "emotions")
             "Hypothesis: Emotion not clearly identified" (Some 5);
         needs := Repair.sanitizeNeeds (field "needs");
         confirmationBias :=
           Repair.sanitizeString (field "confirmationBias")
             "Hypothesis: Confirmation bias not clearly identified";
         microTest :=
           {| description :=
                Repair.sanitizeString (Js.optGet micro "description")
                  "Hypothesis: Micro test not clearly identified";
              timeframe := Repair.sanitizeString (Js.optGet micro "timeframe") "Within 24 hours";
              successCriteria :=
                Repair.sanitizeString (Js.optGet micro "successCriteria")
                  "Hypothesis: Success criteria not clearly identified" |};
         toolAction :=
           {| protocol := Repair.sanitizeProtocol (Js.optGet tool "protocol");
              steps :=
                Repair.sanitizeArray (Js.optGet tool "steps")
                  "Hypothesis: Tool action step not clearly identified" (Some 5);
              example :=
                Repair.sanitizeString (Js.optGet tool "example")
                  "Hypothesis: Tool action example not clearly identified" |} |}.

Definition getDefaultNarrativeLoop : NarrativeLoop :=
  {| trigger := "Unable to identify trigger";
     fear := "Unable to identify fear";
     emotion := "Unable to identify emotion";
     outcome := "Unable to identify outcome";
     whyItFeelsReal := "Unable to identify why it feels real";
     hiddenLogic := "Unable to identify hidden logic";
     breakingActions := ["Unable to identify breaking actions"];
     mechanisms := ["Unable to identify mechanisms"] |}.

Definition getDefaultSpiessMap : SpiessMap :=
  {| sensations := ["Unable to identify sensations"];
     emotions := ["Unable to identify emotions"];
     needs := ["safety"];
     confirmationBias := "Unable to identify confirmation bias";
     microTest :=
       {| description := "Unable to identify micro test";
          timeframe := "Within 24 hours";
          successCriteria := "Unable to identify success criteria" |};
     toolAction :=
       {| protocol := "STOP";
          steps := ["Unable to identify tool action steps"];
          example := "Unable to identify tool action example" |} |}.

(** *** detectMechanisms *)

(** [if (cond) tags.push(tag)] *)
Definition pushIf (cond : bool) (tag : string) (tags : list string) : list string :=
  if cond then (tags ++ [tag])%list else tags.

(** [[...new Set(tags)]]: the first occurrence of each tag, in order. *)
Fixpoint dedupe (seen : list string) (tags : list string) : list string :=
  match tags with
  | [] => []
  | t :: r =>
      if existsb (String.eqb t) seen then dedupe seen r
      else t :: dedupe (t :: seen) r
  end.

(** [detectMechanisms(narrativeLoop, spiessMap)] *)
Definition detectMechanisms (narrativeLoop spiessMap : JsVal) : list string :=
  let tags := [] in
  let text := toLowerCase (Json.interpolate narrativeLoop ++ " " ++ Json.interpolate spiessMap) in
  let tags := pushIf (includes text "confirmation bias" || includes text "confirmation_bias")
                     "confirmation_bias" tags in
  let tags := pushIf (includes text "rejection" || includes text "rejection_sensitivity")
                     "fear_of_rejection" tags in
  let tags := pushIf (includes text "control" || includes text "autonomy")
                     "autonomy_threat" tags in
  let tags := pushIf (includes text "perfect" || includes text "perfectionism")
                     "perfectionism" tags in
  let tags := pushIf (includes text "people pleas" || includes text "approval")
                     "people_pleasing" tags in
  let tags := pushIf (includes text "boundary" || includes text "limit")
                     "boundary_signaling" tags in
  let tags := pushIf (includes text "attention" || includes text "test")
                     "attention_testing" tags in
  let tags := pushIf (includes text "vulnerable" || includes text "vulnerability")
                     "vulnerability_avoidance" tags in
  dedupe [] tags.

Section Parser.

(** [JSON.parse] on a string: the value, or the SyntaxError it throws. *)
Variable JSON_parse : string -> JsVal + string.

(** [safeJsonParse(text)] *)
Definition safeJsonParse (text : string) : Parsed :=
  match JSON_parse text with
  | inl data => Ok data
  | inr e1 =>
      let afterFence (_ : unit) :=
        let afterBraces (_ : unit) := Failed e1 in
        match braceBody text with
        | Some body =>
            match JSON_parse body with
            | inl data => Ok data
            | inr _ => afterBraces tt
            end
        | None => afterBraces tt
        end in
      match fencedBody text with
      | Some body =>
          match JSON_parse body with
          | inl data => Ok data
          | inr _ => afterFence tt
          end
      | None => afterFence tt
      end
  end.

(** [safeJsonParse] on the content of a reply: [JSON.parse(null)]
    is [null]. *)
Definition safeJsonParseContent (raw : option string) : Parsed :=
  match raw with
  | Some text => safeJsonParse text
  | None => Ok JNull
  end.

Definition newline : string := String (ascii_of_nat 10) EmptyString.

Definition template (lines : list string) : string := Json.join newline lines.

Definition show (raw : option string) : string :=
  match raw with Some s => s | None => "null" end.

Section Calls.

Variable openai : Service.

Local Open Scope async_scope.
Local Open Scope Q_scope.

Definition user (prompt : string) : list (string * string) := [("user", prompt)].

(** [retryJsonFix(instruction, rawContent)] *)
Definition retryJsonFix (instruction : string) (rawContent : option string)
  : Async (option string) :=
  let messages :=
    [ ("system", "You are a strict JSON reformatter. Output ONLY valid JSON. No prose, no backticks.");
      ("user", "Convert the following into valid JSON that matches: " ++ instruction
               ++ newline ++ newline ++ "Content to fix:" ++ newline ++ show rawContent) ] in
  create openai {| model := "gpt-4"; messages := messages;
                   max_tokens := 2000; temperature := 0 |}.

(** The request [needsClarifyingQuestions] sends. *)
Definition clarifyingRequest (input : string) : Request :=
  let prompt := template
    [ "Analyze this input and determine if clarifying questions are needed. ";
      "    Return only " ++ quoted "YES" ++ " or " ++ quoted "NO"
        ++ " based on whether any of these are missing or unclear:";
      "    - Trigger (what started this)";
      "    - Fear (what are they afraid of)";
      "    - Emotion (what they're feeling)";
      "    - Outcome (what they expect to happen)";
      "    ";
      "    Input: " ++ input ] in
  {| model := "gpt-4"; messages := user prompt;
     max_tokens := 10; temperature := 1 # 10 |}.

(** [needsClarifyingQuestions(input)] *)
Definition needsClarifyingQuestions (input : string) : Async bool :=
  tryCatch
    (content <- create openai (clarifyingRequest input) ;;
     match content with
     | Some text => ret (String.eqb (toUpperCase (trim text)) "YES")
     | None => throw "TypeError: Cannot read properties of null (reading 'trim')"
     end)
    (fun _ => ret false).

(** The parse of a reply, with the one retry through [retryJsonFix]. *)
Definition parseWithRetry (instruction : string) (raw : option string) : Async Parsed :=
  let parsed := safeJsonParseContent raw in
  if negb (ok parsed)
  then fixed <- retryJsonFix instruction raw ;; ret (safeJsonParseContent fixed)
  else ret parsed.

Definition dataOrEmpty (parsed : Parsed) : JsVal :=
  match parsed with Ok data => data | Failed _ => JObj [] end.

(** [buildNarrativeLoop(input)] *)
Definition buildNarrativeLoop (input : string) : Async NarrativeLoop :=
  let prompt := template
    [ "Extract a narrative loop from this input. Return a JSON object with these exact fields:";
      "    {";
      "      " ++ quoted "trigger" ++ ": " ++ quoted "What started this situation (max 1000 chars)" ++ ",";
      "      " ++ quoted "fear" ++ ": " ++ quoted "What they're afraid of (max 1000 chars)" ++ ",";
      "      " ++ quoted "emotion" ++ ": " ++ quoted "What they're feeling (max 1000 chars)" ++ ",";
      "      " ++ quoted "outcome" ++ ": " ++ quoted "What they expect to happen (max 1000 chars)" ++ ",";
      "      " ++ quoted "whyItFeelsReal" ++ ": "
        ++ quoted "Why this fear feels real to them (max 1000 chars)" ++ ",";
      "      " ++ quoted "hiddenLogic" ++ ": "
        ++ quoted "The hidden logic driving this (max 1000 chars)" ++ ",";
      "      " ++ quoted "breakingActions" ++ ": [" ++ quoted "Action 1" ++ ", "
        ++ quoted "Action 2" ++ ", " ++ quoted "Action 3"
        ++ "] (1-5 actions, max 500 chars each),";
      "      " ++ quoted "mechanisms" ++ ": [" ++ quoted "mechanism1" ++ ", "
        ++ quoted "mechanism2" ++ "] (1-10 mechanisms, max 200 chars each)";
      "    }";
      "    ";
      "    Input: " ++ input ] in
  tryCatch
    (raw <- create openai {| model := "gpt-4"; messages := user prompt;
                             max_tokens := 2000; temperature := 3 # 10 |} ;;
     parsed <- parseWithRetry
       "a JSON object with keys: trigger, fear, emotion, outcome, whyItFeelsReal, hiddenLogic, breakingActions (array of strings), mechanisms (array of strings)"
       raw ;;
     let narrativeLoop := dataOrEmpty parsed in
     let narrativeLoop := normalizeNarrativeLoop narrativeLoop in
     if negb (narrativeLoopSchema narrativeLoop)
     then match repairNarrativeLoop (narrativeLoopObject narrativeLoop) with
          | Some repaired => ret repaired
          | None => throw "TypeError"
          end
     else ret narrativeLoop)
    (fun _ => ret getDefaultNarrativeLoop).

(** [buildSpiessMap(narrativeLoop)] *)
Definition buildSpiessMap (narrativeLoop : JsVal) : Async SpiessMap :=
  let prompt := template
    [ "Convert this narrative loop into a SPIESS map. Return a JSON object with these exact fields:";
      "    {";
      "      " ++ quoted "sensations" ++ ": [" ++ quoted "physical sensation 1" ++ ", "
        ++ quoted "physical sensation 2" ++ "] (1-5 sensations, max 200 chars each),";
      "      " ++ quoted "emotions" ++ ": [" ++ quoted "emotion 1" ++ ", "
        ++ quoted "emotion 2" ++ "] (1-5 emotions, max 200 chars each),";
      "      " ++ quoted "needs" ++ ": [" ++ quoted "need1" ++ ", " ++ quoted "need2"
        ++ "] (1-3 needs from: " ++ Json.join ", " needsEnum ++ "),";
      "      " ++ quoted "confirmationBias" ++ ": "
        ++ quoted "Cause-effect sentence about confirmation bias (max 1000 chars)" ++ ",";
      "      " ++ quoted "microTest" ++ ": {";
      "        " ++ quoted "description" ++ ": " ++ quoted "Test description (max 500 chars)" ++ ",";
      "        " ++ quoted "timeframe" ++ ": " ++ quoted "Within 24 hours (max 100 chars)" ++ ",";
      "        " ++ quoted "successCriteria" ++ ": "
        ++ quoted "How to measure success (max 300 chars)";
      "      },";
      "      " ++ quoted "toolAction" ++ ": {";
      "        " ++ quoted "protocol" ++ ": " ++ quoted "STOP" ++ " or "
        ++ quoted "Values First" ++ " or " ++ quoted "Bridge Belief" ++ ",";
      "        " ++ quoted "steps" ++ ": [" ++ quoted "Step 1" ++ ", " ++ quoted "Step 2"
        ++ ", " ++ quoted "Step 3" ++ "] (1-5 steps, max 300 chars each),";
      "        " ++ quoted "example" ++ ": " ++ quoted "Concrete example (max 500 chars)";
      "      }";
      "    }";
      "    ";
      "    Narrative Loop: " ++ Json.interpolate narrativeLoop ] in
  tryCatch
    (raw <- create openai {| model := "gpt-4"; messages := user prompt;
                             max_tokens := 2000; temperature := 3 # 10 |} ;;
     parsed <- parseWithRetry
       "a JSON object with keys: sensations (array of strings), emotions (array of strings), needs (array of strings), confirmationBias (string), microTest (object with description, timeframe, successCriteria), toolAction (object with protocol, steps array, example)"
       raw ;;
     let spiessMap := dataOrEmpty parsed in
     let spiessMap := normalizeSpiessMap spiessMap in
     if negb (spiessMapSchema spiessMap)
     then match repairSpiessMap (spiessMapObject spiessMap) with
          | Some repaired => ret repaired
          | None => throw "TypeError"
          end
     else ret spiessMap)
    (fun _ => ret getDefaultSpiessMap).

End Calls.

End Parser.

End AnalysisService.

(* ===================================================================== *)
(** ** Instances for concrete runs *)
(* ===================================================================== *)

(** A reader of JSON text for the runs below.  It follows the JSON
    grammar (insignificant white space, the three literals, strings with
    their escapes, arrays, objects, a repeated key keeping its first
    place and last value); a number is read when it is an integer
    literal, and a code unit above U+00FF is outside the 8-bit range of
    [string].  The statements about [safeJsonParse] hold for every
    parser, this one included. *)
Module JsonReader.

Definition isJsonSpace (c : ascii) : bool :=
  (charCode c =? 32) || (charCode c =? 9) || (charCode c =? 10) || (charCode c =? 13).

Fixpoint skipSpace (s : string) : string :=
  match s with
  | String c r => if isJsonSpace c then skipSpace r else s
  | EmptyString => s
  end.

Definition hexValue (c : ascii) : option nat :=
  let n := charCode c in
  if between 48 57 c then Some (n - 48)
  else if between 97 102 c then Some (n - 87)
  else if between 65 70 c then Some (n - 55)
  else None.

Definition unicodeEscape (s : string) : option (ascii * string) :=
  match s with
  | String a (String b (String c (String d r))) =>
      match hexValue a, hexValue b, hexValue c, hexValue d with
      | Some 0, Some 0, Some h, Some l => Some (ascii_of_nat (16 * h + l), r)
      | _, _, _, _ => None
      end
  | _ => None
  end.

(** The characters of a string literal after its opening quote. *)
Fixpoint chars (fuel : nat) (s : string) : option (string * string) :=
  match fuel with
  | O => None
  | S fuel' =>
      match s with
      | EmptyString => None
      | String c r =>
          if charCode c =? 34 then Some (EmptyString, r)
          else if charCode c =? 92 then
            match r with
            | String e r' =>
                let simple (x : nat) :=
                  option_map (fun p => (String (ascii_of_nat x) (fst p), snd p))
                             (chars fuel' r') in
                if charCode e =? 34 then simple 34
                else if charCode e =? 92 then simple 92
                else if Ascii.eqb e "/" then simple 47
                else if Ascii.eqb e "b" then simple 8
                else if Ascii.eqb e "f" then simple 12
                else if Ascii.eqb e "n" then simple 10
                else if Ascii.eqb e "r" then simple 13
                else if Ascii.eqb e "t" then simple 9
                else if Ascii.eqb e "u" then
                  match unicodeEscape r' with
                  | Some (x, r'') =>
                      option_map (fun p => (String x (fst p), snd p)) (chars fuel' r'')
                  | None => None
                  end
                else None
            | EmptyString => None
            end
          else if charCode c <? 32 then None
          else option_map (fun p => (String c (fst p), snd p)) (chars fuel' r)
      end
  end.

Fixpoint digitsOf (s : string) (acc : Z) : Z * string :=
  match s with
  | String c r =>
      if between 48 57 c then digitsOf r (10 * acc + Z.of_nat (charCode c - 48))%Z
      else (acc, s)
  | EmptyString => (acc, s)
  end.

Definition startsFraction (s : string) : bool :=
  match s with
  | String c _ => Ascii.eqb c "." || Ascii.eqb c "e" || Ascii.eqb c "E"
  | EmptyString => false
  end.

(** An integer literal without its sign: 0, or digits not led by 0. *)
Definition natural (s : string) : option (Z * string) :=
  match s with
  | String c r =>
      if Ascii.eqb c "0" then (if startsFraction r then None else Some (0%Z, r))
      else if between 49 57 c then
        let '(z, r') := digitsOf s 0%Z in
        if startsFraction r' then None else Some (z, r')
      else None
  | EmptyString => None
  end.

Fixpoint setField (k : string) (v : JsVal) (fields : list (string * JsVal))
  : list (string * JsVal) :=
  match fields with
  | [] => [(k, v)]
  | (k', v') :: r => if String.eqb k' k then (k, v) :: r else (k', v') :: setField k v r
  end.

Definition expect (lit : string) (v : JsVal) (s : string) : option (JsVal * string) :=
  if String.prefix lit s
  then Some (v, String.substring (String.length lit) (String.length s) s)
  else None.

Fixpoint value (fuel : nat) (s : string) {struct fuel} : option (JsVal * string) :=
  match fuel with
  | O => None
  | S fuel' =>
      match skipSpace s with
      | EmptyString => None
      | String c r =>
          if charCode c =? 34 then
            option_map (fun p => (JStr (fst p), snd p)) (chars (S (String.length r)) r)
          else if Ascii.eqb c "[" then
            match skipSpace r with
            | String "]" r' => Some (JArr [], r')
            | _ => elements fuel' r []
            end
          else if Ascii.eqb c "{" then
            match skipSpace r with
            | String "}" r' => Some (JObj [], r')
            | _ => members fuel' r []
            end
          else if Ascii.eqb c "-" then
            option_map (fun p => (JNum (- fst p), snd p)) (natural r)
          else if between 48 57 c then
            option_map (fun p => (JNum (fst p), snd p)) (natural (String c r))
          else if Ascii.eqb c "t" then expect "true" (JBool true) (String c r)
          else if Ascii.eqb c "f" then expect "false" (JBool false) (String c r)
          else if Ascii.eqb c "n" then expect "null" JNull (String c r)
          else None
      end
  end
with elements (fuel : nat) (s : string) (acc : list JsVal) {struct fuel}
  : option (JsVal * string) :=
  match fuel with
  | O => None
  | S fuel' =>
      match value fuel' s with
      | Some (v, r) =>
          match skipSpace r with
          | String "," r' => elements fuel' r' (acc ++ [v])%list
          | String "]" r' => Some (JArr (acc ++ [v])%list, r')
          | _ => None
          end
      | None => None
      end
  end
with members (fuel : nat) (s : string) (acc : list (string * JsVal)) {struct fuel}
  : option (JsVal * string) :=
  match fuel with
  | O => None
  | S fuel' =>
      match skipSpace s with
      | String c r =>
          if charCode c =? 34 then
            match chars (S (String.length r)) r with
            | Some (k, r1) =>
                match skipSpace r1 with
                | String ":" r2 =>
                    match value fuel' r2 with
                    | Some (v, r3) =>
                        match skipSpace r3 with
                        | String "," r4 => members fuel' r4 (setField k v acc)
                        | String "}" r4 => Some (JObj (setField k v acc), r4)
                        | _ => None
                        end
                    | None => None
                    end
                | _ => None
                end
            | None => None
            end
          else None
      | EmptyString => None
      end
  end.

Definition parse (text : string) : JsVal + string :=
  match value (2 * String.length text + 2) text with
  | Some (v, r) =>
      match skipSpace r with
      | EmptyString => inl v
      | _ => inr "SyntaxError: Unexpected non-whitespace character after JSON"
      end
  | None => inr "SyntaxError: Unexpected token"
  end.

End JsonReader.

(** sanitize-html returns text that holds no markup as it is; in the
    runs below, whose inputs hold neither angle brackets nor ampersands,
    this function stands for it. *)
Definition plainText (input : string) : string := input.

(* ===================================================================== *)
(** ** src/services/analyticsService.js *)
(* ===================================================================== *)

Module Tracking.

(** What [trackEvent] reads of the Express request. *)
Record Req : Type := { ip : option string; userAgent : option string }.

(** The arguments of one call of [trackEvent].  The session id is passed
    on as it came: a text for the ids [analyze] makes, any value for an
    id a caller sends. *)
Record Tracked : Type :=
  { sessionId : JsVal;
    eventName : string;
    eventData : JsVal;
    userId : option string;
    req : option Req }.

(** The two collaborators of the orchestration: the requests made to
    the completion service and the events handed to [trackEvent]. *)
Record World : Type := { requests : list Request; events : list Tracked }.

Definition Task (A : Type) : Type := World -> Result A * World.

Definition ret {A} (a : A) : Task A := fun w => (Return a, w).

Definition throw {A} (err : string) : Task A := fun w => (Throw err, w).

Definition bind {A B} (m : Task A) (f : A -> Task B) : Task B :=
  fun w =>
    match m w with
    | (Return a, w') => f a w'
    | (Throw e, w') => (Throw e, w')
    end.

Definition tryCatch {A} (body : Task A) (handler : string -> Task A) : Task A :=
  fun w =>
    match body w with
    | (Return a, w') => (Return a, w')
    | (Throw e, w') => handler e w'
    end.

(** A computation that only talks to the completion service. *)
Definition lift {A} (m : Async A) : Task A :=
  fun w =>
    let (r, h) := m (requests w) in
    (r, {| requests := h; events := events w |}).

End Tracking.

Declare Scope task_scope.
Delimit Scope task_scope with task.
Notation "x <- m ;; k" := (Tracking.bind m (fun x => k))
  (at level 61, m at next level, right associativity) : task_scope.

Module AnalyticsService.

Import Tracking.
Local Open Scope task_scope.

(** [trackEvent(sessionId, eventName, eventData, userId, req)]: the
    document is built and saved inside try/catch, so the call never
    throws; the world records the event handed over. *)
Definition trackEvent (sessionId : JsVal) (eventName : string) (eventData : JsVal)
           (userId : option string) (req : option Req) : Task unit :=
  fun w =>
    (Return tt,
     {| requests := requests w;
        events := (events w ++ [ {| Tracking.sessionId := sessionId;
                                    Tracking.eventName := eventName;
                                    Tracking.eventData := eventData;
                                    Tracking.userId := userId;
                                    Tracking.req := req |} ])%list |}).

Definition trackSessionStarted (sessionId : JsVal) (userId : option string)
           (req : option Req) : Task unit :=
  trackEvent sessionId "session_started" (JObj []) userId req.

Definition number (n : nat) : JsVal := JNum (Z.of_nat n).

Definition trackInputReceived (sessionId : JsVal) (inputLength : nat)
           (userId : option string) (req : option Req) : Task unit :=
  trackEvent sessionId "input_received" (JObj [("inputLength", number inputLength)]) userId req.

(** [questions.map(q => q.substring(0, 100))]: a TypeError ([None]) when
    an entry is not a string. *)
Fixpoint truncateQuestions (questions : list JsVal) : option (list string) :=
  match questions with
  | [] => Some []
  | JStr q :: r => option_map (cons (String.substring 0 100 q)) (truncateQuestions r)
  | _ :: _ => None
  end.

Definition trackQuestionsAsked (sessionId : JsVal) (questions : list JsVal)
           (userId : option string) (req : option Req) : Task unit :=
  match truncateQuestions questions with
  | Some truncated =>
      trackEvent sessionId "questions_asked"
        (JObj [ ("questionCount", number (List.length questions));
                ("questions", strings truncated) ]) userId req
  | None => throw "TypeError: q.substring is not a function"
  end.

Definition trackLoopBuilt (sessionId : JsVal) (narrativeLoop : NarrativeLoop)
           (userId : option string) (req : option Req) : Task unit :=
  trackEvent sessionId "loop_built"
    (JObj [ ("hasTrigger", JBool (Js.truthy (JStr (trigger narrativeLoop))));
            ("hasFear", JBool (Js.truthy (JStr (fear narrativeLoop))));
            ("hasEmotion", JBool (Js.truthy (JStr (emotion narrativeLoop))));
            ("hasOutcome", JBool (Js.truthy (JStr (outcome narrativeLoop))));
            ("mechanismCount", number (List.length (mechanisms narrativeLoop))) ])
    userId req.

Definition trackSpiessBuilt (sessionId : JsVal) (spiessMap : SpiessMap)
           (userId : option string) (req : option Req) : Task unit :=
  trackEvent sessionId "spiess_built"
    (JObj [ ("needsCount", number (List.length (needs spiessMap)));
            ("hasMicroTest", JBool true);
            ("hasToolAction", JBool true);
            ("protocol", JStr (protocol (toolAction spiessMap))) ])
    userId req.

(** [v.length] *)
Definition lengthOf (v : JsVal) : JsVal :=
  match v with
  | JStr s => number (String.length s)
  | JArr items => number (List.length items)
  | JObj fields => Js.lookup "length" fields
  | _ => JUndefined
  end.

(** [v ? v.length : 0] *)
Definition lengthOrZero (v : JsVal) : JsVal :=
  if Js.truthy v then lengthOf v else number 0.

(** [trackSummaryBuilt(sessionId, summary, userId, req)]: reading a
    property of [null] or [undefined] throws before the event is built. *)
Definition trackSummaryBuilt (sessionId : JsVal) (summary : JsVal)
           (userId : option string) (req : option Req) : Task unit :=
  if Js.isNullish summary
  then throw "TypeError: Cannot read properties of null (reading 'content')"
  else
    trackEvent sessionId "summary_built"
      (JObj [ ("contentLength", lengthOrZero (Js.optGet summary "content"));
              ("mechanismCount", lengthOrZero (Js.optGet summary "mechanisms"));
              ("hasNextStep", JBool (Js.truthy (Js.optGet summary "nextStep"))) ])
      userId req.

Definition trackSafeExit (sessionId : JsVal) (reason : string)
           (userId : option string) (req : option Req) : Task unit :=
  trackEvent sessionId "safe_exit" (JObj [("reason", JStr reason)]) userId req.

End AnalyticsService.

(* ===================================================================== *)
(** ** src/services/analysisService.js: the stages and their callers *)
(* ===================================================================== *)

Module Orchestrator.

Import SafetyUtils AnalysisService Tracking AnalyticsService.

(** [s.split(' ')]: the stretches between the separators, at least one. *)
Fixpoint split (sep : ascii) (s : string) : list string :=
  match s with
  | EmptyString => [EmptyString]
  | String c r =>
      if Ascii.eqb c sep then EmptyString :: split sep r
      else match split sep r with
           | w :: ws => String c w :: ws
           | [] => [String c EmptyString]
           end
  end.

(** [object.key = value] on an object. *)
Fixpoint assign (key : string) (value : JsVal) (fields : list (string * JsVal))
  : list (string * JsVal) :=
  match fields with
  | [] => [(key, value)]
  | (k, v) :: r =>
      if String.eqb k key then (key, value) :: r else (k, v) :: assign key value r
  end.

(** [mergeAnswersWithInput(sessionId, answers)]; nothing in its body can
    throw, so the handler of its try/catch is never entered. *)
Definition mergeAnswersWithInput (sessionId : JsVal) (answers : JsVal) : string :=
  match answers with
  | JArr items =>
      let parts :=
        filter (fun part => negb (isEmpty part))
          (map (fun a =>
                  if negb (Js.truthy a) then EmptyString
                  else match a with
                       | JStr text => text
                       | _ => match Js.optGet a "answer" with
                              | JStr text => text
                              | _ => EmptyString
                              end
                       end) items) in
      Json.join " " parts
  | _ => EmptyString
  end.

(** [getDefaultSummary()] *)
Definition getDefaultSummary : JsVal :=
  JObj [ ("content", JStr "Unable to generate summary due to processing error.");
         ("mechanisms", JArr [JStr "Unable to identify mechanisms"]);
         ("nextStep", JStr "Please try again or contact support if the issue persists.") ].

(** The stage values and tags [processStages] returns, with stage
    'completed'. *)
Record StageResult : Type :=
  { narrativeLoop : NarrativeLoop;
    spiessMap : SpiessMap;
    summary : JsVal;
    tags : list string }.

Record Options : Type :=
  { userId : option string; storageOptIn : JsVal; redactNames : JsVal }.

(** A reading of the clock: [Date.now()] and [toISOString()] of it. *)
Record Instant : Type := { millis : Z; iso : string }.

(** The object [analyze] and [processAnswers] return, one constructor
    per shape. *)
Inductive Analysis : Type :=
| CrisisExit (sessionId : JsVal) (response : CrisisResponse)
    (* { success: false, sessionId, response } *)
| Failure (sessionId : JsVal) (code message timestamp : string)
    (* { success: false, sessionId, error: { code, message, timestamp } } *)
| ClarifyingQuestions (sessionId : JsVal) (questions : list JsVal)
    (* { success: true, sessionId, stage: 'clarifying_questions', questions, needsAnswers: true } *)
| Completed (sessionId : JsVal) (result : StageResult) (processingTime : option Z).
    (* { success: true, sessionId, ...result, processingTime } *)

Definition success (a : Analysis) : bool :=
  match a with
  | CrisisExit _ _ | Failure _ _ _ _ => false
  | ClarifyingQuestions _ _ | Completed _ _ _ => true
  end.

Definition sessionOf (a : Analysis) : JsVal :=
  match a with
  | CrisisExit s _ | Failure s _ _ _ | ClarifyingQuestions s _ | Completed s _ _ => s
  end.

(** [x !== false] *)
Definition notFalse (v : JsVal) : bool :=
  match v with JBool false => false | _ => true end.

Section Stages.

Variable sanitizeHtml : string -> string.
Variable JSON_parse : string -> JsVal + string.
Variable openai : Service.

Local Open Scope Q_scope.

(** The request [generateClarifyingQuestions] sends. *)
Definition questionsRequest (input : string) : Request :=
  let prompt := template
    [ "Generate up to 3 clarifying questions to help understand this situation better. ";
      "    Focus on missing: trigger, fear, emotion, or outcome.";
      "    Return as a JSON array of strings, max 3 questions.";
      "    ";
      "    Input: " ++ input ] in
  {| model := "gpt-4"; messages := user prompt; max_tokens := 300; temperature := 3 # 10 |}.

(** [generateClarifyingQuestions(input)] *)
Definition generateClarifyingQuestions (input : string) : Async (list JsVal) :=
  Completion.tryCatch
    (Completion.bind (create openai (questionsRequest input)) (fun raw =>
     Completion.bind (parseWithRetry JSON_parse openai "a JSON array of up to 3 strings" raw)
       (fun parsed =>
          let questions := match parsed with Ok data => data | Failed _ => JArr [] end in
          Completion.ret match questions with
                         | JArr items => firstn 3 items
                         | _ => []
                         end)))
    (fun _ => Completion.ret []).

(** The request [buildSummary] sends. *)
Definition summaryRequest (narrativeLoop spiessMap : JsVal) : Request :=
  let prompt := template
    [ "Create a concise summary under 250 words. Return a JSON object with these exact fields:";
      "    {";
      "      " ++ quoted "content" ++ ": "
        ++ quoted "Summary under 250 words that names key mechanisms and provides insight" ++ ",";
      "      " ++ quoted "mechanisms" ++ ": [" ++ quoted "mechanism1" ++ ", "
        ++ quoted "mechanism2" ++ "] (1-5 key mechanisms, max 100 chars each),";
      "      " ++ quoted "nextStep" ++ ": " ++ quoted "One clear next step (max 200 chars)";
      "    }";
      "    ";
      "    Narrative Loop: " ++ Json.interpolate narrativeLoop;
      "    SPIESS Map: " ++ Json.interpolate spiessMap ] in
  {| model := "gpt-4"; messages := user prompt; max_tokens := 500; temperature := 3 # 10 |}.

(** The check of [summary.content] and its cut to 250 words.  Reading
    [content] of [null] or [undefined] throws, and so does calling
    [split] on a truthy content that is not a string. *)
Definition limitContent (summary : JsVal) : Async JsVal :=
  if Js.isNullish summary
  then Completion.throw "TypeError: Cannot read properties of null (reading 'content')"
  else
    let content := Js.optGet summary "content" in
    if Js.truthy content then
      match content, summary with
      | JStr text, JObj fields =>
          if 250 <? List.length (split " " text)
          then Completion.ret
                 (JObj (assign "content"
                          (JStr (Json.join " " (firstn 250 (split " " text)))) fields))
          else Completion.ret summary
      | _, _ => Completion.throw "TypeError: summary.content.split is not a function"
      end
    else Completion.ret summary.

(** [buildSummary(narrativeLoop, spiessMap)] *)
Definition buildSummary (narrativeLoop spiessMap : JsVal) : Async JsVal :=
  Completion.tryCatch
    (Completion.bind (create openai (summaryRequest narrativeLoop spiessMap)) (fun raw =>
     Completion.bind
       (parseWithRetry JSON_parse openai
          "a JSON object with keys: content (string), mechanisms (array of strings), nextStep (string)"
          raw)
       (fun parsed =>
          let summary := match parsed with Ok data => data | Failed _ => getDefaultSummary end in
          limitContent summary)))
    (fun _ => Completion.ret getDefaultSummary).

Local Open Scope task_scope.

(** [processStages(input, sessionId, options, req)] *)
Definition processStages (input : string) (sessionId : JsVal) (options : Options)
           (req : option Req) : Task StageResult :=
  narrativeLoop <- lift (buildNarrativeLoop JSON_parse openai input) ;;
  _ <- trackLoopBuilt sessionId narrativeLoop (userId options) req ;;
  spiessMap <- lift (buildSpiessMap JSON_parse openai (narrativeLoopObject narrativeLoop)) ;;
  _ <- trackSpiessBuilt sessionId spiessMap (userId options) req ;;
  summary <- lift (buildSummary (narrativeLoopObject narrativeLoop)
                                (spiessMapObject spiessMap)) ;;
  _ <- trackSummaryBuilt sessionId summary (userId options) req ;;
  let tags := detectMechanisms (narrativeLoopObject narrativeLoop)
                               (spiessMapObject spiessMap) in
  ret {| narrativeLoop := narrativeLoop; spiessMap := spiessMap;
         summary := summary; tags := tags |}.

(** [analyze(input, options, req)].  [uuid] is what [uuidv4()] yields,
    [startTime] the first reading of the clock and [later] the second
    one, of which every path makes at most one: the time stamp of the
    crisis response, that of an error, or the end of processing. *)
Definition analyze (uuid : string) (startTime : Z) (later : Instant)
           (input : JsVal) (options : Options) (req : option Req) : Task Analysis :=
  let sessionId := JStr uuid in
  tryCatch
    (_ <- trackSessionStarted sessionId (userId options) req ;;
     let validation :=
       validateInput sanitizeHtml (iso later) input
         (Js.truthy (Js.or (storageOptIn options) (JBool false)))
         (notFalse (redactNames options)) in
     match validation with
     | Crisis response =>
         _ <- trackSafeExit sessionId "crisis_detected" (userId options) req ;;
         ret (CrisisExit sessionId response)
     | Rejected error =>
         _ <- trackSafeExit sessionId "invalid_input" (userId options) req ;;
         ret (Failure sessionId "VALIDATION_ERROR" error (iso later))
     | Accepted processedInput _ _ =>
         _ <- trackInputReceived sessionId (String.length processedInput)
                (userId options) req ;;
         needsQuestions <- lift (needsClarifyingQuestions openai processedInput) ;;
         if needsQuestions : bool then
           questions <- lift (generateClarifyingQuestions processedInput) ;;
           _ <- trackQuestionsAsked sessionId questions (userId options) req ;;
           ret (ClarifyingQuestions sessionId questions)
         else
           result <- processStages processedInput sessionId options req ;;
           ret (Completed sessionId result (Some (millis later - startTime)%Z))
     end)
    (fun _ =>
       _ <- trackSafeExit sessionId "processing_error" (userId options) req ;;
       ret (Failure sessionId "AI_PROCESSING_ERROR"
              "Analysis failed due to processing error" (iso later))).

(** [processAnswers(sessionId, answers, options, req)]; [now] is the
    reading of the clock in its handler. *)
Definition processAnswers (now : Instant) (sessionId : JsVal) (answers : JsVal)
           (options : Options) (req : option Req) : Task Analysis :=
  tryCatch
    (let mergedInput := mergeAnswersWithInput sessionId answers in
     result <- processStages mergedInput sessionId options req ;;
     ret (Completed sessionId result None))
    (fun _ =>
       ret (Failure sessionId "AI_PROCESSING_ERROR" "Answer processing failed" (iso now))).

End Stages.

End Orchestrator.

(* ===================================================================== *)
(** ** The chat controller (src/schemas/session.js from line 64 on):
       the handlers of /analyze and /answers *)
(* ===================================================================== *)

(** The fields of a document of src/models/session.js that the handlers
    set. *)
Module Session.

Record Doc : Type :=
  { sessionId : JsVal;
    userId : option string;
    status : string;
    input : string;
    clarifyingQuestions : list JsVal;
    narrativeLoop : JsVal;
    spiessMap : JsVal;
    summary : JsVal;
    tags : list string;
    storageOptIn : JsVal;
    redactNames : JsVal }.

End Session.

(** A document of src/models/message.js. *)
Module Message.

Record Doc : Type := { sessionId : JsVal; sender : string; message : string }.

End Message.

(** What the handlers read of [req.body].  A field that is not there
    reads as [undefined]; the user of /analyze is a text when it is
    there. *)
Module Body.

Record Analyze : Type :=
  { input : JsVal; storageOptIn : JsVal; redactNames : JsVal; user : option string }.

Record Answers : Type := { sessionId : JsVal; answers : JsVal }.

End Body.

Module ChatController.

Import SafetyUtils AnalysisService Tracking AnalyticsService Orchestrator.

(** A write handed to the database: [session.save()] or
    [Message.create(doc)]. *)
Inductive Write : Type :=
| SaveSession (doc : Session.Doc)
| CreateMessage (doc : Message.Doc).

(** What goes to [res.json]. *)
Inductive Payload : Type :=
| ErrorBody (code message timestamp : string)
    (* { success: false, error: { code, message, timestamp } } *)
| Answer (analysis : Analysis).

(** [res.status(status).json(payload)]; [res.json(payload)] is status 200. *)
Record Response : Type := { status : nat; payload : Payload }.

Definition refuse (status : nat) (code message timestamp : string) : Response :=
  {| status := status; payload := ErrorBody code message timestamp |}.

(** The own property [key] is there. *)
Definition hasOwn (key : string) (fields : list (string * JsVal)) : bool :=
  existsb (fun kv => String.eqb (fst kv) key) fields.

(** All the texts, or [None] when one is missing. *)
Fixpoint allTexts (l : list (option string)) : option (list string) :=
  match l with
  | [] => Some []
  | Some s :: r => option_map (cons s) (allTexts r)
  | None :: _ => None
  end.

(** [`${v}`], the conversion of a value to a text; [None] is the
    TypeError it throws.  An object has the text of
    [Object.prototype.toString] unless it has a [toString] of its own,
    which in a value read from JSON is never a function: then the
    conversion throws, whatever its [valueOf] is.  An array is joined
    with commas, [null] and [undefined] entries being empty. *)
Fixpoint toText (v : JsVal) : option string :=
  match v with
  | JUndefined => Some "undefined"
  | JNull => Some "null"
  | JBool b => Some (if b then "true" else "false")
  | JNum z => Some (Json.numberToString z)
  | JStr s => Some s
  | JArr items =>
      option_map (Json.join ",")
        (allTexts (map (fun x => match x with
                                 | JUndefined | JNull => Some EmptyString
                                 | _ => toText x
                                 end) items))
  | JObj fields => if hasOwn "toString" fields then None else Some "[object Object]"
  end.

(** [items.map((x, i) => `${prefix}${i + 1}: ${x}`)], from index [i] on;
    [None] when a conversion throws. *)
Fixpoint numbered (prefix : string) (i : nat) (items : list JsVal) : option (list string) :=
  match items with
  | [] => Some []
  | x :: r =>
      match toText x with
      | Some text =>
          option_map (cons (prefix ++ Json.numberToString (Z.of_nat (i + 1)) ++ ": " ++ text))
                     (numbered prefix (S i) r)
      | None => None
      end
  end.

Definition questionsOf (a : Analysis) : option (list JsVal) :=
  match a with ClarifyingQuestions _ questions => Some questions | _ => None end.

Definition narrativeLoopOf (a : Analysis) : JsVal :=
  match a with
  | Completed _ result _ => narrativeLoopObject (Orchestrator.narrativeLoop result)
  | _ => JUndefined
  end.

Definition spiessMapOf (a : Analysis) : JsVal :=
  match a with
  | Completed _ result _ => spiessMapObject (Orchestrator.spiessMap result)
  | _ => JUndefined
  end.

Definition summaryOf (a : Analysis) : JsVal :=
  match a with
  | Completed _ result _ => Orchestrator.summary result
  | _ => JUndefined
  end.

(** [result.tags || []] *)
Definition tagsOf (a : Analysis) : list string :=
  match a with
  | Completed _ result _ => Orchestrator.tags result
  | _ => []
  end.

Section Handlers.

Variable sanitizeHtml : string -> string.
Variable JSON_parse : string -> JsVal + string.
Variable openai : Service.

(** The database: whether a write succeeds, given the writes attempted
    before it, and what [Session.findOne({ sessionId })] yields. *)
Variable accepts : list Write -> Write -> bool.
Variable findOne : list Write -> JsVal -> Result (option Session.Doc).

(** [mongoose.Types.ObjectId.isValid] *)
Variable isValidObjectId : JsVal -> bool.

(** One write: it is attempted, and succeeds or throws. *)
Definition write (wr : Write) (log : list Write) : bool * list Write :=
  (accepts log wr, (log ++ [wr])%list).

(** [await Message.create(d1); await Message.create(d2); ...] inside one
    try block: the first failure ends it. *)
Fixpoint createAll (docs : list Message.Doc) (log : list Write) : list Write :=
  match docs with
  | [] => log
  | doc :: rest =>
      let (done, log') := write (CreateMessage doc) log in
      if done then createAll rest log' else log'
  end.

(** [analyze(req, res)].  [clock] is the reading of the clock of the
    handler itself; [uuid], [startTime] and [later] are those of
    [analysisService.analyze]. *)
Definition analyze (clock uuid : string) (startTime : Z) (later : Instant)
           (body : option Body.Analyze) (req : option Req)
           (w : World) (log : list Write) : Response * World * list Write :=
  match body with
  | None =>
      (refuse 500 "INTERNAL_SERVER_ERROR" "Analysis failed due to server error" clock, w, log)
  | Some body =>
      let storageOptIn :=
        match Body.storageOptIn body with JUndefined => JBool false | v => v end in
      let redactNames :=
        match Body.redactNames body with JUndefined => JBool true | v => v end in
      let userId :=
        match Body.user body with
        | Some user => if isEmpty user then None else Some user
        | None => None
        end in
      match Body.input body with
      | JStr input =>
          if isEmpty input
          then (refuse 400 "VALIDATION_ERROR" "Input is required and must be a string" clock,
                w, log)
          else
            match Orchestrator.analyze sanitizeHtml JSON_parse openai uuid startTime
                    later (JStr input)
                    {| Orchestrator.userId := userId;
                       Orchestrator.storageOptIn := storageOptIn;
                       Orchestrator.redactNames := redactNames |} req w with
            | (Throw _, w') =>
                (refuse 500 "INTERNAL_SERVER_ERROR" "Analysis failed due to server error"
                   clock, w', log)
            | (Return result, w') =>
                if negb (success result)
                then ({| status := 400; payload := Answer result |}, w', log)
                else
                  let log :=
                    if Js.truthy storageOptIn
                    then snd (write
                                (SaveSession
                                   {| Session.sessionId := sessionOf result;
                                      Session.userId := userId;
                                      Session.status := "active";
                                      Session.input := input;
                                      Session.clarifyingQuestions :=
                                        match questionsOf result with
                                        | Some questions => questions
                                        | None => []
                                        end;
                                      Session.narrativeLoop := narrativeLoopOf result;
                                      Session.spiessMap := spiessMapOf result;
                                      Session.summary := summaryOf result;
                                      Session.tags := tagsOf result;
                                      Session.storageOptIn := storageOptIn;
                                      Session.redactNames := redactNames |}) log)
                    else log in
                  let questions :=
                    match questionsOf result with
                    | Some questions => questions
                    | None => []
                    end in
                  let log :=
                    createAll
                      ({| Message.sessionId := sessionOf result;
                          Message.sender := "human";
                          Message.message := input |}
                       :: if 0 <? List.length questions
                          then match numbered "Q" 0 questions with
                               | Some lines =>
                                   [ {| Message.sessionId := sessionOf result;
                                        Message.sender := "openai";
                                        Message.message := Json.join newline lines |} ]
                               | None => []   (* the conversion throws: the try block ends *)
                               end
                          else []) log in
                  ({| status := 200; payload := Answer result |}, w', log)
            end
      | _ =>
          (refuse 400 "VALIDATION_ERROR" "Input is required and must be a string" clock,
           w, log)
      end
  end.

(** [processAnswers(req, res)].  [user] is [req.user._id] when there is
    a [req.user]; [clock] is the reading of the clock of the handler
    itself, [now] that of [analysisService.processAnswers]. *)
Definition processAnswers (clock : string) (now : Instant) (user : option string)
           (body : option Body.Answers) (req : option Req)
           (w : World) (log : list Write) : Response * World * list Write :=
  match body with
  | None =>
      (refuse 500 "INTERNAL_SERVER_ERROR" "Answer processing failed due to server error"
         clock, w, log)
  | Some body =>
      let sessionId := Body.sessionId body in
      match Body.answers body with
      | JArr answers =>
          if negb (Js.truthy sessionId) || negb (isValidObjectId sessionId)
          then (refuse 400 "VALIDATION_ERROR"
                  "Valid MongoDB Session ID and answers array are required" clock, w, log)
          else
            match Orchestrator.processAnswers JSON_parse openai now sessionId (JArr answers)
                    {| Orchestrator.userId := user;
                       Orchestrator.storageOptIn := JUndefined;
                       Orchestrator.redactNames := JUndefined |} req w with
            | (Throw _, w') =>
                (refuse 500 "INTERNAL_SERVER_ERROR"
                   "Answer processing failed due to server error" clock, w', log)
            | (Return result, w') =>
                if negb (success result)
                then ({| status := 400; payload := Answer result |}, w', log)
                else
                  let log :=
                    match findOne log sessionId with
                    | Return (Some session) =>
                        snd (write
                               (SaveSession
                                  {| Session.sessionId := Session.sessionId session;
                                     Session.userId := Session.userId session;
                                     Session.status := "completed";
                                     Session.input := Session.input session;
                                     Session.clarifyingQuestions :=
                                       Session.clarifyingQuestions session;
                                     Session.narrativeLoop := narrativeLoopOf result;
                                     Session.spiessMap := spiessMapOf result;
                                     Session.summary := summaryOf result;
                                     Session.tags := tagsOf result;
                                     Session.storageOptIn := Session.storageOptIn session;
                                     Session.redactNames := Session.redactNames session |})
                               log)
                    | _ => log
                    end in
                  let log :=
                    match numbered "A" 0 answers with
                    | Some lines =>
                        createAll
                          [ {| Message.sessionId := sessionId;
                               Message.sender := "human";
                               Message.message := Json.join newline lines |};
                            {| Message.sessionId := sessionId;
                               Message.sender := "openai";
                               Message.message :=
                                 Json.interpolate
                                   (JObj [ ("narrativeLoop", narrativeLoopOf result);
                                           ("spiessMap", spiessMapOf result);
                                           ("summary", summaryOf result) ]) |} ] log
                    | None => log   (* the conversion throws before the first create *)
                    end in
                  ({| status := 200; payload := Answer result |}, w', log)
            end
      | _ =>
          (refuse 400 "VALIDATION_ERROR"
             "Valid MongoDB Session ID and answers array are required" clock, w, log)
      end
  end.

End Handlers.

End ChatController.

(* ===================================================================== *)
(** ** Vocabulary of the specification *)
(* ===================================================================== *)

Import SafetyUtils AnalysisService.

(** [kw] occurs in [input] when case is ignored: some stretch of [input]
    and [kw] have the same lower-case form. *)
Definition occursIgnoringCase (kw input : string) : Prop :=
  exists pre mid post,
    input = pre ++ mid ++ post /\ toLowerCase mid = toLowerCase kw.

(** The keywords of [crisisKeywords] that name no self-harm. *)
Definition broadKeywords : list string :=
  [ "help me"; "crisis"; "hopeless"; "burden"; "no point"; "give up" ].

(** A result with the time stamp of its crisis response set to [t]. *)
Definition stamped (t : string) (r : ValidationResult) : ValidationResult :=
  match r with
  | Crisis c =>
      Crisis {| code := code c; message := message c;
                resources := resources c; timestamp := t |}
  | _ => r
  end.

(** The four substitutions [redactPII] always makes, in its order. *)
Definition redactContacts (text : string) : string :=
  replace (creditCard piiPatterns) "[CARD_REDACTED]"
    (replace (ssn piiPatterns) "[SSN_REDACTED]"
       (replace (phone piiPatterns) "[PHONE_REDACTED]"
          (replace (email piiPatterns) "[EMAIL_REDACTED]" text))).

Definition redactNamesIn (text : string) : string :=
  replace (name piiPatterns) "[NAME_REDACTED]" text.

(** Whether the pattern of [re] matches somewhere in [s]. *)
Definition occursIn (re : RegExp) (s : string) : bool :=
  match search re None 0 s with Some _ => true | None => false end.

(** The entries of a [needs] value that, trimmed, are terms of the
    allow-list, in their order. *)
Definition validNeeds (arr : JsVal) : list string :=
  match arr with
  | JArr items =>
      filter (fun s => existsb (String.eqb s) needsEnum) (map Repair.trimmed items)
  | _ => []
  end.

(** The tags [detectMechanisms] can push, in the order of its tests. *)
Definition mechanismTags : list string :=
  [ "confirmation_bias"; "fear_of_rejection"; "autonomy_threat"; "perfectionism";
    "people_pleasing"; "boundary_signaling"; "attention_testing";
    "vulnerability_avoidance" ].

Fixpoint noDuplicates (l : list string) : bool :=
  match l with
  | [] => true
  | x :: r => negb (existsb (String.eqb x) r) && noDuplicates r
  end.

Definition subsetOf (l m : list string) : bool :=
  forallb (fun x => existsb (String.eqb x) m) l.

(** What follows [opening] when [s] begins with it, the case of letters
    ignored. *)
Fixpoint afterPrefix (opening s : string) : option string :=
  match opening with
  | EmptyString => Some s
  | String a opening' =>
      match s with
      | String b s' =>
          if Ascii.eqb (toLowerChar a) (toLowerChar b) then afterPrefix opening' s' else None
      | EmptyString => None
      end
  end.

(** What follows the first place where [s] continues with [opening]. *)
Fixpoint afterFirst (opening s : string) : option string :=
  match afterPrefix opening s with
  | Some rest => Some rest
  | None =>
      match s with
      | EmptyString => None
      | String _ r => afterFirst opening r
      end
  end.

(** What precedes the first occurrence of [closing] in [s]. *)
Fixpoint beforeFirst (closing s : string) : option string :=
  if String.prefix closing s then Some EmptyString
  else match s with
       | EmptyString => None
       | String c r => option_map (String c) (beforeFirst closing r)
       end.

(** The text between the first fence that opens with [label] and the
    next fence after it, without the white space around it. *)
Definition fencedText (label text : string) : option string :=
  match afterFirst ("```" ++ label) text with
  | Some rest => option_map trim (beforeFirst "```" rest)
  | None => None
  end.

(** The body of a fenced block: that of the first block labeled json
    when there is one, else that of the first block; an empty body
    counts as no block. *)
Definition fencedBlock (text : string) : option string :=
  match (match fencedText "json" text with
         | Some body => Some body
         | None => fencedText EmptyString text
         end) with
  | Some body => if isEmpty body then None else Some body
  | None => None
  end.

(** The texts [safeJsonParse] turns to after the whole text: the body
    of a fenced block, then the brace region. *)
Definition fallbacks (text : string) : list string :=
  (match fencedBody text with Some body => [body] | None => [] end ++
   match braceBody text with Some body => [body] | None => [] end)%list.

(** The first candidate that parses, tried in order. *)
Fixpoint firstSuccess (parse : string -> JsVal + string) (candidates : list string)
  : option JsVal :=
  match candidates with
  | [] => None
  | c :: r =>
      match parse c with
      | inl data => Some data
      | inr _ => firstSuccess parse r
      end
  end.

Definition braceStep (c : ascii) : Z :=
  if Ascii.eqb c "{" then 1%Z else if Ascii.eqb c "}" then (-1)%Z else 0%Z.

(** Opening minus closing braces of a text. *)
Fixpoint depthOf (s : string) : Z :=
  match s with
  | EmptyString => 0%Z
  | String c r => (braceStep c + depthOf r)%Z
  end.

(** Starting at nesting [d], the code unit at index [k] is a closing
    brace that brings the nesting back to zero. *)
Definition closesFrom (d : Z) (s : string) (k : nat) : Prop :=
  String.get k s = Some "}"%char /\
  (d + depthOf (String.substring 0 (S k) s) = 0)%Z.

Definition nonEmpty (s : string) : bool := negb (isEmpty s).

(** A list with at least one entry and no empty entry. *)
Definition filled (l : list string) : bool :=
  (1 <=? List.length l) && forallb nonEmpty l.

(** Every field of a NarrativeLoop is there and holds something. *)
Definition presentNarrativeLoop (nl : NarrativeLoop) : bool :=
  nonEmpty (trigger nl) && nonEmpty (fear nl) && nonEmpty (emotion nl) &&
  nonEmpty (outcome nl) && nonEmpty (whyItFeelsReal nl) && nonEmpty (hiddenLogic nl) &&
  filled (breakingActions nl) && filled (mechanisms nl).

(** Every field of a SpiessMap is there and holds something, the counts
    are within bounds, and the enumerated fields hold allowed values. *)
Definition presentSpiessMap (sp : SpiessMap) : bool :=
  filled (sensations sp) && (List.length (sensations sp) <=? 5) &&
  filled (emotions sp) && (List.length (emotions sp) <=? 5) &&
  joiArray (joiValid needsEnum) 1 3 (needs sp) &&
  nonEmpty (confirmationBias sp) &&
  nonEmpty (description (microTest sp)) &&
  nonEmpty (timeframe (microTest sp)) &&
  nonEmpty (successCriteria (microTest sp)) &&
  joiValid protocols (protocol (toolAction sp)) &&
  filled (steps (toolAction sp)) && (List.length (steps (toolAction sp)) <=? 5) &&
  nonEmpty (example (toolAction sp)).

(** The trimmed text of a field stays within [max] code units. *)
Definition withinLength (max : nat) (v : JsVal) : bool :=
  String.length (Repair.trimmed v) <=? max.

Definition itemsWithin (max : nat) (v : JsVal) : bool :=
  match v with
  | JArr items => forallb (withinLength max) items
  | _ => true
  end.

(** An array holds at most [max] entries that are not blank. *)
Definition countWithin (max : nat) (v : JsVal) : bool :=
  match v with
  | JArr items => List.length (Repair.cleaned items) <=? max
  | _ => true
  end.

Definition narrativeLoopLengthsWithin (v : JsVal) : bool :=
  withinLength 1000 (Js.optGet v "trigger") &&
  withinLength 1000 (Js.optGet v "fear") &&
  withinLength 1000 (Js.optGet v "emotion") &&
  withinLength 1000 (Js.optGet v "outcome") &&
  withinLength 1000 (Js.optGet v "whyItFeelsReal") &&
  withinLength 1000 (Js.optGet v "hiddenLogic") &&
  itemsWithin 500 (Js.optGet v "breakingActions") &&
  itemsWithin 200 (Js.optGet v "mechanisms").

Definition narrativeLoopCountsWithin (v : JsVal) : bool :=
  countWithin 5 (Js.optGet v "breakingActions") &&
  countWithin 10 (Js.optGet v "mechanisms").

Definition spiessMapLengthsWithin (v : JsVal) : bool :=
  itemsWithin 200 (Js.optGet v "sensations") &&
  itemsWithin 200 (Js.optGet v "emotions") &&
  withinLength 1000 (Js.optGet v "confirmationBias") &&
  withinLength 500 (Js.optGet (Js.optGet v "microTest") "description") &&
  withinLength 100 (Js.optGet (Js.optGet v "microTest") "timeframe") &&
  withinLength 300 (Js.optGet (Js.optGet v "microTest") "successCriteria") &&
  itemsWithin 300 (Js.optGet (Js.optGet v "toolAction") "steps") &&
  withinLength 500 (Js.optGet (Js.optGet v "toolAction") "example").


(** A pattern whose matches do not depend on what surrounds them: no
    quantifier and no word boundary. *)
Fixpoint contextFree (p : Pattern) : bool :=
  match p with
  | PEmpty | PChar _ | PClass _ _ => true
  | PSeq a b | PAlt a b => contextFree a && contextFree b
  | PGroup _ a => contextFree a
  | PRepeat _ _ _ _ | PWordBoundary => false
  end.

Definition startsWithSpace (s : string) : bool :=
  match s with
  | String c _ => isWhiteSpace c
  | EmptyString => false
  end.

(** A text that [trim] leaves as it is. *)
Definition trimmedText (s : string) : bool := String.eqb (trim s) s.

(** A list of trimmed texts, none of them empty. *)
Definition cleanList (l : list string) : bool :=
  forallb (fun s => trimmedText s && nonEmpty s) l.

(** A NarrativeLoop as normalization leaves it: strings trimmed, arrays
    of trimmed non-empty strings. *)
Definition cleanNarrativeLoop (nl : NarrativeLoop) : bool :=
  trimmedText (trigger nl) && trimmedText (fear nl) && trimmedText (emotion nl) &&
  trimmedText (outcome nl) && trimmedText (whyItFeelsReal nl) &&
  trimmedText (hiddenLogic nl) &&
  cleanList (breakingActions nl) && cleanList (mechanisms nl).

Definition cleanSpiessMap (sp : SpiessMap) : bool :=
  cleanList (sensations sp) && cleanList (emotions sp) && cleanList (needs sp) &&
  trimmedText (confirmationBias sp) &&
  trimmedText (description (microTest sp)) &&
  trimmedText (timeframe (microTest sp)) &&
  trimmedText (successCriteria (microTest sp)) &&
  trimmedText (protocol (toolAction sp)) &&
  cleanList (steps (toolAction sp)) &&
  trimmedText (example (toolAction sp)).

(** The request [retryJsonFix] sends. *)
Definition retryRequest (instruction : string) (rawContent : option string) : Request :=
  {| model := "gpt-4";
     messages :=
       [ ("system", "You are a strict JSON reformatter. Output ONLY valid JSON. No prose, no backticks.");
         ("user", "Convert the following into valid JSON that matches: " ++ instruction
                  ++ newline ++ newline ++ "Content to fix:" ++ newline ++ show rawContent) ];
     max_tokens := 2000;
     temperature := 0 |}.

(** The events recorded from [w] to [w']: their names in order, all of
    them under [sessionId]. *)
Definition recorded (sessionId : JsVal) (names : list string)
           (w w' : Tracking.World) : Prop :=
  exists new,
    Tracking.events w' = (Tracking.events w ++ new)%list /\
    map Tracking.eventName new = names /\
    Forall (fun e => Tracking.sessionId e = sessionId) new.

(** The requests made from [w] to [w']: between [lo] and [hi] of them. *)
Definition requested (lo hi : nat) (w w' : Tracking.World) : Prop :=
  exists new,
    Tracking.requests w' = (Tracking.requests w ++ new)%list /\
    lo <= List.length new <= hi.

(** A request of one user message that ends with [text]. *)
Definition carries (req : Request) (text : string) : Prop :=
  exists pre, messages req = user (pre ++ text).

Definition isText (v : JsVal) : bool :=
  match v with JStr _ => true | _ => false end.




(** The answers, each as a text or as an object with an [answer]. *)
Definition answerTexts (l : list string) : JsVal := JArr (map JStr l).

Definition answerObjects (l : list string) : JsVal :=
  JArr (map (fun s => JObj [("answer", JStr s)]) l).

(** A text in which the code unit [sep] does not occur. *)
Definition lacks (sep : ascii) (w : string) : Prop :=
  forall c, In c (list_ascii_of_string w) -> c <> sep.

(** The requests a stage adds: its own request [req] alone, or [req]
    and the request of [retryJsonFix] for a reply that did not parse. *)
Definition oneOrTwo (JSON_parse : string -> JsVal + string) (openai : Service)
           (req : Request) (h h' : list Request) : Prop :=
  h' = (h ++ [req])%list \/
  exists instruction raw,
    openai h req = Content raw /\
    ok (safeJsonParseContent JSON_parse raw) = false /\
    h' = (h ++ [req; retryRequest instruction raw])%list.

(* ===================================================================== *)
(** * Properties *)
(* ===================================================================== *)

(** ** Strings *)

Section StringFacts.

Lemma toLowerCase_app (a b : string) :
  toLowerCase (a ++ b) = toLowerCase a ++ toLowerCase b.
Proof.
  induction a as [|c a IH]; simpl; [reflexivity | now rewrite IH].
Qed.

Lemma prefix_app (t rest : string) : String.prefix t (t ++ rest) = true.
Proof.
  induction t as [|c t IH]; simpl.
  - now destruct rest.
  - destruct (ascii_dec c c) as [_|ne]; [exact IH | now elim ne].
Qed.

Lemma includes_prefix (s t : string) :
  String.prefix t s = true -> includes s t = true.
Proof. intros H. destruct s; cbn [includes]; now rewrite H. Qed.

Lemma includes_app (pre mid post : string) :
  includes (pre ++ mid ++ post) mid = true.
Proof.
  induction pre as [|c pre IH]; simpl.
  - apply includes_prefix, prefix_app.
  - rewrite IH. apply orb_true_r.
Qed.

Lemma isEmpty_length (s : string) : isEmpty s = (String.length s =? 0).
Proof. now destruct s. Qed.

Lemma app_empty (a b : string) : a ++ b = EmptyString -> a = EmptyString /\ b = EmptyString.
Proof. destruct a; simpl; [auto | discriminate]. Qed.

Lemma toLowerCase_empty (s : string) : toLowerCase s = EmptyString -> s = EmptyString.
Proof. destruct s; simpl; [auto | discriminate]. Qed.

End StringFacts.

Lemma occurs_includes (kw input : string) :
  occursIgnoringCase kw input ->
  includes (toLowerCase input) (toLowerCase kw) = true.
Proof.
  intros (pre & mid & post & -> & <-).
  rewrite !toLowerCase_app. apply includes_app.
Qed.

(** ** The safety gate *)

Section GateFacts.

Variable sanitizeHtml : string -> string.
Variable now : string.

Lemma keyword_not_empty (kw : string) :
  In kw crisisKeywords -> toLowerCase kw <> EmptyString.
Proof.
  unfold crisisKeywords. simpl.
  intros H. repeat (destruct H as [<- | H]; [discriminate|]). contradiction.
Qed.

Lemma keyword_detected (kw input : string) :
  In kw crisisKeywords -> occursIgnoringCase kw input -> detectCrisis input = true.
Proof.
  intros Hin Hocc. unfold detectCrisis.
  destruct (isEmpty input) eqn:E.
  - destruct input; [|discriminate].
    destruct Hocc as (pre & mid & post & Heq & Hlow).
    symmetry in Heq. apply app_empty in Heq as [_ Heq].
    apply app_empty in Heq as [-> _].
    symmetry in Hlow. now apply keyword_not_empty in Hlow.
  - apply orb_true_iff. left. apply existsb_exists.
    exists kw. split; [exact Hin | now apply occurs_includes].
Qed.

Lemma crisisPatterns_need_text :
  forallb (fun p => negb (test p EmptyString)) crisisPatterns = true.
Proof. vm_compute. reflexivity. Qed.

Lemma injectionPatterns_need_text :
  forallb (fun p => negb (test p EmptyString)) promptInjectionPatterns = true.
Proof. vm_compute. reflexivity. Qed.

Lemma pattern_detected (p : RegExp) (input : string) :
  In p crisisPatterns -> test p input = true -> detectCrisis input = true.
Proof.
  intros Hin Ht. unfold detectCrisis.
  destruct (isEmpty input) eqn:E.
  - destruct input; [|discriminate].
    pose proof crisisPatterns_need_text as H.
    rewrite forallb_forall in H. specialize (H p Hin).
    rewrite Ht in H. discriminate.
  - apply orb_true_iff. right. apply existsb_exists. now exists p.
Qed.

Lemma detectCrisis_not_empty (input : string) :
  detectCrisis input = true -> isEmpty input = false.
Proof. unfold detectCrisis. now destruct (isEmpty input). Qed.

(** The crisis check is the first one made on a non-empty string. *)
Lemma crisis_exit (input : string) (storageOptIn redactNames : bool) :
  detectCrisis input = true ->
  validateInput sanitizeHtml now (JStr input) storageOptIn redactNames = Crisis (getCrisisResponse now).
Proof.
  intros H. unfold validateInput.
  now rewrite (detectCrisis_not_empty _ H), H.
Qed.

Lemma injection_exit (input : string) (storageOptIn redactNames : bool) :
  detectCrisis input = false ->
  detectPromptInjection input = true ->
  validateInput sanitizeHtml now (JStr input) storageOptIn redactNames = Rejected "Invalid input detected".
Proof.
  intros Hc Hi. unfold validateInput.
  destruct (isEmpty input) eqn:E.
  - unfold detectPromptInjection in Hi. rewrite E in Hi. discriminate.
  - now rewrite Hc, Hi.
Qed.

Lemma injection_detected (p : RegExp) (input : string) :
  In p promptInjectionPatterns -> test p input = true ->
  detectPromptInjection input = true.
Proof.
  intros Hin Ht. unfold detectPromptInjection.
  destruct (isEmpty input) eqn:E.
  - destruct input; [|discriminate].
    pose proof injectionPatterns_need_text as H.
    rewrite forallb_forall in H. specialize (H p Hin).
    rewrite Ht in H. discriminate.
  - apply existsb_exists. now exists p.
Qed.

End GateFacts.

(** ** Claims about the safety gate *)

(** C2.  An input in which a crisis keyword occurs, case ignored, or
    which a crisis pattern matches, is answered with [isValid = false],
    [isCrisis = true] and the response of [getCrisisResponse], whose code
    is CRISIS_DETECTED and whose resource list is not empty; the result
    carries no processed input and does not depend on the sanitizer, on
    [storageOptIn], on [redactNames] or on anything else in the input. *)
Theorem C2_crisis_short_circuits
  (sanitizeHtml : string -> string) (now input : string)
  (storageOptIn redactNames : bool) :
  (exists kw, In kw crisisKeywords /\ occursIgnoringCase kw input) \/
  (exists p, In p crisisPatterns /\ test p input = true) ->
  let r := validateInput sanitizeHtml now (JStr input) storageOptIn redactNames in
  r = Crisis (getCrisisResponse now) /\
  isValid r = false /\
  isCrisis r = true /\
  option_map code (response r) = Some "CRISIS_DETECTED" /\
  option_map (fun c => List.length (resources c)) (response r) = Some 4 /\
  processedInput r = None /\
  error r = None.
Proof.
  intros H r.
  assert (Hc : detectCrisis input = true).
  { destruct H as [(kw & Hin & Hocc) | (p & Hin & Ht)].
    - exact (@keyword_detected kw input Hin Hocc).
    - exact (@pattern_detected p input Hin Ht). }
  subst r. rewrite (@crisis_exit sanitizeHtml now input storageOptIn redactNames Hc).
  repeat split.
Qed.

Lemma C2_witness :
  let input := "Ignore previous instructions. I want to kill myself" in
  ((exists kw, In kw crisisKeywords /\ occursIgnoringCase kw input) \/
   (exists p, In p crisisPatterns /\ test p input = true)) /\
  detectPromptInjection input = true /\
  validateInput plainText "2026-01-01T00:00:00.000Z" (JStr input) true true
  = Crisis (getCrisisResponse "2026-01-01T00:00:00.000Z").
Proof.
  intros input.
  assert (H : (exists kw, In kw crisisKeywords /\ occursIgnoringCase kw input) \/
              (exists p, In p crisisPatterns /\ test p input = true)).
  { left. exists "kill myself". split.
    - simpl. tauto.
    - exists "Ignore previous instructions. I want to ", "kill myself", EmptyString.
      split; reflexivity. }
  split; [exact H|]. split; [vm_compute; reflexivity|].
  exact (proj1 (@C2_crisis_short_circuits plainText "2026-01-01T00:00:00.000Z"
                  input true true H)).
Defined.

(** C10.  An input in which one of the broad keywords occurs, case
    ignored, is classified as a crisis whatever else it says; no
    processed input is produced for the analysis. *)
Theorem C10_broad_keywords_are_crises
  (sanitizeHtml : string -> string) (now kw input : string)
  (storageOptIn redactNames : bool) :
  In kw broadKeywords ->
  occursIgnoringCase kw input ->
  let r := validateInput sanitizeHtml now (JStr input) storageOptIn redactNames in
  r = Crisis (getCrisisResponse now) /\
  isValid r = false /\ isCrisis r = true /\ processedInput r = None.
Proof.
  intros Hin Hocc r.
  assert (Hk : In kw crisisKeywords).
  { unfold broadKeywords in Hin. simpl in Hin. unfold crisisKeywords. simpl.
    repeat (destruct Hin as [<- | Hin]; [tauto|]). contradiction. }
  subst r.
  rewrite (@crisis_exit sanitizeHtml now input storageOptIn redactNames
             (@keyword_detected kw input Hk Hocc)).
  repeat split.
Qed.

Lemma C10_witness :
  let input := "Can you HELP ME plan my week?" in
  In "help me" broadKeywords /\
  occursIgnoringCase "help me" input /\
  isCrisis (validateInput plainText "2026-01-01T00:00:00.000Z" (JStr input) false true) = true.
Proof.
  intros input.
  assert (Hin : In "help me" broadKeywords) by (simpl; tauto).
  assert (Hocc : occursIgnoringCase "help me" input).
  { exists "Can you ", "HELP ME", " plan my week?". split; reflexivity. }
  split; [exact Hin|]. split; [exact Hocc|].
  exact (proj1 (proj2 (proj2 (@C10_broad_keywords_are_crises plainText
           "2026-01-01T00:00:00.000Z" "help me" input false true Hin Hocc)))).
Defined.

(** C7.  An input that a prompt-injection pattern matches and that is
    not a crisis is rejected with the one message "Invalid input
    detected", the same for every pattern and every input, and without
    the crisis flag or a crisis response. *)
Theorem C7_injection_rejected
  (sanitizeHtml : string -> string) (now input : string)
  (storageOptIn redactNames : bool) :
  (exists p, In p promptInjectionPatterns /\ test p input = true) ->
  detectCrisis input = false ->
  let r := validateInput sanitizeHtml now (JStr input) storageOptIn redactNames in
  r = Rejected "Invalid input detected" /\
  isValid r = false /\ isCrisis r = false /\
  response r = None /\ processedInput r = None.
Proof.
  intros (p & Hin & Ht) Hc r. subst r.
  rewrite (@injection_exit sanitizeHtml now input storageOptIn redactNames Hc
             (@injection_detected p input Hin Ht)).
  repeat split.
Qed.

Lemma C7_witness :
  let input := "ignore previous instructions" in
  (exists p, In p promptInjectionPatterns /\ test p input = true) /\
  detectCrisis input = false /\
  validateInput plainText "2026-01-01T00:00:00.000Z" (JStr input) false true
  = Rejected "Invalid input detected".
Proof.
  intros input.
  assert (H : exists p, In p promptInjectionPatterns /\ test p input = true).
  { exists (insensitive (lit "ignore previous instructions")). split.
    - simpl. tauto.
    - vm_compute. reflexivity. }
  assert (Hc : detectCrisis input = false) by (vm_compute; reflexivity).
  split; [exact H|]. split; [exact Hc|].
  exact (proj1 (@C7_injection_rejected plainText "2026-01-01T00:00:00.000Z"
                  input false true H Hc)).
Defined.

(** C9, as stated, fails: on the crisis path the response carries the
    time of the call, so two calls with the same three arguments differ. *)
Lemma C9_counterexample :
  validateInput plainText "2026-01-01T00:00:00.000Z" (JStr "I feel hopeless") false true
  <> validateInput plainText "2026-01-01T00:00:00.001Z" (JStr "I feel hopeless") false true.
Proof.
  rewrite !crisis_exit by (vm_compute; reflexivity).
  unfold getCrisisResponse. intros H. inversion H.
Qed.

(** C9, amended.  Apart from the time stamp of the crisis response, the
    result of [validateInput] is a function of its three arguments: two
    calls agree once the time stamp of one is put on the other, and they
    are equal whenever the result is not a crisis. *)
Theorem C9_deterministic_up_to_timestamp
  (sanitizeHtml : string -> string) (now1 now2 : string) (input : JsVal)
  (storageOptIn redactNames : bool) :
  validateInput sanitizeHtml now2 input storageOptIn redactNames
  = stamped now2 (validateInput sanitizeHtml now1 input storageOptIn redactNames) /\
  (isCrisis (validateInput sanitizeHtml now1 input storageOptIn redactNames) = false ->
   validateInput sanitizeHtml now1 input storageOptIn redactNames
   = validateInput sanitizeHtml now2 input storageOptIn redactNames).
Proof.
  unfold validateInput.
  destruct input as [| | b | z | text | items | fields]; try (split; reflexivity).
  destruct (isEmpty text); [split; reflexivity|].
  destruct (detectCrisis text); [split; [reflexivity | discriminate]|].
  destruct (detectPromptInjection text); [split; reflexivity|].
  destruct (String.length (sanitizeInput sanitizeHtml text) =? 0); split; reflexivity.
Qed.

Lemma C9_witness :
  let input := JStr "My manager keeps checking on me" in
  isCrisis (validateInput plainText "2026-01-01T00:00:00.000Z" input true true) = false /\
  validateInput plainText "2026-01-01T00:00:00.000Z" input true true
  = validateInput plainText "2026-01-01T00:00:00.001Z" input true true.
Proof.
  intros input.
  assert (H : isCrisis (validateInput plainText "2026-01-01T00:00:00.000Z" input true true)
              = false) by (vm_compute; reflexivity).
  split; [exact H|].
  exact (proj2 (C9_deterministic_up_to_timestamp plainText "2026-01-01T00:00:00.000Z"
                  "2026-01-01T00:00:00.001Z" input true true) H).
Defined.

(** C3, as stated, fails twice.  With [storageOptIn] set and
    [redactNames] cleared nothing is redacted, so an e-mail address
    stays; and with both cleared a name stays although the caller has
    not opted into storage. *)
Lemma C3_counterexample :
  (validateInput plainText "2026-01-01T00:00:00.000Z"
     (JStr "Mail bob@example.com now") true false
   = Accepted "Mail bob@example.com now" 24 24
   /\ occursIn (email piiPatterns) "Mail bob@example.com now" = true) /\
  (validateInput plainText "2026-01-01T00:00:00.000Z"
     (JStr "Ask John Smith") false false
   = Accepted "Ask John Smith" 14 14
   /\ occursIn (name piiPatterns) "Ask John Smith" = true).
Proof. vm_compute. repeat split. Qed.

Lemma redactPII_unfold (text : string) (redactNames : bool) :
  isEmpty text = false ->
  redactPII text redactNames
  = if redactNames then redactNamesIn (redactContacts text) else redactContacts text.
Proof. intros H. unfold redactPII. now rewrite H. Qed.

(** C3, amended.  For an accepted input the processed text is the
    sanitized text itself when the caller opted into storage and
    disabled name redaction; in the three other cases e-mail, phone,
    government-id and payment-card patterns are replaced, in that order,
    and name patterns are replaced as well exactly when [redactNames] is
    true. *)
Theorem C3_redaction_by_flags
  (sanitizeHtml : string -> string) (now input : string)
  (storageOptIn redactNames : bool) (p : string) (originalLength sanitizedLength : nat) :
  validateInput sanitizeHtml now (JStr input) storageOptIn redactNames
  = Accepted p originalLength sanitizedLength ->
  let sanitized := sanitizeInput sanitizeHtml input in
  p = match storageOptIn, redactNames with
      | true, false => sanitized
      | _, true => redactNamesIn (redactContacts sanitized)
      | false, false => redactContacts sanitized
      end
  /\ originalLength = String.length input
  /\ sanitizedLength = String.length sanitized
  /\ 0 < sanitizedLength.
Proof.
  unfold validateInput.
  destruct (isEmpty input); [discriminate|].
  destruct (detectCrisis input); [discriminate|].
  destruct (detectPromptInjection input); [discriminate|].
  destruct (String.length (sanitizeInput sanitizeHtml input) =? 0) eqn:E; [discriminate|].
  intros H. injection H as <- <- <-.
  assert (Hne : isEmpty (sanitizeInput sanitizeHtml input) = false)
    by (now rewrite isEmpty_length).
  apply Nat.eqb_neq in E.
  repeat split; try lia.
  destruct storageOptIn, redactNames; cbn [andb negb];
    try reflexivity; now rewrite (redactPII_unfold _ _ Hne).
Qed.

Lemma C3_witness :
  let input := "Ask John Smith, john@example.com, 555-123-4567" in
  validateInput plainText "2026-01-01T00:00:00.000Z" (JStr input) false false
  = Accepted "Ask John Smith, [EMAIL_REDACTED], [PHONE_REDACTED]" 46 46 /\
  "Ask John Smith, [EMAIL_REDACTED], [PHONE_REDACTED]"
  = redactContacts (sanitizeInput plainText input).
Proof.
  intros input.
  assert (H : validateInput plainText "2026-01-01T00:00:00.000Z" (JStr input) false false
              = Accepted "Ask John Smith, [EMAIL_REDACTED], [PHONE_REDACTED]" 46 46)
    by (vm_compute; reflexivity).
  split; [exact H|].
  exact (proj1 (@C3_redaction_by_flags plainText "2026-01-01T00:00:00.000Z" input
                  false false _ _ _ H)).
Defined.

(** ** Claims about the analysis service *)

Lemma existsb_eqb_In (x : string) (l : list string) :
  existsb (String.eqb x) l = true <-> In x l.
Proof.
  rewrite existsb_exists. split.
  - intros (y & Hin & Heq). apply String.eqb_eq in Heq. now subst.
  - intros Hin. exists x. split; [exact Hin | apply String.eqb_refl].
Qed.

Lemma noDuplicates_NoDup (l : list string) : noDuplicates l = true -> NoDup l.
Proof.
  induction l as [|x l IH]; simpl; intros H; constructor.
  - apply andb_true_iff in H as [H _]. apply negb_true_iff in H.
    intros Hin. apply existsb_eqb_In in Hin. congruence.
  - apply IH. now apply andb_true_iff in H as [_ H].
Qed.

Lemma subsetOf_incl (l m : list string) : subsetOf l m = true -> incl l m.
Proof.
  unfold subsetOf. rewrite forallb_forall. intros H x Hin.
  apply existsb_eqb_In. now apply H.
Qed.

(** C6.  When the call to the completion service throws,
    [needsClarifyingQuestions] returns [false]: the one request was made
    and no exception leaves the function. *)
Theorem C6_fails_open
  (openai : Service) (input : string) (h : list Request) (err : string) :
  openai h (clarifyingRequest input) = Throws err ->
  needsClarifyingQuestions openai input h
  = (Return false, (h ++ [clarifyingRequest input])%list).
Proof.
  intros H. unfold needsClarifyingQuestions, tryCatch, bind, create.
  now rewrite H.
Qed.

Lemma C6_witness :
  let openai : Service := fun _ _ => Throws "Error: connect ETIMEDOUT" in
  openai [] (clarifyingRequest "I had a bad day at work.")
  = Throws "Error: connect ETIMEDOUT" /\
  fst (needsClarifyingQuestions openai "I had a bad day at work." []) = Return false.
Proof.
  intros openai. split; [reflexivity|].
  rewrite (C6_fails_open openai "I had a bad day at work." [] "Error: connect ETIMEDOUT"
             eq_refl).
  reflexivity.
Defined.

(** [needsClarifyingQuestions] never throws, and answers [true] only on
    a reply that reads YES once trimmed and upper-cased. *)
Lemma needsClarifyingQuestions_returns (openai : Service) (input : string) (h : list Request) :
  exists b : bool,
    fst (needsClarifyingQuestions openai input h) = Return b /\
    (b = true ->
     exists text, openai h (clarifyingRequest input) = Content (Some text) /\
                  toUpperCase (trim text) = "YES").
Proof.
  unfold needsClarifyingQuestions, tryCatch, bind, create.
  destruct (openai h (clarifyingRequest input)) as [e | [text|]]; cbn.
  - exists false. split; [reflexivity | discriminate].
  - exists (String.eqb (toUpperCase (trim text)) "YES"). split; [reflexivity|].
    intros H. exists text. split; [reflexivity | now apply String.eqb_eq].
  - exists false. split; [reflexivity | discriminate].
Qed.

Lemma optGet_or_empty (v : JsVal) (k : string) :
  Js.optGet (Js.or v (JObj [])) k = Js.optGet v k.
Proof.
  unfold Js.or. destruct (Js.truthy v) eqn:E; [reflexivity|].
  destruct v; try reflexivity; discriminate.
Qed.

Lemma sanitizeNeeds_spec (arr : JsVal) :
  Repair.sanitizeNeeds arr
  = match validNeeds arr with
    | [] => ["safety"]
    | valid => firstn 3 valid
    end.
Proof.
  unfold Repair.sanitizeNeeds, validNeeds, Repair.allowedNeeds.
  destruct arr; try reflexivity.
  destruct (filter _ _); reflexivity.
Qed.

Lemma validNeeds_allowed (arr : JsVal) : Forall (fun n => In n needsEnum) (validNeeds arr).
Proof.
  unfold validNeeds. destruct arr; try constructor.
  apply Forall_forall. intros x Hin. apply filter_In in Hin as [_ H].
  now apply existsb_eqb_In.
Qed.

Lemma Forall_firstn {A} (P : A -> Prop) (n : nat) (l : list A) :
  Forall P l -> Forall P (firstn n l).
Proof.
  intros H. revert n. induction H; intros [|n]; simpl; constructor; auto.
Qed.

Lemma sanitizeNeeds_allowed (arr : JsVal) :
  Forall (fun n => In n needsEnum) (Repair.sanitizeNeeds arr) /\
  1 <= List.length (Repair.sanitizeNeeds arr) <= 3.
Proof.
  rewrite sanitizeNeeds_spec. pose proof (validNeeds_allowed arr) as H.
  destruct (validNeeds arr) as [|x l] eqn:E.
  - split; [|simpl; lia]. constructor; [simpl; tauto | constructor].
  - split; [now apply Forall_firstn|].
    rewrite length_firstn. cbn [List.length]. lia.
Qed.

Lemma sanitizeProtocol_spec (val : JsVal) :
  In (Repair.sanitizeProtocol val) protocols /\
  (In (Repair.trimmed val) protocols -> Repair.sanitizeProtocol val = Repair.trimmed val) /\
  (~ In (Repair.trimmed val) protocols -> Repair.sanitizeProtocol val = "STOP").
Proof.
  unfold Repair.sanitizeProtocol.
  change ["STOP"; "Values First"; "Bridge Belief"] with protocols.
  destruct (existsb (String.eqb (Repair.trimmed val)) protocols) eqn:E.
  - apply existsb_eqb_In in E.
    split; [exact E|]. split; [reflexivity | intros H; contradiction].
  - split; [simpl; tauto|].
    split; [|reflexivity].
    intros H. apply existsb_eqb_In in H. congruence.
Qed.

(** C5.  [repairSpiessMap] keeps of [needs] the entries that, trimmed,
    are terms of the 12-term allow-list and cuts that list to its first
    three, so a value outside the enumeration, "happiness" for one, is
    never kept, and the needs are ["safety"] when no entry is valid; a
    protocol outside STOP, Values First and Bridge Belief becomes STOP. *)
Theorem C5_needs_and_protocol (spiessMap : JsVal) :
  Js.isNullish spiessMap = false ->
  exists sp,
    repairSpiessMap spiessMap = Some sp /\
    needs sp = match validNeeds (Js.optGet spiessMap "needs") with
               | [] => ["safety"]
               | valid => firstn 3 valid
               end /\
    Forall (fun n => In n needsEnum) (needs sp) /\
    1 <= List.length (needs sp) <= 3 /\
    ~ In "happiness" (needs sp) /\
    List.length needsEnum = 12 /\
    In (protocol (toolAction sp)) protocols /\
    let given := Repair.trimmed (Js.optGet (Js.optGet spiessMap "toolAction") "protocol") in
    (In given protocols -> protocol (toolAction sp) = given) /\
    (~ In given protocols -> protocol (toolAction sp) = "STOP").
Proof.
  intros Hn. unfold repairSpiessMap. rewrite Hn.
  eexists. split; [reflexivity|]. cbn [needs toolAction protocol].
  rewrite optGet_or_empty.
  pose proof (sanitizeNeeds_allowed (Js.optGet spiessMap "needs")) as [Hall Hlen].
  pose proof (sanitizeProtocol_spec
                (Js.optGet (Js.optGet spiessMap "toolAction") "protocol")) as (Hp & Hk & Hs).
  split; [apply sanitizeNeeds_spec|].
  split; [exact Hall|]. split; [exact Hlen|].
  split.
  { intros Hin. rewrite Forall_forall in Hall. specialize (Hall _ Hin).
    simpl in Hall. repeat (destruct Hall as [Hall | Hall]; [discriminate|]).
    contradiction. }
  split; [reflexivity|]. split; [exact Hp|]. split; assumption.
Qed.

Lemma C5_witness :
  let spiessMap :=
    JObj [ ("needs", JArr [JStr "happiness"; JStr "wealth"; JStr "fame"; JStr " growth ";
                           JStr "safety"; JStr "control"; JStr "meaning"]);
           ("toolAction", JObj [("protocol", JStr "Deep Breathing")]) ] in
  Js.isNullish spiessMap = false /\
  exists sp, repairSpiessMap spiessMap = Some sp /\
             needs sp = ["growth"; "safety"; "control"] /\
             protocol (toolAction sp) = "STOP".
Proof.
  intros spiessMap.
  assert (Hn : Js.isNullish spiessMap = false) by reflexivity.
  split; [exact Hn|].
  destruct (C5_needs_and_protocol spiessMap Hn) as (sp & Hsp & Hneeds & _ & _ & _ & _ & _ & _ & Hstop).
  exists sp. split; [exact Hsp|]. split; [exact Hneeds|].
  apply Hstop. vm_compute. intros H.
  repeat (destruct H as [H | H]; [discriminate|]). contradiction.
Defined.

Lemma detectMechanisms_tags (narrativeLoop spiessMap : JsVal) :
  NoDup (detectMechanisms narrativeLoop spiessMap) /\
  incl (detectMechanisms narrativeLoop spiessMap) mechanismTags.
Proof.
  unfold detectMechanisms.
  set (text := toLowerCase _).
  assert (H : noDuplicates (detectMechanisms narrativeLoop spiessMap) = true /\
              subsetOf (detectMechanisms narrativeLoop spiessMap) mechanismTags = true).
  { unfold detectMechanisms. fold text.
    destruct (includes text "confirmation bias" || includes text "confirmation_bias");
    destruct (includes text "rejection" || includes text "rejection_sensitivity");
    destruct (includes text "control" || includes text "autonomy");
    destruct (includes text "perfect" || includes text "perfectionism");
    destruct (includes text "people pleas" || includes text "approval");
    destruct (includes text "boundary" || includes text "limit");
    destruct (includes text "attention" || includes text "test");
    destruct (includes text "vulnerable" || includes text "vulnerability");
    split; reflexivity. }
  destruct H as [H1 H2]. split.
  - now apply noDuplicates_NoDup.
  - now apply subsetOf_incl.
Qed.

(** C8.  On the default stage values, which the pipeline returns when
    the completion service fails, [detectMechanisms] yields the tag
    confirmation_bias, which is none of the seven terms of the session
    schema's tag enumeration. *)
Theorem C8_tag_outside_session_taxonomy :
  detectMechanisms (narrativeLoopObject getDefaultNarrativeLoop)
                   (spiessMapObject getDefaultSpiessMap)
  = ["confirmation_bias"; "attention_testing"] /\
  ~ In "confirmation_bias" sessionTags /\
  List.length sessionTags = 7 /\
  List.length mechanismTags = 8.
Proof.
  split; [vm_compute; reflexivity|].
  split; [|split; reflexivity].
  simpl. intros H. repeat (destruct H as [H | H]; [discriminate|]). contradiction.
Qed.

(** ** The response parser *)

Section BraceScan.

Local Open Scope Z_scope.

Lemma scanBraces_step (ch : ascii) (r : string) (i : nat) (d : Z) :
  scanBraces (String ch r) i d
  = if Ascii.eqb ch "}" && (d + braceStep ch =? 0)
    then Some i
    else scanBraces r (S i) (d + braceStep ch).
Proof.
  cbn [scanBraces]. unfold braceStep.
  destruct (Ascii.eqb ch "{") eqn:E1.
  - apply Ascii.eqb_eq in E1. subst ch. reflexivity.
  - destruct (Ascii.eqb ch "}") eqn:E2; cbn [andb].
    + replace (d + -1) with (d - 1) by lia.
      destruct (d - 1 =? 0); reflexivity.
    + now rewrite Z.add_0_r.
Qed.

Lemma closesFrom_here (d : Z) (ch : ascii) (r : string) :
  closesFrom d (String ch r) 0 <-> ch = "}"%char /\ d + braceStep ch = 0.
Proof.
  unfold closesFrom. cbn [String.get String.substring depthOf].
  replace (String.substring 0 0 r) with EmptyString by (now destruct r).
  cbn [depthOf]. rewrite Z.add_0_r.
  split; intros [H1 H2]; split; congruence.
Qed.

Lemma closesFrom_later (d : Z) (ch : ascii) (r : string) (k : nat) :
  closesFrom d (String ch r) (S k) <-> closesFrom (d + braceStep ch) r k.
Proof.
  unfold closesFrom. cbn [String.get String.substring depthOf].
  rewrite Z.add_assoc. tauto.
Qed.

(** The scan stops at the first closing brace that brings the nesting
    back to zero, and fails only when there is none. *)
Lemma scanBraces_spec (s : string) :
  forall (i : nat) (d : Z),
    match scanBraces s i d with
    | Some e =>
        exists k, e = (i + k)%nat /\ closesFrom d s k /\
                  forall k', (k' < k)%nat -> ~ closesFrom d s k'
    | None => forall k, ~ closesFrom d s k
    end.
Proof.
  induction s as [|ch r IH]; intros i d.
  - cbn. intros k [H _]. now destruct k.
  - rewrite scanBraces_step.
    destruct (Ascii.eqb ch "}" && (d + braceStep ch =? 0)) eqn:E.
    + apply andb_true_iff in E as [E1 E2].
      apply Ascii.eqb_eq in E1. apply Z.eqb_eq in E2.
      exists 0%nat. split; [lia|]. split; [now apply closesFrom_here | lia].
    + assert (Hhere : ~ closesFrom d (String ch r) 0).
      { rewrite closesFrom_here. intros [H1 H2].
        apply Ascii.eqb_eq in H1. apply Z.eqb_eq in H2.
        rewrite H1, H2 in E. discriminate. }
      specialize (IH (S i) (d + braceStep ch)).
      destruct (scanBraces r (S i) (d + braceStep ch)) as [e|].
      * destruct IH as (k & -> & Hk & Hmin).
        exists (S k). split; [lia|]. split; [now apply closesFrom_later|].
        intros [|k'] Hlt; [exact Hhere|].
        rewrite closesFrom_later. apply Hmin. lia.
      * intros [|k]; [exact Hhere|]. rewrite closesFrom_later. apply IH.
Qed.

End BraceScan.

(** ** The fenced block of a reply *)

Section FenceFacts.

Lemma append_empty_r (s : string) : s ++ EmptyString = s.
Proof. induction s as [|c s IH]; simpl; [reflexivity | now rewrite IH]. Qed.

Lemma append_assoc (a b c : string) : (a ++ b) ++ c = a ++ b ++ c.
Proof. induction a as [|x a IH]; simpl; [reflexivity | now rewrite IH]. Qed.

Lemma trimEnd_cons (c : ascii) (r : string) :
  trimEnd (String c r)
  = match trimEnd r with
    | EmptyString => if isWhiteSpace c then EmptyString else String c EmptyString
    | r' => String c r'
    end.
Proof. reflexivity. Qed.


Lemma space_class (b : ascii) : classHas true [CSpace] b = isWhiteSpace b.
Proof. destruct b as [[] [] [] [] [] [] [] []]; reflexivity. Qed.

Lemma any_class (b : ascii) : classHas true [CSpace; CNotSpace] b = true.
Proof. destruct b as [[] [] [] [] [] [] [] []]; reflexivity. Qed.

Lemma succ_neq (i : nat) : (S i =? i) = false.
Proof. apply Nat.eqb_neq. lia. Qed.

(** One iteration of a starred class. *)
Lemma repeat_class_step (neg : bool) (items : list ClassItem) (greedy : bool)
      (c : MatchState -> option MatchState)
      (pv : option ascii) (i : nat) (b : ascii) (r : string) (caps : list (nat * string)) :
  matchP true (PRepeat (PClass neg items) 0 None greedy) (mkState pv i (String b r) caps) c
  = let again := fun _ : unit =>
        if xorb neg (classHas true items b)
        then matchP true (PRepeat (PClass neg items) 0 None greedy)
               (mkState (Some b) (S i) r caps) c
        else None in
    if greedy then orElse (again tt) (fun _ => c (mkState pv i (String b r) caps))
    else orElse (c (mkState pv i (String b r) caps)) again.
Proof.
  cbn [matchP rest endIndex captures prev String.length Nat.add].
  rewrite !Nat.eqb_refl. cbn [negb andb]. rewrite succ_neq. cbv zeta.
  destruct greedy; destruct (xorb neg (classHas true items b)); reflexivity.
Qed.

Lemma repeat_class_end (neg : bool) (items : list ClassItem) (greedy : bool)
      (c : MatchState -> option MatchState)
      (pv : option ascii) (i : nat) (caps : list (nat * string)) :
  matchP true (PRepeat (PClass neg items) 0 None greedy) (mkState pv i EmptyString caps) c
  = c (mkState pv i EmptyString caps).
Proof.
  cbn [matchP rest endIndex captures prev String.length Nat.add].
  rewrite !Nat.eqb_refl. cbn [negb andb].
  destruct greedy; unfold orElse; [reflexivity|].
  now destruct (c (mkState pv i EmptyString caps)).
Qed.


Lemma canon_backtick (b : ascii) :
  Ascii.eqb (canonicalize true "`") (canonicalize true b)
  = Ascii.eqb (toLowerChar "`") (toLowerChar b).
Proof. destruct b as [[] [] [] [] [] [] [] []]; reflexivity. Qed.

Lemma canon_j (b : ascii) :
  Ascii.eqb (canonicalize true "j") (canonicalize true b)
  = Ascii.eqb (toLowerChar "j") (toLowerChar b).
Proof. destruct b as [[] [] [] [] [] [] [] []]; reflexivity. Qed.

Lemma canon_s (b : ascii) :
  Ascii.eqb (canonicalize true "s") (canonicalize true b)
  = Ascii.eqb (toLowerChar "s") (toLowerChar b).
Proof. destruct b as [[] [] [] [] [] [] [] []]; reflexivity. Qed.

Lemma canon_o (b : ascii) :
  Ascii.eqb (canonicalize true "o") (canonicalize true b)
  = Ascii.eqb (toLowerChar "o") (toLowerChar b).
Proof. destruct b as [[] [] [] [] [] [] [] []]; reflexivity. Qed.

Lemma canon_n (b : ascii) :
  Ascii.eqb (canonicalize true "n") (canonicalize true b)
  = Ascii.eqb (toLowerChar "n") (toLowerChar b).
Proof. destruct b as [[] [] [] [] [] [] [] []]; reflexivity. Qed.

Lemma backtick_lower (b : ascii) :
  Ascii.eqb (toLowerChar "`") (toLowerChar b) = Ascii.eqb "`" b.
Proof. destruct b as [[] [] [] [] [] [] [] []]; reflexivity. Qed.

Lemma backtick_space (b : ascii) : isWhiteSpace b = true -> Ascii.eqb "`" b = false.
Proof. destruct b as [[] [] [] [] [] [] [] []]; try reflexivity; discriminate. Qed.

(** A literal matches where the text continues with it, letter case
    ignored. *)
Lemma lit_run (l : string) :
  l <> EmptyString ->
  (forall a, In a (list_ascii_of_string l) ->
             forall b, Ascii.eqb (canonicalize true a) (canonicalize true b)
                       = Ascii.eqb (toLowerChar a) (toLowerChar b)) ->
  forall (c : MatchState -> option MatchState) (pv : option ascii) (i : nat)
         (s : string) (caps : list (nat * string)),
  exists pv',
    matchP true (lit l) (mkState pv i s caps) c
    = match afterPrefix l s with
      | Some r => c (mkState pv' (i + String.length l) r caps)
      | None => None
      end.
Proof.
  induction l as [|a l IH]; [congruence|]. intros _ Hl c pv i s caps.
  assert (Ha : forall b, Ascii.eqb (canonicalize true a) (canonicalize true b)
                         = Ascii.eqb (toLowerChar a) (toLowerChar b))
    by (apply Hl; now left).
  destruct l as [|a' l].
  - cbn [lit matchP rest endIndex captures afterPrefix String.length].
    destruct s as [|b r]; [now exists None|].
    rewrite Ha. exists (Some b). rewrite Nat.add_1_r.
    now destruct (Ascii.eqb (toLowerChar a) (toLowerChar b)).
  - change (lit (String a (String a' l))) with (PSeq (PChar a) (lit (String a' l))).
    cbn [matchP rest endIndex captures]. cbn [afterPrefix].
    destruct s as [|b r]; [now exists None|].
    rewrite Ha. destruct (Ascii.eqb (toLowerChar a) (toLowerChar b)); [|now exists None].
    destruct (IH ltac:(discriminate) (fun x Hx => Hl x (or_intror Hx)) c (Some b) (S i) r caps)
      as (pv' & ->).
    exists pv'.
    replace (i + String.length (String a (String a' l)))
      with (S i + String.length (String a' l)) by (cbn [String.length]; lia).
    reflexivity.
Qed.

Lemma afterPrefix_app (a b s : string) :
  afterPrefix (a ++ b) s
  = match afterPrefix a s with
    | Some r => afterPrefix b r
    | None => None
    end.
Proof.
  revert s. induction a as [|x a IH]; intros s; [reflexivity|].
  cbn [String.append afterPrefix]. destruct s as [|y s]; [reflexivity|].
  destruct (Ascii.eqb (toLowerChar x) (toLowerChar y)); [apply IH | reflexivity].
Qed.

Lemma afterPrefix_backticks (s : string) :
  afterPrefix "```" s = None <-> String.prefix "```" s = false.
Proof.
  destruct s as [|a s]; cbn [afterPrefix String.prefix]; [tauto|].
  rewrite backtick_lower. destruct (ascii_dec "`" a) as [<-|Na].
  2:{ destruct (Ascii.eqb_spec "`" a); [contradiction | tauto]. }
  rewrite Ascii.eqb_refl.
  destruct s as [|b s]; cbn [afterPrefix String.prefix]; [tauto|].
  rewrite backtick_lower. destruct (ascii_dec "`" b) as [<-|Nb].
  2:{ destruct (Ascii.eqb_spec "`" b); [contradiction | tauto]. }
  rewrite Ascii.eqb_refl.
  destruct s as [|c s]; cbn [afterPrefix String.prefix]; [tauto|].
  rewrite backtick_lower. destruct (ascii_dec "`" c) as [<-|Nc].
  2:{ destruct (Ascii.eqb_spec "`" c); [contradiction | tauto]. }
  rewrite Ascii.eqb_refl. destruct s; cbn; intuition discriminate.
Qed.


Lemma backtick_letters (a : ascii) :
  In a (list_ascii_of_string "```") ->
  forall b, Ascii.eqb (canonicalize true a) (canonicalize true b)
            = Ascii.eqb (toLowerChar a) (toLowerChar b).
Proof.
  cbn [list_ascii_of_string In]. intros H b.
  repeat destruct H as [<- | H]; try apply canon_backtick. contradiction.
Qed.

Lemma json_letters (a : ascii) :
  In a (list_ascii_of_string "json") ->
  forall b, Ascii.eqb (canonicalize true a) (canonicalize true b)
            = Ascii.eqb (toLowerChar a) (toLowerChar b).
Proof.
  cbn [list_ascii_of_string In]. intros H b.
  destruct H as [<- | [<- | [<- | [<- | []]]]];
    [apply canon_j | apply canon_s | apply canon_o | apply canon_n].
Qed.

Lemma backticks_start (s : string) :
  String.prefix "```" s = true -> String.prefix "```" (trimStart s) = true.
Proof.
  destruct s as [|c s]; [discriminate|]. cbn [String.prefix].
  destruct (ascii_dec "`" c) as [<-|]; [|discriminate]. intros H.
  cbn [trimStart]. change (isWhiteSpace "`") with false. cbn [String.prefix].
  now destruct (ascii_dec "`" "`").
Qed.

Lemma space_no_fence (c : ascii) (r : string) :
  isWhiteSpace c = true -> String.prefix "```" (String c r) = false.
Proof.
  intros W. cbn [String.prefix]. destruct (ascii_dec "`" c) as [<-|]; [discriminate W | reflexivity].
Qed.

Lemma trimEnd_blank (c : ascii) (w : string) :
  trimEnd (String c w) = EmptyString <-> isWhiteSpace c = true /\ trimEnd w = EmptyString.
Proof.
  rewrite trimEnd_cons. destruct (trimEnd w); destruct (isWhiteSpace c); intuition discriminate.
Qed.

Lemma before_blank (s : string) :
  String.prefix "```" (trimStart s) = true ->
  exists w, beforeFirst "```" s = Some w /\ trimEnd w = EmptyString.
Proof.
  induction s as [|c r IH]; [discriminate|]. cbn [trimStart].
  destruct (isWhiteSpace c) eqn:W; intros H.
  - destruct (IH H) as (w & Hw & Hb). exists (String c w).
    cbn [beforeFirst]. rewrite (space_no_fence c r W), Hw.
    split; [reflexivity | now apply trimEnd_blank].
  - exists EmptyString. cbn [beforeFirst]. now rewrite H.
Qed.

Lemma blank_before (r b : string) :
  beforeFirst "```" r = Some b -> trimEnd b = EmptyString ->
  String.prefix "```" (trimStart r) = true.
Proof.
  revert b. induction r as [|c r IH]; intros b; cbn [beforeFirst].
  - destruct (String.prefix "```" EmptyString) eqn:P; discriminate.
  - destruct (String.prefix "```" (String c r)) eqn:P.
    + intros _ _. now apply backticks_start.
    + destruct (beforeFirst "```" r) as [b'|]; [|discriminate].
      cbn [option_map]. intros Hb Ht. injection Hb as <-.
      apply trimEnd_blank in Ht as [W Ht]. cbn [trimStart]. rewrite W. now apply (IH b').
Qed.

Lemma append_length (a b : string) :
  String.length (a ++ b) = String.length a + String.length b.
Proof. induction a as [|c a IH]; cbn; [reflexivity | now rewrite IH]. Qed.

Lemma substring_whole_prefix (pre s : string) :
  String.substring 0 (String.length pre) (pre ++ s) = pre.
Proof. induction pre as [|c pre IH]; cbn; [now destruct s | now rewrite IH]. Qed.

(** The closing fence after any white space. *)
Lemma closing_run (s : string) :
  forall (pv : option ascii) (i : nat) (caps : list (nat * string)),
    match matchP true (PSeq (star space) backticks) (mkState pv i s caps)
            (fun y => Some y) with
    | Some y => String.prefix "```" (trimStart s) = true /\ captures y = caps
    | None => String.prefix "```" (trimStart s) = false
    end.
Proof.
  assert (Hticks : forall pv i s caps,
             match matchP true backticks (mkState pv i s caps) (fun y => Some y) with
             | Some y => String.prefix "```" s = true /\ captures y = caps
             | None => String.prefix "```" s = false
             end).
  { intros pv i t caps.
    destruct (lit_run "```" ltac:(discriminate) backtick_letters
                (fun y => Some y) pv i t caps) as (pv' & E).
    unfold backticks. rewrite E.
    destruct (afterPrefix "```" t) eqn:A.
    - split; [|reflexivity].
      destruct (String.prefix "```" t) eqn:P; [reflexivity|].
      apply afterPrefix_backticks in P. congruence.
    - now apply afterPrefix_backticks. }
  induction s as [|a s IH]; intros pv i caps; cbn [matchP]; unfold star, space.
  - rewrite repeat_class_end. apply Hticks.
  - rewrite repeat_class_step. cbv zeta. cbn [xorb]. rewrite space_class.
    cbn [trimStart]. destruct (isWhiteSpace a) eqn:W; unfold orElse.
    + specialize (IH (Some a) (S i) caps). cbn [matchP] in IH. unfold star, space in IH.
      destruct (matchP true (PRepeat (PClass false [CSpace]) 0 None true) _ _) as [y|].
      * exact IH.
      * specialize (Hticks pv i (String a s) caps).
        destruct (matchP true backticks _ _) as [y|]; [|exact IH].
        destruct Hticks as [P _]. rewrite (space_no_fence a s W) in P. discriminate.
    + apply Hticks.
Qed.


(** The capture: the shortest text after which white space and the
    closing fence follow. *)
Lemma lazy_capture (i3 : nat) (s3 : string) (caps3 : list (nat * string)) (s : string) :
  forall (pre : string) (pv : option ascii),
    s3 = pre ++ s ->
    match matchP true (lazyStar anyChar) (mkState pv (i3 + String.length pre) s caps3)
            (fun y4 =>
               matchP true (PSeq (star space) backticks)
                 (mkState (prev y4) (endIndex y4) (rest y4)
                    ((1, String.substring 0 (endIndex y4 - i3) s3) :: captures y4))
                 (fun y => Some y)) with
    | Some y =>
        exists b, beforeFirst "```" s = Some b /\
                  captures y = (1, pre ++ trimEnd b) :: caps3
    | None => beforeFirst "```" s = None
    end.
Proof.
  induction s as [|b r IH]; intros pre pv Hs; unfold lazyStar, anyChar.
  - rewrite repeat_class_end. cbn [prev endIndex rest captures].
    pose proof (closing_run EmptyString pv (i3 + String.length pre)
                  ((1, String.substring 0 (i3 + String.length pre - i3) s3) :: caps3)) as H.
    destruct (matchP true (PSeq (star space) backticks) _ _) as [y|];
      [destruct H as [H _]; discriminate H | reflexivity].
  - rewrite repeat_class_step. cbv zeta. cbn [xorb]. rewrite any_class.
    cbn [prev endIndex rest captures]. unfold orElse.
    pose proof (closing_run (String b r) pv (i3 + String.length pre)
                  ((1, String.substring 0 (i3 + String.length pre - i3) s3) :: caps3)) as H.
    destruct (matchP true (PSeq (star space) backticks) _ _) as [y|].
    + destruct H as [H Hc]. destruct (before_blank _ H) as (w & Hw & Hb).
      exists w. split; [exact Hw|]. rewrite Hc, Hb, append_empty_r.
      replace (i3 + String.length pre - i3) with (String.length pre) by lia.
      now rewrite Hs, substring_whole_prefix.
    + assert (P : String.prefix "```" (String b r) = false).
      { destruct (String.prefix "```" (String b r)) eqn:P; [|reflexivity].
        apply backticks_start in P. congruence. }
      specialize (IH (pre ++ String b EmptyString) (Some b)).
      replace (i3 + String.length (pre ++ String b EmptyString))
        with (S (i3 + String.length pre)) in IH
        by (rewrite append_length; cbn [String.length]; lia).
      unfold lazyStar, anyChar in IH.
      assert (Hs' : s3 = (pre ++ String b EmptyString) ++ r)
        by (now rewrite append_assoc).
      specialize (IH Hs').
      destruct (matchP true (PRepeat (PClass false [CSpace; CNotSpace]) 0 None false) _ _)
        as [y|].
      * destruct IH as (b' & Hb' & Hc). exists (String b b').
        cbn [beforeFirst]. rewrite P, Hb'. split; [reflexivity|].
        rewrite Hc, append_assoc. cbn [String.append]. do 3 f_equal.
        rewrite trimEnd_cons. destruct (trimEnd b') eqn:T; [|reflexivity].
        destruct (isWhiteSpace b) eqn:W; [|reflexivity].
        exfalso. pose proof (blank_before r b' Hb' T) as Q.
        cbn [trimStart] in H. rewrite W in H. congruence.
      * cbn [beforeFirst]. now rewrite P, IH.
Qed.


Lemma group_run (pv : option ascii) (i : nat) (s : string) (caps : list (nat * string)) :
  match matchP true (PSeq (PGroup 1 (lazyStar anyChar)) (PSeq (star space) backticks))
          (mkState pv i s caps) (fun y => Some y) with
  | Some y =>
      exists b, beforeFirst "```" s = Some b /\ captures y = (1, trimEnd b) :: caps
  | None => beforeFirst "```" s = None
  end.
Proof.
  pose proof (lazy_capture i s caps s EmptyString pv eq_refl) as H.
  cbn [String.length String.append] in H. rewrite Nat.add_0_r in H.
  cbn [matchP prev endIndex rest captures]. exact H.
Qed.

Lemma trim_skip (c : ascii) (b : string) :
  isWhiteSpace c = true -> trim (String c b) = trim b.
Proof. intros W. unfold trim. cbn [trimStart]. now rewrite W. Qed.

Lemma before_starts (c : ascii) (r b : string) :
  isWhiteSpace c = false -> beforeFirst "```" (String c r) = Some b -> trimStart b = b.
Proof.
  intros W. cbn [beforeFirst].
  destruct (String.prefix "```" (String c r)); [now intros [= <-]|].
  destruct (beforeFirst "```" r); [|discriminate].
  intros [= <-]. cbn [trimStart]. now rewrite W.
Qed.

(** What follows the opening fence: white space, the captured body,
    white space and the closing fence. *)
Lemma tail_run (s : string) :
  forall (pv : option ascii) (i : nat),
    match matchP true
            (seq [star space; PGroup 1 (lazyStar anyChar); star space; backticks])
            (mkState pv i s []) (fun y => Some y) with
    | Some y =>
        exists between, beforeFirst "```" s = Some between /\
                        assoc 1 (captures y) = Some (trim between)
    | None => beforeFirst "```" s = None
    end.
Proof.
  assert (Hgroup : forall pv i t,
             match matchP true (PSeq (PGroup 1 (lazyStar anyChar))
                                  (PSeq (star space) backticks))
                     (mkState pv i t []) (fun y => Some y) with
             | Some y =>
                 exists between, beforeFirst "```" t = Some between /\
                                 assoc 1 (captures y) = Some (trimEnd between)
             | None => beforeFirst "```" t = None
             end).
  { intros pv i t. pose proof (group_run pv i t []) as H.
    destruct (matchP true _ _ _) as [y|]; [|exact H].
    destruct H as (b & Hb & Hc). exists b. split; [exact Hb|]. now rewrite Hc. }
  change (seq [star space; PGroup 1 (lazyStar anyChar); star space; backticks])
    with (PSeq (star space) (PSeq (PGroup 1 (lazyStar anyChar))
                               (PSeq (star space) backticks))).
  induction s as [|a s IH]; intros pv i.
  - cbn [matchP]. unfold star at 1, space at 1. rewrite repeat_class_end.
    specialize (Hgroup pv i EmptyString). cbn [matchP] in Hgroup.
    destruct (matchP true (lazyStar anyChar) _ _) as [y|]; [|exact Hgroup].
    destruct Hgroup as (b & Hb & _). discriminate Hb.
  - cbn [matchP]. unfold star at 1, space at 1. rewrite repeat_class_step.
    cbv zeta. cbn [xorb]. rewrite space_class.
    specialize (Hgroup pv i (String a s)). cbn [matchP] in Hgroup.
    destruct (isWhiteSpace a) eqn:W; unfold orElse.
    + specialize (IH (Some a) (S i)). cbn [matchP] in IH. unfold star at 1, space at 1 in IH.
      destruct (matchP true (PRepeat (PClass false [CSpace]) 0 None true) _ _) as [y|].
      * destruct IH as (between & Hb & Hc). exists (String a between).
        cbn [beforeFirst]. rewrite (space_no_fence a s W), Hb.
        split; [reflexivity|]. now rewrite (trim_skip a between W).
      * destruct (matchP true (lazyStar anyChar) _ _) as [y|]; [|exact Hgroup].
        destruct Hgroup as (b & Hb & _). cbn [beforeFirst] in Hb.
        rewrite (space_no_fence a s W), IH in Hb. discriminate Hb.
    + destruct (matchP true (lazyStar anyChar) _ _) as [y|]; [|exact Hgroup].
      destruct Hgroup as (b & Hb & Hc). exists b. split; [exact Hb|].
      unfold trim. now rewrite (before_starts a s b W Hb).
Qed.

(** A match of the labeled pattern at the start of [s]. *)
Lemma labeled_at (pv : option ascii) (i : nat) (s : string) :
  match matchAt labeledFence pv i s with
  | Some y =>
      exists rest between,
        afterPrefix ("```" ++ "json") s = Some rest /\
        beforeFirst "```" rest = Some between /\
        assoc 1 (captures y) = Some (trim between)
  | None =>
      forall rest, afterPrefix ("```" ++ "json") s = Some rest ->
                   beforeFirst "```" rest = None
  end.
Proof.
  unfold matchAt, labeledFence. cbn [pattern ignoreCase].
  change (seq [backticks; lit "json"; star space; PGroup 1 (lazyStar anyChar);
               star space; backticks])
    with (PSeq backticks
            (PSeq (lit "json")
               (seq [star space; PGroup 1 (lazyStar anyChar); star space; backticks]))).
  cbn [matchP]. unfold backticks at 1.
  destruct (lit_run "```" ltac:(discriminate) backtick_letters
              (fun y => matchP true (lit "json") y
                 (fun y0 => matchP true
                    (seq [star space; PGroup 1 (lazyStar anyChar); star space; backticks])
                    y0 (fun y1 => Some y1))) pv i s []) as (pv1 & ->).
  rewrite afterPrefix_app.
  destruct (afterPrefix "```" s) as [r1|]; [|discriminate].
  destruct (lit_run "json" ltac:(discriminate) json_letters
              (fun y0 => matchP true
                 (seq [star space; PGroup 1 (lazyStar anyChar); star space; backticks])
                 y0 (fun y1 => Some y1)) pv1 (i + String.length "```") r1 [])
    as (pv2 & ->).
  destruct (afterPrefix "json" r1) as [r2|]; [|discriminate].
  pose proof (tail_run r2 pv2 (i + String.length "```" + String.length "json")) as H.
  destruct (matchP true _ _ _) as [y|].
  - destruct H as (between & Hb & Hc). now exists r2, between.
  - now intros rest [= <-].
Qed.

(** A match of the unlabeled pattern at the start of [s]. *)
Lemma plain_at (pv : option ascii) (i : nat) (s : string) :
  match matchAt plainFence pv i s with
  | Some y =>
      exists rest between,
        afterPrefix ("```" ++ EmptyString) s = Some rest /\
        beforeFirst "```" rest = Some between /\
        assoc 1 (captures y) = Some (trim between)
  | None =>
      forall rest, afterPrefix ("```" ++ EmptyString) s = Some rest ->
                   beforeFirst "```" rest = None
  end.
Proof.
  unfold matchAt, plainFence. cbn [pattern ignoreCase].
  change (seq [backticks; star space; PGroup 1 (lazyStar anyChar); star space; backticks])
    with (PSeq backticks
            (seq [star space; PGroup 1 (lazyStar anyChar); star space; backticks])).
  cbn [matchP]. unfold backticks at 1.
  destruct (lit_run "```" ltac:(discriminate) backtick_letters
              (fun y0 => matchP true
                 (seq [star space; PGroup 1 (lazyStar anyChar); star space; backticks])
                 y0 (fun y1 => Some y1)) pv i s []) as (pv1 & ->).
  change ("```" ++ EmptyString) with "```".
  destruct (afterPrefix "```" s) as [r1|]; [|discriminate].
  pose proof (tail_run r1 pv1 (i + String.length "```")) as H.
  destruct (matchP true _ _ _) as [y|].
  - destruct H as (between & Hb & Hc). now exists r1, between.
  - now intros rest [= <-].
Qed.

End FenceFacts.

Section FenceSearch.

Variable re : RegExp.
Variable label : string.

Hypothesis re_at : forall pv i s,
  match matchAt re pv i s with
  | Some y =>
      exists rest between,
        afterPrefix ("```" ++ label) s = Some rest /\
        beforeFirst "```" rest = Some between /\
        assoc 1 (captures y) = Some (trim between)
  | None =>
      forall rest, afterPrefix ("```" ++ label) s = Some rest ->
                   beforeFirst "```" rest = None
  end.

Lemma afterPrefix_split (o s rest : string) :
  afterPrefix o s = Some rest ->
  exists O, s = O ++ rest /\ String.length O = String.length o.
Proof.
  revert s. induction o as [|a o IH]; intros s; cbn [afterPrefix].
  - intros [= <-]. now exists EmptyString.
  - destruct s as [|b s]; [discriminate|].
    destruct (Ascii.eqb (toLowerChar a) (toLowerChar b)); [|discriminate].
    intros H. destruct (IH s H) as (O & -> & L).
    exists (String b O). split; [reflexivity | cbn; now rewrite L].
Qed.

Lemma afterFirst_here (o s rest : string) :
  afterPrefix o s = Some rest -> afterFirst o s = Some rest.
Proof. intros H. destruct s; cbn [afterFirst]; now rewrite H. Qed.

Lemma afterFirst_split (o s rest : string) :
  afterFirst o s = Some rest ->
  exists P, s = P ++ rest /\ String.length o <= String.length P.
Proof.
  induction s as [|c s IH]; cbn [afterFirst]; destruct (afterPrefix o _) as [r|] eqn:A.
  - intros [= <-]. destruct (afterPrefix_split _ _ _ A) as (O & E & L).
    exists O. split; [exact E | lia].
  - discriminate.
  - intros [= <-]. destruct (afterPrefix_split _ _ _ A) as (O & E & L).
    exists O. split; [exact E | lia].
  - intros H. destruct (IH H) as (P & -> & L).
    exists (String c P). split; [reflexivity | cbn; lia].
Qed.

Lemma append_suffix (a b a' b' : string) :
  a ++ b = a' ++ b' -> String.length a <= String.length a' -> exists q, b = q ++ b'.
Proof.
  revert a'. induction a as [|x a IH]; intros a' E L.
  - exists a'. exact E.
  - destruct a' as [|y a']; [cbn in L; lia|].
    cbn [String.append] in E. injection E as _ E.
    apply (IH a' E). cbn in L. lia.
Qed.

Lemma beforeFirst_suffix (closing q s : string) :
  beforeFirst closing s <> None -> beforeFirst closing (q ++ s) <> None.
Proof.
  intros H. induction q as [|c q IH]; [exact H|].
  cbn [String.append beforeFirst].
  destruct (String.prefix closing (String c (q ++ s))); [discriminate|].
  destruct (beforeFirst closing (q ++ s)); [discriminate | contradiction].
Qed.

(** The leftmost match: the first opening fence decides. *)
Lemma search_fence (s : string) :
  forall pv i,
    match search re pv i s with
    | Some m => exists body, group 1 m = Some body /\ fencedText label s = Some body
    | None => fencedText label s = None
    end.
Proof.
  induction s as [|c r IH]; intros pv i; cbn [search];
    pose proof (re_at pv i) as H.
  - specialize (H EmptyString). destruct (matchAt re pv i EmptyString) as [y|].
    + destruct H as (rest & between & A & _). discriminate A.
    + reflexivity.
  - specialize (H (String c r)). destruct (matchAt re pv i (String c r)) as [y|].
    + destruct H as (rest & between & A & B & C). exists (trim between).
      split; [exact C|]. unfold fencedText.
      now rewrite (afterFirst_here _ _ _ A), B.
    + specialize (IH (Some c) (S i)). unfold fencedText in *. cbn [afterFirst].
      destruct (afterPrefix ("```" ++ label) (String c r)) as [rest|] eqn:A.
      * rewrite (H rest eq_refl). cbn [option_map].
        destruct (search re (Some c) (S i) r) as [m|]; [|reflexivity].
        exfalso. destruct IH as (body & _ & F).
        destruct (afterFirst ("```" ++ label) r) as [rest'|] eqn:A'; [|discriminate].
        destruct (afterFirst_split _ _ _ A') as (P & E & L).
        destruct (afterPrefix_split _ _ _ A) as (O & E' & L').
        assert (Hq : exists q, rest = q ++ rest').
        { apply (append_suffix O rest (String c P) rest').
          - rewrite <- E'. cbn [String.append]. now rewrite <- E.
          - cbn [String.length]. lia. }
        destruct Hq as (q & Hq).
        apply (beforeFirst_suffix "```" q rest').
        -- destruct (beforeFirst "```" rest'); [discriminate | discriminate F].
        -- rewrite <- Hq. exact (H rest eq_refl).
      * exact IH.
Qed.

End FenceSearch.

(** The fenced strategy of [safeJsonParse] takes the block the words of
    the specification describe. *)
Lemma fencedBody_fencedBlock (text : string) : fencedBody text = fencedBlock text.
Proof.
  unfold fencedBody, fencedBlock, exec.
  pose proof (search_fence labeledFence "json" labeled_at text None 0) as H1.
  pose proof (search_fence plainFence EmptyString plain_at text None 0) as H2.
  destruct (search labeledFence None 0 text) as [m|].
  - destruct H1 as (body & -> & ->). reflexivity.
  - rewrite H1. destruct (search plainFence None 0 text) as [m|].
    + destruct H2 as (body & -> & ->). reflexivity.
    + now rewrite H2.
Qed.

Lemma firstSuccess_chain (parse : string -> JsVal + string) (text : string) (e1 : string) :
  parse text = inr e1 ->
  safeJsonParse parse text
  = match firstSuccess parse (fallbacks text) with
    | Some data => Ok data
    | None => Failed e1
    end.
Proof.
  intros H. unfold safeJsonParse, fallbacks. rewrite H.
  destruct (fencedBody text) as [fenced|]; destruct (braceBody text) as [braces|];
    cbn [app firstSuccess];
    repeat match goal with
           | |- context [parse ?x] => destruct (parse x)
           end;
    reflexivity.
Qed.

(** C4.  [safeJsonParse] parses the whole text first; when that fails it
    tries, in this order and stopping at the first success, the body of
    a fenced block and the brace region.  The body of a fenced block is
    the text between the first fence labeled json, in any letter case,
    and the next fence, or between the first fence and the next one
    when no labeled block is there, without the white space around it;
    an empty body is not tried.  The brace region is the stretch from
    the first opening brace up to the first closing brace that restores
    the nesting, or up to the last closing brace when none does.  When
    no attempt succeeds the result carries the error of the first
    parse. *)
Theorem C4_three_strategies_in_order
  (JSON_parse : string -> JsVal + string) (text : string) :
  safeJsonParse JSON_parse text
  = match JSON_parse text with
    | inl data => Ok data
    | inr e1 =>
        match firstSuccess JSON_parse (fallbacks text) with
        | Some data => Ok data
        | None => Failed e1
        end
    end /\
  List.length (text :: fallbacks text) <= 3 /\
  fencedBody text = fencedBlock text /\
  match braceBody text with
  | Some body =>
      exists firstBrace lastBrace,
        indexOf "{" text = Some firstBrace /\
        lastIndexOf "}" text = Some lastBrace /\
        firstBrace < lastBrace /\
        let candidate := slice firstBrace (lastBrace + 1) text in
        (exists k, closesFrom 0 candidate k /\
                   (forall k', k' < k -> ~ closesFrom 0 candidate k') /\
                   body = slice 0 (k + 1) candidate) \/
        ((forall k, ~ closesFrom 0 candidate k) /\ body = candidate)
  | None =>
      forall firstBrace lastBrace,
        indexOf "{" text = Some firstBrace ->
        lastIndexOf "}" text = Some lastBrace ->
        lastBrace <= firstBrace
  end.
Proof.
  split; [|split; [|split]].
  - destruct (JSON_parse text) as [data | e1] eqn:E.
    + unfold safeJsonParse. now rewrite E.
    + now apply firstSuccess_chain.
  - unfold fallbacks.
    destruct (fencedBody text); destruct (braceBody text); cbn; lia.
  - apply fencedBody_fencedBlock.
  - unfold braceBody.
    destruct (indexOf "{" text) as [i|]; [|discriminate].
    destruct (lastIndexOf "}" text) as [j|]; [|discriminate].
    destruct (i <? j) eqn:E.
    + apply Nat.ltb_lt in E.
      pose proof (scanBraces_spec (slice i (j + 1) text) 0 0) as H.
      destruct (scanBraces (slice i (j + 1) text) 0 0) as [e|].
      * destruct H as (k & -> & Hk & Hmin).
        exists i, j. split; [reflexivity|]. split; [reflexivity|]. split; [exact E|].
        left. exists k. split; [exact Hk|]. split; [exact Hmin | reflexivity].
      * exists i, j. split; [reflexivity|]. split; [reflexivity|]. split; [exact E|].
        right. split; [exact H | reflexivity].
    + apply Nat.ltb_ge in E. intros i' j' Hi Hj.
      injection Hi as <-. injection Hj as <-. exact E.
Qed.

(** ** Repair and the stage pipeline *)

Ltac andb_split :=
  repeat match goal with
         | |- _ && _ = true => apply andb_true_iff; split
         end.
Ltac andb_hyps :=
  repeat match goal with
         | H : _ && _ = true |- _ => apply andb_true_iff in H as [? ?]
         end.

Section RepairFacts.

Lemma nonEmpty_length (s : string) : nonEmpty s = (0 <? String.length s).
Proof. now destruct s. Qed.

Lemma joiString_nonEmpty (lo hi : nat) (s : string) :
  joiString lo hi s = true -> nonEmpty s = true.
Proof. unfold joiString, nonEmpty. intros H. now andb_hyps. Qed.

Lemma joiString_intro (hi : nat) (s : string) :
  nonEmpty s = true -> (String.length s <=? hi) = true -> joiString 1 hi s = true.
Proof.
  unfold joiString. intros H1 H2. rewrite nonEmpty_length in H1.
  apply Nat.ltb_lt in H1. andb_split; [|now apply Nat.leb_le|assumption].
  destruct s; [simpl in H1; lia | reflexivity].
Qed.

Lemma sanitizeString_nonEmpty (v : JsVal) (fallback : string) :
  nonEmpty fallback = true -> nonEmpty (Repair.sanitizeString v fallback) = true.
Proof.
  intros H. unfold Repair.sanitizeString.
  destruct (0 <? String.length (Repair.trimmed v)) eqn:E; [|exact H].
  now rewrite nonEmpty_length.
Qed.

Lemma sanitizeString_within (hi : nat) (v : JsVal) (fallback : string) :
  joiString 1 hi fallback = true -> withinLength hi v = true ->
  joiString 1 hi (Repair.sanitizeString v fallback) = true.
Proof.
  intros Hf Hw. unfold Repair.sanitizeString.
  destruct (0 <? String.length (Repair.trimmed v)) eqn:E; [|exact Hf].
  apply joiString_intro; [now rewrite nonEmpty_length | exact Hw].
Qed.

Lemma cleaned_nonEmpty (items : list JsVal) :
  forallb nonEmpty (Repair.cleaned items) = true.
Proof.
  unfold Repair.cleaned. apply forallb_forall. intros s Hin.
  apply filter_In in Hin as [_ H]. now rewrite nonEmpty_length.
Qed.

Lemma cleaned_within (hi : nat) (items : list JsVal) :
  forallb (withinLength hi) items = true ->
  forallb (joiString 1 hi) (Repair.cleaned items) = true.
Proof.
  intros H. unfold Repair.cleaned. apply forallb_forall. intros s Hin.
  apply filter_In in Hin as [Hin Hs]. apply in_map_iff in Hin as (v & <- & Hv).
  rewrite forallb_forall in H. specialize (H v Hv).
  apply joiString_intro; [now rewrite nonEmpty_length | exact H].
Qed.

Lemma forallb_firstn {A} (f : A -> bool) (n : nat) (l : list A) :
  forallb f l = true -> forallb f (firstn n l) = true.
Proof.
  revert n. induction l as [|x l IH]; intros [|n] H; simpl in *; try reflexivity.
  apply andb_true_iff in H as [H1 H2]. rewrite H1. now apply IH.
Qed.

Lemma sanitizeArrayLoop_filled (arr : JsVal) (fallback : string) :
  nonEmpty fallback = true -> filled (Repair.sanitizeArrayLoop arr fallback) = true.
Proof.
  intros Hf. unfold Repair.sanitizeArrayLoop, filled.
  assert (Hfb : (1 <=? List.length [fallback]) && forallb nonEmpty [fallback] = true)
    by (cbn; now rewrite Hf).
  destruct arr; try exact Hfb.
  destruct (0 <? List.length (Repair.cleaned items)) eqn:E; [|exact Hfb].
  apply Nat.ltb_lt in E. andb_split; [apply Nat.leb_le; lia | apply cleaned_nonEmpty].
Qed.

Lemma sanitizeArrayLoop_within (hi count : nat) (arr : JsVal) (fallback : string) :
  1 <= count -> joiString 1 hi fallback = true ->
  itemsWithin hi arr = true -> countWithin count arr = true ->
  joiArray (joiString 1 hi) 1 count (Repair.sanitizeArrayLoop arr fallback) = true.
Proof.
  intros Hc Hf Hi Hn. unfold Repair.sanitizeArrayLoop, joiArray.
  assert (Hfb : forallb (joiString 1 hi) [fallback] && (1 <=? List.length [fallback])
                && (List.length [fallback] <=? count) = true).
  { andb_split; [cbn [forallb]; now rewrite Hf | reflexivity | apply Nat.leb_le; exact Hc]. }
  destruct arr; try exact Hfb.
  destruct (0 <? List.length (Repair.cleaned items)) eqn:E; [|exact Hfb].
  apply Nat.ltb_lt in E. andb_split.
  - now apply cleaned_within.
  - apply Nat.leb_le. lia.
  - exact Hn.
Qed.

Lemma sanitizeArray_filled (arr : JsVal) (fallback : string) (n : nat) :
  1 <= n -> nonEmpty fallback = true ->
  filled (Repair.sanitizeArray arr fallback (Some n)) = true /\
  (List.length (Repair.sanitizeArray arr fallback (Some n)) <=? n) = true.
Proof.
  intros Hn Hf. unfold Repair.sanitizeArray, filled.
  set (items := Repair.cleaned match arr with JArr items => items | _ => [] end).
  assert (Hitems : forallb nonEmpty items = true) by apply cleaned_nonEmpty.
  set (l := if List.length items =? 0 then [fallback] else items).
  assert (Hl : 1 <= List.length l /\ forallb nonEmpty l = true).
  { subst l. destruct (List.length items =? 0) eqn:E.
    - cbn. rewrite Hf. split; [lia | reflexivity].
    - apply Nat.eqb_neq in E. split; [lia | exact Hitems]. }
  destruct Hl as [Hl1 Hl2]. split; [andb_split|].
  - apply Nat.leb_le. rewrite length_firstn. lia.
  - now apply forallb_firstn.
  - apply Nat.leb_le. rewrite length_firstn. lia.
Qed.

Lemma sanitizeArray_within (hi : nat) (arr : JsVal) (fallback : string) (n : nat) :
  1 <= n -> joiString 1 hi fallback = true -> itemsWithin hi arr = true ->
  joiArray (joiString 1 hi) 1 n (Repair.sanitizeArray arr fallback (Some n)) = true.
Proof.
  intros Hn Hf Hi. unfold joiArray.
  destruct (sanitizeArray_filled arr fallback n Hn (joiString_nonEmpty _ _ _ Hf))
    as [Hfilled Hlen].
  unfold filled in Hfilled. apply andb_true_iff in Hfilled as [H1 _].
  andb_split; [|exact H1|exact Hlen].
  unfold Repair.sanitizeArray. apply forallb_firstn.
  destruct (List.length _ =? 0); [cbn [forallb]; now rewrite Hf|].
  destruct arr; try reflexivity. now apply cleaned_within.
Qed.

Lemma sanitizeNeeds_schema (arr : JsVal) :
  joiArray (joiValid needsEnum) 1 3 (Repair.sanitizeNeeds arr) = true.
Proof.
  destruct (sanitizeNeeds_allowed arr) as [Hall [H1 H3]].
  unfold joiArray. andb_split; try (apply Nat.leb_le; assumption).
  apply forallb_forall. intros x Hin. rewrite Forall_forall in Hall.
  unfold joiValid. apply existsb_eqb_In. now apply Hall.
Qed.

Lemma sanitizeProtocol_schema (val : JsVal) :
  joiValid protocols (Repair.sanitizeProtocol val) = true.
Proof. unfold joiValid. apply existsb_eqb_In. apply sanitizeProtocol_spec. Qed.

End RepairFacts.

Lemma repairNarrativeLoop_present (v : JsVal) :
  Js.isNullish v = false ->
  exists nl, repairNarrativeLoop v = Some nl /\ presentNarrativeLoop nl = true /\
    (narrativeLoopLengthsWithin v = true -> narrativeLoopCountsWithin v = true ->
     narrativeLoopSchema nl = true).
Proof.
  intros Hn. unfold repairNarrativeLoop. rewrite Hn.
  eexists. split; [reflexivity|]. split.
  - unfold presentNarrativeLoop.
    cbn [trigger fear emotion outcome whyItFeelsReal hiddenLogic breakingActions mechanisms].
    andb_split;
      first [ now apply sanitizeString_nonEmpty | now apply sanitizeArrayLoop_filled ].
  - intros Hl Hc. unfold narrativeLoopLengthsWithin in Hl.
    unfold narrativeLoopCountsWithin in Hc.
    andb_hyps. andb_hyps.
    unfold narrativeLoopSchema.
    cbn [trigger fear emotion outcome whyItFeelsReal hiddenLogic breakingActions mechanisms].
    andb_split;
      first [ now apply sanitizeString_within
            | apply sanitizeArrayLoop_within; first [lia | reflexivity | assumption] ].
Qed.

Lemma repairSpiessMap_present (v : JsVal) :
  Js.isNullish v = false ->
  exists sp, repairSpiessMap v = Some sp /\ presentSpiessMap sp = true /\
    (spiessMapLengthsWithin v = true -> spiessMapSchema sp = true).
Proof.
  intros Hn. unfold repairSpiessMap. rewrite Hn.
  eexists. split; [reflexivity|]. rewrite !optGet_or_empty. split.
  - unfold presentSpiessMap.
    cbn [sensations emotions needs confirmationBias microTest toolAction
         description timeframe successCriteria protocol steps example].
    andb_split;
      first [ now apply sanitizeString_nonEmpty
            | apply sanitizeArray_filled; first [lia | reflexivity]
            | apply sanitizeNeeds_schema
            | apply sanitizeProtocol_schema ].
  - intros Hl. unfold spiessMapLengthsWithin in Hl. andb_hyps.
    unfold spiessMapSchema.
    cbn [sensations emotions needs confirmationBias microTest toolAction
         description timeframe successCriteria protocol steps example].
    andb_split;
      first [ now apply sanitizeString_within
            | apply sanitizeArray_within; first [lia | reflexivity | assumption]
            | apply sanitizeNeeds_schema
            | apply sanitizeProtocol_schema ].
Qed.

Section PipelineFacts.

Lemma bind_returns {A B} (m : Async A) (f : A -> Async B)
      (h h2 : list Request) (b : B) :
  bind m f h = (Return b, h2) ->
  exists a h1, m h = (Return a, h1) /\ f a h1 = (Return b, h2).
Proof.
  unfold bind. destruct (m h) as [[a | e] h1]; [|discriminate].
  intros H. now exists a, h1.
Qed.

(** A body run under a handler that returns [d] never throws: the
    outcome is what the body returned, or [d]. *)
Lemma tryCatch_default {A} (body : Async A) (d : A) (P : A -> Prop) (h : list Request) :
  P d ->
  (forall a h', body h = (Return a, h') -> P a) ->
  exists a h', tryCatch body (fun _ => ret d) h = (Return a, h') /\ P a.
Proof.
  intros Hd Hb. unfold tryCatch.
  destruct (body h) as [[a | e] h1] eqn:E.
  - exists a, h1. split; [reflexivity | now apply (Hb a h1)].
  - exists d, h1. split; [reflexivity | exact Hd].
Qed.

Lemma joiArray_filled (hi count : nat) (l : list string) :
  joiArray (joiString 1 hi) 1 count l = true -> filled l = true.
Proof.
  unfold joiArray, filled. intros H. andb_hyps.
  andb_split; [assumption|].
  apply forallb_forall. intros s Hin. rewrite forallb_forall in H.
  apply (joiString_nonEmpty 1 hi). now apply H.
Qed.

Lemma joiArray_count (item : string -> bool) (lo count : nat) (l : list string) :
  joiArray item lo count l = true -> (List.length l <=? count) = true.
Proof. unfold joiArray. intros H. now andb_hyps. Qed.

Lemma narrativeLoopSchema_present (nl : NarrativeLoop) :
  narrativeLoopSchema nl = true -> presentNarrativeLoop nl = true.
Proof.
  unfold narrativeLoopSchema, presentNarrativeLoop. intros H. andb_hyps.
  andb_split;
    first [ eapply joiString_nonEmpty; eassumption
          | eapply joiArray_filled; eassumption ].
Qed.

Lemma spiessMapSchema_present (sp : SpiessMap) :
  spiessMapSchema sp = true -> presentSpiessMap sp = true.
Proof.
  unfold spiessMapSchema, presentSpiessMap. intros H. andb_hyps.
  andb_split;
    first [ assumption
          | eapply joiString_nonEmpty; eassumption
          | eapply joiArray_filled; eassumption
          | eapply joiArray_count; eassumption ].
Qed.

Variable JSON_parse : string -> JsVal + string.
Variable openai : Service.

(** [buildNarrativeLoop] always returns, and what it returns has every
    field filled: it is a value the strict schema accepted, a repaired
    one, or the default. *)
Lemma buildNarrativeLoop_present (input : string) (h : list Request) :
  exists nl h',
    buildNarrativeLoop JSON_parse openai input h = (Return nl, h') /\
    presentNarrativeLoop nl = true.
Proof.
  unfold buildNarrativeLoop. apply tryCatch_default; [reflexivity|].
  intros a h' Hb.
  apply bind_returns in Hb as (raw & h1 & _ & Hb).
  apply bind_returns in Hb as (parsed & h2 & _ & Hb).
  cbv zeta in Hb.
  destruct (narrativeLoopSchema (normalizeNarrativeLoop (dataOrEmpty parsed))) eqn:E;
    cbn [negb] in Hb.
  - injection Hb as <- _. now apply narrativeLoopSchema_present.
  - destruct (repairNarrativeLoop_present
                (narrativeLoopObject (normalizeNarrativeLoop (dataOrEmpty parsed))) eq_refl)
      as (r & Hr & Hp & _).
    rewrite Hr in Hb. injection Hb as <- _. exact Hp.
Qed.

Lemma buildSpiessMap_present (narrativeLoop : JsVal) (h : list Request) :
  exists sp h',
    buildSpiessMap JSON_parse openai narrativeLoop h = (Return sp, h') /\
    presentSpiessMap sp = true.
Proof.
  unfold buildSpiessMap. apply tryCatch_default; [reflexivity|].
  intros a h' Hb.
  apply bind_returns in Hb as (raw & h1 & _ & Hb).
  apply bind_returns in Hb as (parsed & h2 & _ & Hb).
  cbv zeta in Hb.
  destruct (spiessMapSchema (normalizeSpiessMap (dataOrEmpty parsed))) eqn:E;
    cbn [negb] in Hb.
  - injection Hb as <- _. now apply spiessMapSchema_present.
  - destruct (repairSpiessMap_present
                (spiessMapObject (normalizeSpiessMap (dataOrEmpty parsed))) eq_refl)
      as (r & Hr & Hp & _).
    rewrite Hr in Hb. injection Hb as <- _. exact Hp.
Qed.

End PipelineFacts.

(** C1, as stated, fails: repair keeps a trimmed string whatever its
    length, so a trigger of 1001 code units survives [repairNarrativeLoop]
    and the strict schema rejects the result; the same happens through
    [buildNarrativeLoop] when the completion is that object, and in
    [repairSpiessMap] for an over-long confirmationBias. *)
Lemma C1_counterexample :
  let longText := JsString.repeat "a" 1001 in
  let loop :=
    JObj [ ("trigger", JStr longText);
           ("fear", JStr "being fired");
           ("emotion", JStr "dread");
           ("outcome", JStr "losing the job");
           ("whyItFeelsReal", JStr "it happened before");
           ("hiddenLogic", JStr "mistakes mean rejection");
           ("breakingActions", JArr [JStr "ask for feedback"]);
           ("mechanisms", JArr [JStr "catastrophizing"]) ] in
  let openai : Service := fun _ _ => Content (Some (Json.interpolate loop)) in
  option_map narrativeLoopSchema (repairNarrativeLoop loop) = Some false /\
  match fst (buildNarrativeLoop JsonReader.parse openai "My boss criticised my work" []) with
  | Return nl => Some (narrativeLoopSchema nl)
  | Throw _ => None
  end = Some false /\
  option_map spiessMapSchema (repairSpiessMap (JObj [("confirmationBias", JStr longText)]))
  = Some false.
Proof. vm_compute. repeat split. Qed.

(** C1, amended.  For every input other than null and undefined,
    [repairNarrativeLoop] and [repairSpiessMap] return a value in which
    every required field is present and not empty, every array has at
    least one entry and no empty entry, the arrays of a SpiessMap have at
    most five entries, its needs are one to three terms of the
    enumeration and its protocol is one of the three; length maxima are
    not enforced, and the strict schema accepts the repaired value when
    the trimmed strings of the input are within them (for a
    NarrativeLoop, when its arrays are within their counts as well).
    [buildNarrativeLoop] and [buildSpiessMap] always return, whatever
    the completion service does, and their values are present and not
    empty in the same sense. *)
Theorem C1_repair_guarantees
  (JSON_parse : string -> JsVal + string) (openai : Service)
  (input : string) (narrativeLoop : JsVal) (h : list Request) (v : JsVal) :
  Js.isNullish v = false ->
  (exists nl, repairNarrativeLoop v = Some nl /\ presentNarrativeLoop nl = true /\
     (narrativeLoopLengthsWithin v = true -> narrativeLoopCountsWithin v = true ->
      narrativeLoopSchema nl = true)) /\
  (exists sp, repairSpiessMap v = Some sp /\ presentSpiessMap sp = true /\
     (spiessMapLengthsWithin v = true -> spiessMapSchema sp = true)) /\
  (exists nl h', buildNarrativeLoop JSON_parse openai input h = (Return nl, h') /\
                 presentNarrativeLoop nl = true) /\
  (exists sp h', buildSpiessMap JSON_parse openai narrativeLoop h = (Return sp, h') /\
                 presentSpiessMap sp = true).
Proof.
  intros Hn. split; [now apply repairNarrativeLoop_present|].
  split; [now apply repairSpiessMap_present|].
  split; [apply buildNarrativeLoop_present | apply buildSpiessMap_present].
Qed.

Lemma C1_witness :
  let openai : Service := fun _ _ => Content (Some "Sorry, I cannot help with that.") in
  let v := JObj [ ("trigger", JStr "  a remark in a meeting ");
                  ("needs", JArr [JStr "happiness"]) ] in
  Js.isNullish v = false /\
  narrativeLoopLengthsWithin v = true /\
  narrativeLoopCountsWithin v = true /\
  spiessMapLengthsWithin v = true /\
  (exists nl, repairNarrativeLoop v = Some nl /\ narrativeLoopSchema nl = true) /\
  (exists sp, repairSpiessMap v = Some sp /\ spiessMapSchema sp = true).
Proof.
  intros openai v.
  assert (Hn : Js.isNullish v = false) by reflexivity.
  assert (Hl : narrativeLoopLengthsWithin v = true) by (vm_compute; reflexivity).
  assert (Hc : narrativeLoopCountsWithin v = true) by (vm_compute; reflexivity).
  assert (Hs : spiessMapLengthsWithin v = true) by (vm_compute; reflexivity).
  destruct (C1_repair_guarantees JsonReader.parse openai "I had a bad day" v [] v Hn)
    as ((nl & Hnl & _ & Hok) & (sp & Hsp & _ & Hsok) & _).
  repeat (split; [assumption|]). split.
  - exists nl. split; [exact Hnl | exact (Hok Hl Hc)].
  - exists sp. split; [exact Hsp | exact (Hsok Hs)].
Defined.

(** ** Runs on concrete inputs *)

Example crisis_golden_input :
  validateInput plainText "2026-01-01T00:00:00.000Z"
    (JStr "I want to kill myself. I can't take this anymore. There's no point in living.")
    true true
  = Crisis (getCrisisResponse "2026-01-01T00:00:00.000Z").
Proof. vm_compute. reflexivity. Qed.

Example plain_input_accepted :
  validateInput plainText "2026-01-01T00:00:00.000Z"
    (JStr "  I had a bad day at work.  ") true true
  = Accepted "I had a bad day at work." 28 24.
Proof. vm_compute. reflexivity. Qed.

Example empty_input_rejected :
  validateInput plainText "2026-01-01T00:00:00.000Z" (JStr "") true true
  = Rejected "Invalid input provided" /\
  validateInput plainText "2026-01-01T00:00:00.000Z" JNull true true
  = Rejected "Invalid input provided".
Proof. split; reflexivity. Qed.

Example all_redactions :
  validateInput plainText "2026-01-01T00:00:00.000Z"
    (JStr "ask John Smith, john@example.com, 555-123-4567, 123-45-6789, 1234 5678 9012 3456")
    false true
  = Accepted
      "ask [NAME_REDACTED], [EMAIL_REDACTED], [PHONE_REDACTED], [SSN_REDACTED], [CARD_REDACTED]"
      80 80.
Proof. vm_compute. reflexivity. Qed.

Example parse_fenced_block :
  safeJsonParse JsonReader.parse
    ("Here is the result: ```json {" ++ quoted "trigger" ++ ": " ++ quoted "a remark"
       ++ "} ``` Hope it helps.")
  = Ok (JObj [("trigger", JStr "a remark")]).
Proof. vm_compute. reflexivity. Qed.

Example parse_brace_region :
  safeJsonParse JsonReader.parse
    ("Result: {" ++ quoted "needs" ++ ": [" ++ quoted "safety" ++ "]} (end})")
  = Ok (JObj [("needs", JArr [JStr "safety"])]).
Proof. vm_compute. reflexivity. Qed.

(** A brace inside a string closes the scan too early; the last resort
    is not tried then, and the error is that of the first parse. *)
Example parse_brace_in_string :
  safeJsonParse JsonReader.parse ("Result: {" ++ quoted "a" ++ ": " ++ quoted "}" ++ "}")
  = Failed "SyntaxError: Unexpected token".
Proof. vm_compute. reflexivity. Qed.

Example parse_nothing :
  safeJsonParse JsonReader.parse "I cannot answer that."
  = Failed "SyntaxError: Unexpected token".
Proof. vm_compute. reflexivity. Qed.

(** Filtering comes before the cut to three entries: the only valid
    need is the fifth entry and it is kept. *)
Example needs_filtered_before_cut :
  option_map needs
    (repairSpiessMap
       (JObj [("needs", JArr [JStr "happiness"; JStr "wealth"; JStr "fame"; JStr "Safety";
                              JStr " growth "])]))
  = Some ["growth"].
Proof. vm_compute. reflexivity. Qed.

Example garbage_completion_repaired :
  fst (buildNarrativeLoop JsonReader.parse
         (fun _ _ => Content (Some "Sorry, I cannot help with that."))
         "I had a bad day at work." [])
  = Return
      {| trigger := "Hypothesis: Trigger not clearly identified";
         fear := "Hypothesis: Fear not clearly identified";
         emotion := "Hypothesis: Emotion not clearly identified";
         outcome := "Hypothesis: Outcome not clearly identified";
         whyItFeelsReal := "Hypothesis: Why it feels real not clearly identified";
         hiddenLogic := "Hypothesis: Hidden logic not clearly identified";
         breakingActions := ["Hypothesis: Breaking action not clearly identified"];
         mechanisms := ["Hypothesis: Mechanism not clearly identified"] |} /\
  List.length (snd (buildNarrativeLoop JsonReader.parse
                      (fun _ _ => Content (Some "Sorry, I cannot help with that."))
                      "I had a bad day at work." [])) = 2.
Proof. vm_compute. split; reflexivity. Qed.

Example failing_service_defaults :
  buildSpiessMap JsonReader.parse (fun _ _ => Throws "Error: 503")
    (narrativeLoopObject getDefaultNarrativeLoop) []
  = (Return getDefaultSpiessMap,
     snd (buildSpiessMap JsonReader.parse (fun _ _ => Throws "Error: 503")
            (narrativeLoopObject getDefaultNarrativeLoop) [])) /\
  spiessMapSchema getDefaultSpiessMap = true /\
  narrativeLoopSchema getDefaultNarrativeLoop = true.
Proof. vm_compute. repeat split. Qed.

Example tags_once_each :
  detectMechanisms
    (JObj [("fear", JStr "Rejection, rejection and more REJECTION");
           ("mechanisms", JArr [JStr "perfectionism"; JStr "Perfectionism"])])
    (JObj [("needs", JArr [JStr "safety"])])
  = ["fear_of_rejection"; "perfectionism"].
Proof. vm_compute. reflexivity. Qed.

(* ===================================================================== *)
(** * Further properties of the code *)
(* ===================================================================== *)

(** ** Trimming and searching *)

Section TextFacts.

Lemma trimStart_head (s : string) : startsWithSpace (trimStart s) = false.
Proof.
  induction s as [|c s IH]; [reflexivity|].
  cbn [trimStart]. destruct (isWhiteSpace c) eqn:E; [exact IH | cbn; exact E].
Qed.

Lemma trimStart_fixed (s : string) : startsWithSpace s = false -> trimStart s = s.
Proof. destruct s as [|c s]; [reflexivity|]. cbn. now intros ->. Qed.

Lemma trimEnd_head (s : string) :
  startsWithSpace s = false -> startsWithSpace (trimEnd s) = false.
Proof.
  destruct s as [|c s]; [reflexivity|]. cbn [startsWithSpace trimEnd]. intros E.
  destruct (trimEnd s); [rewrite E|]; cbn; exact E.
Qed.

Lemma trimEnd_idempotent (s : string) : trimEnd (trimEnd s) = trimEnd s.
Proof.
  induction s as [|c s IH]; [reflexivity|].
  rewrite trimEnd_cons. destruct (trimEnd s) as [|d r] eqn:E.
  - destruct (isWhiteSpace c) eqn:W; [reflexivity|]. cbn. now rewrite W.
  - rewrite trimEnd_cons, IH. reflexivity.
Qed.

Lemma trim_head (s : string) : startsWithSpace (trim s) = false.
Proof. unfold trim. apply trimEnd_head, trimStart_head. Qed.

Lemma trim_idempotent (s : string) : trim (trim s) = trim s.
Proof.
  unfold trim at 1. rewrite (trimStart_fixed _ (trim_head s)).
  unfold trim. apply trimEnd_idempotent.
Qed.

Lemma trimmedText_trim (s : string) : trimmedText (trim s) = true.
Proof. unfold trimmedText. rewrite trim_idempotent. apply String.eqb_refl. Qed.

Lemma trimmedText_eq (s : string) : trimmedText s = true -> trim s = s.
Proof. unfold trimmedText. apply String.eqb_eq. Qed.

Lemma prefix_split (t s : string) :
  String.prefix t s = true -> exists b, s = t ++ b.
Proof.
  revert s. induction t as [|c t IH]; intros s H.
  - now exists s.
  - destruct s as [|d s]; [discriminate|]. cbn in H.
    destruct (ascii_dec c d) as [->|]; [|discriminate].
    destruct (IH s H) as (b & ->). now exists b.
Qed.

Lemma includes_split (s t : string) :
  includes s t = true -> exists a b, s = a ++ t ++ b.
Proof.
  induction s as [|c s IH]; cbn [includes]; intros H.
  - rewrite orb_false_r in H. apply prefix_split in H as (b & ->).
    now exists EmptyString, b.
  - apply orb_true_iff in H as [H | H].
    + apply prefix_split in H as (b & ->). now exists EmptyString, b.
    + destruct (IH H) as (a & b & ->). now exists (String c a), b.
Qed.

Lemma includes_context (pre s post t : string) :
  includes s t = true -> includes (pre ++ s ++ post) t = true.
Proof.
  intros H. apply includes_split in H as (a & b & ->).
  replace (pre ++ (a ++ t ++ b) ++ post) with ((pre ++ a) ++ t ++ (b ++ post))
    by (now rewrite !append_assoc).
  apply includes_app.
Qed.

Lemma substring_length_le (n : nat) (s : string) :
  String.length (String.substring 0 n s) <= n.
Proof.
  revert s. induction n as [|n IH]; intros [|c s]; cbn; try lia.
  specialize (IH s). lia.
Qed.

Lemma substring_head (n : nat) (s : string) :
  startsWithSpace s = false -> startsWithSpace (String.substring 0 n s) = false.
Proof. destruct n, s; cbn; auto. Qed.

End TextFacts.

(** X1.  Whatever the sanitizer returns, the text [sanitizeInput] hands
    on has at most 10000 code units and does not begin with white space. *)
Theorem sanitizeInput_bounded (sanitizeHtml : string -> string) (input : string) :
  String.length (sanitizeInput sanitizeHtml input) <= 10000 /\
  startsWithSpace (sanitizeInput sanitizeHtml input) = false.
Proof.
  unfold sanitizeInput. destruct (isEmpty input).
  - split; [cbn; lia | reflexivity].
  - split; [apply substring_length_le | apply substring_head, trim_head].
Qed.

(** ** Replacement and search *)

Section SearchFacts.

Variable re : RegExp.

Lemma replaceWalk_no_match (replacement : string) (s : string) :
  forall pv i, search re pv i s = None ->
               replaceWalk re replacement false pv i 0 s = s.
Proof.
  induction s as [|c s IH]; intros pv i H; cbn [search] in H; cbn [replaceWalk].
  - destruct (matchAt re pv i EmptyString); [discriminate | reflexivity].
  - destruct (matchAt re pv i (String c s)); [discriminate|].
    now rewrite (IH _ _ H).
Qed.

(** A text in which the pattern does not occur is left as it is. *)
Lemma replace_no_match (replacement s : string) :
  occursIn re s = false -> replace re replacement s = s.
Proof.
  unfold occursIn, replace. intros H. apply replaceWalk_no_match.
  destruct (search re None 0 s); [discriminate | reflexivity].
Qed.

End SearchFacts.

(** X2.  [redactPII] changes nothing in a text in which none of its
    patterns occurs (the name pattern counting only when names are to
    be redacted). *)
Theorem redactPII_keeps_clean_text (text : string) (redactNames : bool) :
  occursIn (email piiPatterns) text = false ->
  occursIn (phone piiPatterns) text = false ->
  occursIn (ssn piiPatterns) text = false ->
  occursIn (creditCard piiPatterns) text = false ->
  (redactNames = true -> occursIn (name piiPatterns) text = false) ->
  redactPII text redactNames = text.
Proof.
  intros He Hp Hs Hc Hn. unfold redactPII.
  destruct (isEmpty text) eqn:E; [now destruct text|].
  rewrite (replace_no_match _ _ _ He), (replace_no_match _ _ _ Hp),
    (replace_no_match _ _ _ Hs), (replace_no_match _ _ _ Hc).
  destruct redactNames; [|reflexivity].
  now rewrite (replace_no_match _ _ _ (Hn eq_refl)).
Qed.

Lemma redactPII_keeps_clean_text_witness :
  let text := "my manager keeps checking on me at 9 and at 17" in
  occursIn (email piiPatterns) text = false /\
  redactPII text true = text.
Proof.
  intros text.
  assert (He : occursIn (email piiPatterns) text = false) by (vm_compute; reflexivity).
  split; [exact He|].
  apply (redactPII_keeps_clean_text text true He); vm_compute; reflexivity.
Defined.

(** ** Detection inside a larger text *)

Section ContextFacts.

(** Running a context-free pattern on a text with more text after it,
    from any position, succeeds when the run on the text alone did. *)
Lemma matchP_context (ic : bool) (post : string) (p : Pattern) :
  contextFree p = true ->
  forall (x x' : MatchState) (c c' : MatchState -> option MatchState),
    rest x' = rest x ++ post ->
    (forall y y', rest y' = rest y ++ post -> c y <> None -> c' y' <> None) ->
    matchP ic p x c <> None -> matchP ic p x' c' <> None.
Proof.
  induction p as [| a | neg items | p1 IH1 p2 IH2 | p1 IH1 p2 IH2
                  | p1 IH1 mn mx g | n p1 IH1 |];
    intros Hcf x x' c c' Hx Hc; cbn [contextFree] in Hcf; try discriminate.
  - cbn [matchP]. now apply Hc.
  - cbn [matchP]. rewrite Hx. destruct (rest x) as [|b r]; [congruence|].
    cbn [String.append].
    destruct (Ascii.eqb (canonicalize ic a) (canonicalize ic b)); [|congruence].
    now apply Hc.
  - cbn [matchP]. rewrite Hx. destruct (rest x) as [|b r]; [congruence|].
    cbn [String.append].
    destruct (xorb neg (classHas ic items b)); [|congruence].
    now apply Hc.
  - apply andb_true_iff in Hcf as [H1 H2]. cbn [matchP].
    apply (IH1 H1 x x' _ _ Hx).
    intros y y' Hy. now apply (IH2 H2 y y' c c' Hy).
  - apply andb_true_iff in Hcf as [H1 H2]. cbn [matchP]. unfold orElse.
    intros H.
    destruct (matchP ic p1 x c) eqn:E1.
    + assert (H' : matchP ic p1 x' c' <> None)
        by (apply (IH1 H1 x x' c c' Hx Hc); congruence).
      destruct (matchP ic p1 x' c'); congruence.
    + destruct (matchP ic p1 x' c'); [congruence|].
      now apply (IH2 H2 x x' c c' Hx Hc).
  - cbn [matchP]. apply (IH1 Hcf x x' _ _ Hx).
    intros y y' Hy. apply Hc. exact Hy.
Qed.

Variable re : RegExp.
Hypothesis re_contextFree : contextFree (pattern re) = true.

Lemma matchAt_context (pv pv' : option ascii) (i i' : nat) (s post : string) :
  matchAt re pv i s <> None -> matchAt re pv' i' (s ++ post) <> None.
Proof.
  unfold matchAt. apply (matchP_context (ignoreCase re) post _ re_contextFree).
  - reflexivity.
  - intros y y' _ _. discriminate.
Qed.

Lemma search_found (s : string) :
  forall pv i, search re pv i s <> None ->
    exists a u pv' i', s = a ++ u /\ matchAt re pv' i' u <> None.
Proof.
  induction s as [|c s IH]; intros pv i H; cbn [search] in H.
  - destruct (matchAt re pv i EmptyString) eqn:E; [|congruence].
    exists EmptyString, EmptyString, pv, i. split; [reflexivity | congruence].
  - destruct (matchAt re pv i (String c s)) eqn:E.
    + exists EmptyString, (String c s), pv, i. split; [reflexivity | congruence].
    + destruct (IH _ _ H) as (a & u & pv' & i' & -> & Hm).
      exists (String c a), u, pv', i'. split; [reflexivity | exact Hm].
Qed.

Lemma search_reaches (a u : string) (pv0 : option ascii) (i0 : nat) :
  matchAt re pv0 i0 u <> None ->
  forall pv i, search re pv i (a ++ u) <> None.
Proof.
  intros Hm. induction a as [|c a IH]; intros pv i.
  - cbn [String.append].
    assert (H : matchAt re pv i u <> None).
    { rewrite <- (append_empty_r u). now apply (matchAt_context pv0 pv i0 i u). }
    destruct u; cbn [search]; destruct (matchAt re pv i _); congruence.
  - cbn [String.append search].
    destruct (matchAt re pv i (String c (a ++ u))); [congruence | apply IH].
Qed.

(** A context-free pattern found in a text is found in every text that
    contains it. *)
Lemma test_context (pre s post : string) :
  test re s = true -> test re (pre ++ s ++ post) = true.
Proof.
  unfold test, exec. intros H.
  destruct (search re None 0 s) eqn:E; [|discriminate].
  assert (Hs : search re None 0 s <> None) by congruence.
  apply search_found in Hs as (a & u & pv' & i' & -> & Hm).
  assert (Hm' : matchAt re pv' i' (u ++ post) <> None)
    by (now apply (matchAt_context pv' pv' i' i')).
  pose proof (search_reaches (pre ++ a) (u ++ post) pv' i' Hm' None 0) as Hr.
  replace (pre ++ (a ++ u) ++ post) with ((pre ++ a) ++ u ++ post)
    by (now rewrite !append_assoc).
  destruct (search re None 0 ((pre ++ a) ++ u ++ post)); congruence.
Qed.

End ContextFacts.

Lemma crisisPatterns_contextFree :
  forallb (fun re => contextFree (pattern re)) crisisPatterns = true.
Proof. reflexivity. Qed.

Lemma injectionPatterns_contextFree :
  forallb (fun re => contextFree (pattern re)) promptInjectionPatterns = true.
Proof. reflexivity. Qed.

Lemma isEmpty_context (pre s post : string) :
  isEmpty s = false -> isEmpty (pre ++ s ++ post) = false.
Proof. destruct pre; [|reflexivity]. destruct s; [discriminate | reflexivity]. Qed.

Lemma detectCrisis_context (pre s post : string) :
  detectCrisis s = true -> detectCrisis (pre ++ s ++ post) = true.
Proof.
  unfold detectCrisis. destruct (isEmpty s) eqn:E; [discriminate|].
  rewrite (isEmpty_context pre s post E). intros H.
  apply orb_true_iff in H as [H | H]; apply orb_true_iff; [left | right];
    apply existsb_exists in H as (x & Hin & Hx); apply existsb_exists; exists x;
    (split; [exact Hin|]).
  - rewrite !toLowerCase_app. now apply includes_context.
  - pose proof crisisPatterns_contextFree as Hcf. rewrite forallb_forall in Hcf.
    now apply (test_context x (Hcf x Hin)).
Qed.

Lemma detectPromptInjection_context (pre s post : string) :
  detectPromptInjection s = true -> detectPromptInjection (pre ++ s ++ post) = true.
Proof.
  unfold detectPromptInjection. destruct (isEmpty s) eqn:E; [discriminate|].
  rewrite (isEmpty_context pre s post E). intros H.
  apply existsb_exists in H as (x & Hin & Hx). apply existsb_exists. exists x.
  split; [exact Hin|].
  pose proof injectionPatterns_contextFree as Hcf. rewrite forallb_forall in Hcf.
  now apply (test_context x (Hcf x Hin)).
Qed.

(** X3.  A text that [detectCrisis] flags stays a crisis inside any
    larger text: whatever is written before or after it, [validateInput]
    answers with the crisis response. *)
Theorem crisis_survives_context
  (sanitizeHtml : string -> string) (now pre s post : string)
  (storageOptIn redactNames : bool) :
  detectCrisis s = true ->
  validateInput sanitizeHtml now (JStr (pre ++ s ++ post)) storageOptIn redactNames
  = Crisis (getCrisisResponse now).
Proof.
  intros H. apply crisis_exit. now apply detectCrisis_context.
Qed.

Lemma crisis_survives_context_witness :
  detectCrisis "i can't take it anymore" = true /\
  validateInput plainText "2026-01-01T00:00:00.000Z"
    (JStr ("Honestly, " ++ "i can't take it anymore" ++ ", but thanks for asking.")) true false
  = Crisis (getCrisisResponse "2026-01-01T00:00:00.000Z").
Proof.
  assert (H : detectCrisis "i can't take it anymore" = true) by (vm_compute; reflexivity).
  split; [exact H|].
  exact (crisis_survives_context plainText "2026-01-01T00:00:00.000Z" "Honestly, "
           "i can't take it anymore" ", but thanks for asking." true false H).
Defined.

(** X4.  A text that [detectPromptInjection] flags is never accepted
    inside a larger text: the result is the crisis response or the
    rejection "Invalid input detected", and no processed input exists. *)
Theorem injection_never_accepted
  (sanitizeHtml : string -> string) (now pre s post : string)
  (storageOptIn redactNames : bool) :
  detectPromptInjection s = true ->
  let r := validateInput sanitizeHtml now (JStr (pre ++ s ++ post))
             storageOptIn redactNames in
  (r = Crisis (getCrisisResponse now) \/ r = Rejected "Invalid input detected") /\
  processedInput r = None.
Proof.
  intros H r. subst r.
  apply (detectPromptInjection_context pre s post) in H.
  destruct (detectCrisis (pre ++ s ++ post)) eqn:E.
  - rewrite (crisis_exit sanitizeHtml now _ storageOptIn redactNames E).
    split; [now left | reflexivity].
  - rewrite (injection_exit sanitizeHtml now _ storageOptIn redactNames E H).
    split; [now right | reflexivity].
Qed.

Lemma injection_never_accepted_witness :
  detectPromptInjection "Pretend to be" = true /\
  validateInput plainText "2026-01-01T00:00:00.000Z"
    (JStr ("My boss said: " ++ "Pretend to be" ++ " fine with it.")) false true
  = Rejected "Invalid input detected".
Proof.
  assert (H : detectPromptInjection "Pretend to be" = true) by (vm_compute; reflexivity).
  split; [exact H|].
  destruct (injection_never_accepted plainText "2026-01-01T00:00:00.000Z"
              "My boss said: " "Pretend to be" " fine with it." false true H)
    as [[Hc | Hr] _]; [|exact Hr].
  vm_compute in Hc. discriminate Hc.
Defined.

(** ** Normalization and repair as projections *)

Section CleanFacts.

Lemma toLowerChar_space (c : ascii) : isWhiteSpace (toLowerChar c) = isWhiteSpace c.
Proof. destruct c as [[] [] [] [] [] [] [] []]; reflexivity. Qed.

Lemma toLowerChar_idempotent (c : ascii) : toLowerChar (toLowerChar c) = toLowerChar c.
Proof. destruct c as [[] [] [] [] [] [] [] []]; reflexivity. Qed.

Lemma toLowerCase_idempotent (s : string) : toLowerCase (toLowerCase s) = toLowerCase s.
Proof.
  induction s as [|c s IH]; cbn; [reflexivity|].
  now rewrite toLowerChar_idempotent, IH.
Qed.

Lemma trimStart_lower (s : string) : trimStart (toLowerCase s) = toLowerCase (trimStart s).
Proof.
  induction s as [|c s IH]; [reflexivity|].
  cbn [toLowerCase trimStart]. rewrite toLowerChar_space.
  destruct (isWhiteSpace c); [exact IH | reflexivity].
Qed.

Lemma trimEnd_lower (s : string) : trimEnd (toLowerCase s) = toLowerCase (trimEnd s).
Proof.
  induction s as [|c s IH]; [reflexivity|].
  cbn [toLowerCase]. rewrite !trimEnd_cons, IH, toLowerChar_space.
  destruct (trimEnd s); cbn [toLowerCase]; [destruct (isWhiteSpace c)|]; reflexivity.
Qed.

Lemma trim_lower (s : string) : trim (toLowerCase s) = toLowerCase (trim s).
Proof. unfold trim. now rewrite trimStart_lower, trimEnd_lower. Qed.

Lemma nonEmpty_lower (s : string) : nonEmpty (toLowerCase s) = nonEmpty s.
Proof. now destruct s. Qed.

Lemma cleanList_intro (l : list string) :
  (forall s, In s l -> trim s = s /\ nonEmpty s = true) -> cleanList l = true.
Proof.
  intros H. apply forallb_forall. intros s Hin. destruct (H s Hin) as [Ht Hn].
  unfold trimmedText. rewrite Ht, String.eqb_refl. exact Hn.
Qed.

Lemma cleanList_elim (l : list string) (s : string) :
  cleanList l = true -> In s l -> trim s = s /\ nonEmpty s = true.
Proof.
  unfold cleanList. rewrite forallb_forall. intros H Hin.
  apply H in Hin. apply andb_true_iff in Hin as [Ht Hn].
  split; [now apply trimmedText_eq | exact Hn].
Qed.

Lemma cleanList_firstn (n : nat) (l : list string) :
  cleanList l = true -> cleanList (firstn n l) = true.
Proof. apply forallb_firstn. Qed.

Lemma cleanList_lower (l : list string) :
  cleanList l = true -> cleanList (map toLowerCase l) = true.
Proof.
  intros H. apply cleanList_intro. intros s Hin.
  apply in_map_iff in Hin as (t & <- & Ht).
  destruct (cleanList_elim l t H Ht) as [H1 H2].
  now rewrite trim_lower, H1, nonEmpty_lower.
Qed.

Lemma normalize_string_trimmed (v : JsVal) :
  trimmedText (Normalize.sanitizeString v) = true.
Proof. destruct v; try reflexivity. apply trimmedText_trim. Qed.

Lemma normalize_array_clean (v : JsVal) : cleanList (Normalize.sanitizeArray v) = true.
Proof.
  destruct v; try reflexivity. apply cleanList_intro. intros s Hin.
  apply filter_In in Hin as [Hin Hs]. apply in_map_iff in Hin as (x & <- & _).
  split; [|exact Hs]. apply trimmedText_eq, normalize_string_trimmed.
Qed.

Lemma normalize_array_fixed (l : list string) :
  cleanList l = true -> Normalize.sanitizeArray (strings l) = l.
Proof.
  unfold Normalize.sanitizeArray, strings. induction l as [|s l IH]; [reflexivity|].
  cbn [cleanList forallb map filter Normalize.sanitizeString]. intros H.
  apply andb_true_iff in H as [Hs Hl]. apply andb_true_iff in Hs as [Ht Hn].
  rewrite (trimmedText_eq _ Ht). unfold nonEmpty in Hn. rewrite Hn.
  f_equal. now apply IH.
Qed.

Lemma repaired_cleaned_clean (items : list JsVal) : cleanList (Repair.cleaned items) = true.
Proof.
  apply cleanList_intro. intros s Hin. unfold Repair.cleaned in Hin.
  apply filter_In in Hin as [Hin Hs]. apply in_map_iff in Hin as (x & <- & _).
  split; [|now rewrite nonEmpty_length].
  destruct x; try reflexivity. apply trim_idempotent.
Qed.

Lemma repaired_cleaned_fixed (l : list string) :
  cleanList l = true -> Repair.cleaned (map JStr l) = l.
Proof.
  unfold Repair.cleaned. induction l as [|s l IH]; [reflexivity|].
  cbn [cleanList forallb map filter Repair.trimmed]. intros H.
  apply andb_true_iff in H as [Hs Hl]. apply andb_true_iff in Hs as [Ht Hn].
  rewrite (trimmedText_eq _ Ht). rewrite nonEmpty_length in Hn. rewrite Hn.
  f_equal. now apply IH.
Qed.

Lemma repair_string_fixed (s fallback : string) :
  trimmedText s = true -> nonEmpty s = true ->
  Repair.sanitizeString (JStr s) fallback = s.
Proof.
  intros Ht Hn. unfold Repair.sanitizeString. cbn [Repair.trimmed].
  rewrite (trimmedText_eq _ Ht). rewrite nonEmpty_length in Hn. now rewrite Hn.
Qed.

Lemma repair_string_trimmed (v : JsVal) (fallback : string) :
  trimmedText fallback = true ->
  trimmedText (Repair.sanitizeString v fallback) = true.
Proof.
  intros Hf. unfold Repair.sanitizeString.
  destruct (0 <? String.length (Repair.trimmed v)); [|exact Hf].
  destruct v; try reflexivity. apply trimmedText_trim.
Qed.

Lemma filled_elim (l : list string) : filled l = true -> 1 <= List.length l.
Proof. unfold filled. intros H. apply andb_true_iff in H as [H _]. now apply Nat.leb_le. Qed.

Lemma repair_loop_array_fixed (l : list string) (fallback : string) :
  cleanList l = true -> filled l = true ->
  Repair.sanitizeArrayLoop (strings l) fallback = l.
Proof.
  intros Hc Hf. unfold Repair.sanitizeArrayLoop, strings.
  rewrite (repaired_cleaned_fixed l Hc).
  apply filled_elim in Hf. destruct l; [cbn in Hf; lia | reflexivity].
Qed.

Lemma repair_array_fixed (l : list string) (fallback : string) (n : nat) :
  cleanList l = true -> filled l = true -> (List.length l <=? n) = true ->
  Repair.sanitizeArray (strings l) fallback (Some n) = l.
Proof.
  intros Hc Hf Hn. unfold Repair.sanitizeArray, strings.
  rewrite (repaired_cleaned_fixed l Hc).
  apply filled_elim in Hf. apply Nat.leb_le in Hn.
  destruct l as [|s l]; [cbn in Hf; lia|].
  cbn [List.length Nat.eqb]. now apply firstn_all2.
Qed.

Lemma repair_array_clean (v : JsVal) (fallback : string) (max : option nat) :
  trimmedText fallback && nonEmpty fallback = true ->
  cleanList (Repair.sanitizeArray v fallback max) = true.
Proof.
  intros Hf. unfold Repair.sanitizeArray.
  set (items := Repair.cleaned _).
  assert (H : cleanList (if List.length items =? 0 then [fallback] else items) = true).
  { destruct (List.length items =? 0); [cbn; now rewrite Hf|].
    apply repaired_cleaned_clean. }
  destruct max; [now apply cleanList_firstn | exact H].
Qed.

Lemma repair_loop_array_clean (v : JsVal) (fallback : string) :
  trimmedText fallback && nonEmpty fallback = true ->
  cleanList (Repair.sanitizeArrayLoop v fallback) = true.
Proof.
  intros Hf. unfold Repair.sanitizeArrayLoop.
  assert (Hfb : cleanList [fallback] = true) by (cbn; now rewrite Hf).
  destruct v; try exact Hfb.
  destruct (0 <? List.length (Repair.cleaned items)); [|exact Hfb].
  apply repaired_cleaned_clean.
Qed.

Lemma needsEnum_clean : cleanList needsEnum = true.
Proof. reflexivity. Qed.

Lemma repair_needs_clean (v : JsVal) : cleanList (Repair.sanitizeNeeds v) = true.
Proof.
  apply cleanList_intro. intros s Hin.
  destruct (sanitizeNeeds_allowed v) as [Hall _]. rewrite Forall_forall in Hall.
  exact (cleanList_elim needsEnum s needsEnum_clean (Hall s Hin)).
Qed.

Lemma repair_needs_fixed (l : list string) :
  joiArray (joiValid needsEnum) 1 3 l = true -> Repair.sanitizeNeeds (strings l) = l.
Proof.
  unfold joiArray. intros H. andb_hyps.
  assert (Hin : forall s, In s l -> In s needsEnum).
  { intros s Hs. rewrite forallb_forall in H. apply existsb_eqb_In. now apply H. }
  assert (Hc : cleanList l = true).
  { apply cleanList_intro. intros s Hs.
    exact (cleanList_elim needsEnum s needsEnum_clean (Hin s Hs)). }
  unfold Repair.sanitizeNeeds, strings, Repair.allowedNeeds.
  assert (Hf : filter (fun v => existsb (String.eqb v) needsEnum) (map Repair.trimmed (map JStr l))
               = l).
  { clear - Hin Hc. induction l as [|s l IH]; [reflexivity|].
    cbn [map filter Repair.trimmed].
    destruct (cleanList_elim (s :: l) s Hc (or_introl eq_refl)) as [Ht _].
    rewrite Ht.
    assert (Hs : existsb (String.eqb s) needsEnum = true)
      by (apply existsb_eqb_In, Hin; now left).
    rewrite Hs. f_equal. apply IH.
    - intros t Ht'. apply Hin. now right.
    - cbn [cleanList forallb] in Hc. now apply andb_true_iff in Hc as [_ Hc]. }
  rewrite Hf.
  match goal with H : (1 <=? _) = true |- _ => apply Nat.leb_le in H end.
  match goal with H : (_ <=? 3) = true |- _ => apply Nat.leb_le in H end.
  destruct l; [cbn in *; lia|].
  cbn [List.length Nat.ltb Nat.leb]. now apply firstn_all2.
Qed.

Lemma protocols_clean : cleanList protocols = true.
Proof. reflexivity. Qed.

Lemma repair_protocol_fixed (s : string) :
  joiValid protocols s = true -> Repair.sanitizeProtocol (JStr s) = s.
Proof.
  unfold joiValid. intros H.
  assert (Ht : trim s = s).
  { apply existsb_eqb_In in H. exact (proj1 (cleanList_elim protocols s protocols_clean H)). }
  unfold Repair.sanitizeProtocol. cbn [Repair.trimmed]. rewrite Ht.
  change ["STOP"; "Values First"; "Bridge Belief"] with protocols. now rewrite H.
Qed.

Lemma repair_protocol_trimmed (v : JsVal) :
  trimmedText (Repair.sanitizeProtocol v) = true.
Proof.
  destruct (sanitizeProtocol_spec v) as [Hin _].
  destruct (cleanList_elim protocols _ protocols_clean Hin) as [Ht _].
  unfold trimmedText. rewrite Ht. apply String.eqb_refl.
Qed.

End CleanFacts.

Lemma normalizeNarrativeLoop_clean (v : JsVal) :
  cleanNarrativeLoop (normalizeNarrativeLoop v) = true.
Proof.
  unfold cleanNarrativeLoop, normalizeNarrativeLoop.
  cbn [trigger fear emotion outcome whyItFeelsReal hiddenLogic breakingActions mechanisms].
  andb_split; first [apply normalize_string_trimmed | apply normalize_array_clean].
Qed.

Lemma normalizeNarrativeLoop_fixed (nl : NarrativeLoop) :
  cleanNarrativeLoop nl = true ->
  normalizeNarrativeLoop (narrativeLoopObject nl) = nl.
Proof.
  unfold cleanNarrativeLoop. intros H. andb_hyps. destruct nl.
  unfold normalizeNarrativeLoop, narrativeLoopObject.
  cbn [Js.optGet Js.lookup String.eqb Ascii.eqb Bool.eqb
       trigger fear emotion outcome whyItFeelsReal hiddenLogic breakingActions mechanisms] in *.
  cbn [Normalize.sanitizeString].
  repeat match goal with
         | H : trimmedText _ = true |- _ => apply trimmedText_eq in H; rewrite H
         | H : cleanList _ = true |- _ => rewrite (normalize_array_fixed _ H); clear H
         end.
  reflexivity.
Qed.

Lemma normalizeSpiessMap_clean (v : JsVal) :
  cleanSpiessMap (normalizeSpiessMap v) = true.
Proof.
  unfold cleanSpiessMap, normalizeSpiessMap.
  cbn [sensations emotions needs confirmationBias microTest toolAction
       description timeframe successCriteria protocol steps example].
  andb_split;
    first [ apply normalize_string_trimmed
          | apply normalize_array_clean
          | apply cleanList_lower, normalize_array_clean ].
Qed.

(** X5.  Normalizing a normalized value changes nothing, for a
    NarrativeLoop and for a SpiessMap, whatever the first input was. *)
Theorem normalize_idempotent (v : JsVal) :
  normalizeNarrativeLoop (narrativeLoopObject (normalizeNarrativeLoop v))
  = normalizeNarrativeLoop v /\
  normalizeSpiessMap (spiessMapObject (normalizeSpiessMap v))
  = normalizeSpiessMap v.
Proof.
  split; [apply normalizeNarrativeLoop_fixed, normalizeNarrativeLoop_clean|].
  pose proof (normalizeSpiessMap_clean v) as H.
  unfold cleanSpiessMap in H. andb_hyps.
  unfold normalizeSpiessMap at 1. unfold spiessMapObject.
  cbn [Js.optGet Js.lookup String.eqb Ascii.eqb Bool.eqb].
  cbn [Normalize.sanitizeString].
  repeat match goal with
         | H : trimmedText _ = true |- _ => apply trimmedText_eq in H; rewrite H
         | H : cleanList _ = true |- _ => rewrite (normalize_array_fixed _ H); clear H
         end.
  assert (Hn : map toLowerCase (needs (normalizeSpiessMap v)) = needs (normalizeSpiessMap v)).
  { cbn [needs normalizeSpiessMap]. rewrite map_map.
    apply map_ext. intros s. apply toLowerCase_idempotent. }
  rewrite Hn. now destruct (normalizeSpiessMap v) as [? ? ? ? [] []].
Qed.

Lemma repairNarrativeLoop_fixed (nl : NarrativeLoop) :
  cleanNarrativeLoop nl = true -> presentNarrativeLoop nl = true ->
  repairNarrativeLoop (narrativeLoopObject nl) = Some nl.
Proof.
  unfold cleanNarrativeLoop, presentNarrativeLoop. intros Hc Hp. andb_hyps.
  destruct nl. unfold repairNarrativeLoop, narrativeLoopObject.
  cbn [Js.isNullish Js.optGet Js.lookup String.eqb Ascii.eqb Bool.eqb
       trigger fear emotion outcome whyItFeelsReal hiddenLogic breakingActions mechanisms] in *.
  rewrite !repair_string_fixed by assumption.
  change (JArr (map JStr ?l)) with (strings l).
  rewrite !repair_loop_array_fixed by assumption.
  reflexivity.
Qed.

Lemma repairSpiessMap_fixed (sp : SpiessMap) :
  cleanSpiessMap sp = true -> presentSpiessMap sp = true ->
  repairSpiessMap (spiessMapObject sp) = Some sp.
Proof.
  unfold cleanSpiessMap, presentSpiessMap. intros Hc Hp. andb_hyps.
  destruct sp as [? ? ? ? [] []]. unfold repairSpiessMap, spiessMapObject.
  cbn [Js.isNullish Js.optGet Js.lookup Js.or Js.truthy String.eqb Ascii.eqb Bool.eqb
       sensations emotions needs confirmationBias microTest toolAction
       description timeframe successCriteria protocol steps example] in *.
  rewrite !repair_string_fixed by assumption.
  rewrite repair_needs_fixed by assumption.
  rewrite repair_protocol_fixed by assumption.
  rewrite !repair_array_fixed by assumption.
  reflexivity.
Qed.

(** X6.  Repair leaves alone what normalization left in order: when
    every field of the normalized NarrativeLoop is present and not empty
    the repaired value is that same value, and likewise for a normalized
    SpiessMap whose counts and enumerated fields are in order.  This
    holds also when the strict schema rejected the value for its
    lengths. *)
Theorem repair_keeps_present_values (v : JsVal) :
  (presentNarrativeLoop (normalizeNarrativeLoop v) = true ->
   repairNarrativeLoop (narrativeLoopObject (normalizeNarrativeLoop v))
   = Some (normalizeNarrativeLoop v)) /\
  (presentSpiessMap (normalizeSpiessMap v) = true ->
   repairSpiessMap (spiessMapObject (normalizeSpiessMap v))
   = Some (normalizeSpiessMap v)).
Proof.
  split; intros H.
  - now apply repairNarrativeLoop_fixed; [apply normalizeNarrativeLoop_clean|].
  - now apply repairSpiessMap_fixed; [apply normalizeSpiessMap_clean|].
Qed.

Lemma repair_keeps_present_values_witness :
  let v :=
    JObj [ ("trigger", JStr " my boss called me in ");
           ("fear", JStr "being fired");
           ("emotion", JStr "dread");
           ("outcome", JStr "losing the job");
           ("whyItFeelsReal", JStr "it happened before");
           ("hiddenLogic", JStr "mistakes mean rejection");
           ("breakingActions",
             JArr [JStr "a"; JStr "b"; JStr "c"; JStr "d"; JStr "e"; JStr "f"]);
           ("mechanisms", JArr [JStr "catastrophizing"; JNum 4]) ] in
  presentNarrativeLoop (normalizeNarrativeLoop v) = true /\
  narrativeLoopSchema (normalizeNarrativeLoop v) = false /\
  repairNarrativeLoop (narrativeLoopObject (normalizeNarrativeLoop v))
  = Some (normalizeNarrativeLoop v).
Proof.
  intros v.
  assert (H : presentNarrativeLoop (normalizeNarrativeLoop v) = true)
    by (vm_compute; reflexivity).
  split; [exact H|]. split; [vm_compute; reflexivity|].
  exact (proj1 (repair_keeps_present_values v) H).
Defined.

Lemma repairNarrativeLoop_clean (v : JsVal) (nl : NarrativeLoop) :
  repairNarrativeLoop v = Some nl -> cleanNarrativeLoop nl = true.
Proof.
  unfold repairNarrativeLoop. destruct (Js.isNullish v); [discriminate|].
  intros H. injection H as <-. unfold cleanNarrativeLoop.
  cbn [trigger fear emotion outcome whyItFeelsReal hiddenLogic breakingActions mechanisms].
  andb_split;
    first [ now apply repair_string_trimmed | now apply repair_loop_array_clean ].
Qed.

Lemma repairSpiessMap_clean (v : JsVal) (sp : SpiessMap) :
  repairSpiessMap v = Some sp -> cleanSpiessMap sp = true.
Proof.
  intros H.
  assert (G : match repairSpiessMap v with
              | Some sp' => cleanSpiessMap sp' = true
              | None => True
              end).
  { unfold repairSpiessMap. destruct (Js.isNullish v); [exact I|].
    unfold cleanSpiessMap.
    cbn [sensations emotions needs confirmationBias microTest toolAction
         description timeframe successCriteria protocol steps example].
    andb_split;
      first [ now apply repair_string_trimmed
            | now apply repair_array_clean
            | apply repair_needs_clean
            | apply repair_protocol_trimmed ]. }
  rewrite H in G. exact G.
Qed.

(** X7.  Repair is idempotent: repairing a repaired NarrativeLoop or
    SpiessMap returns it unchanged. *)
Theorem repair_idempotent (v : JsVal) :
  match repairNarrativeLoop v with
  | Some nl => repairNarrativeLoop (narrativeLoopObject nl) = Some nl
  | None => Js.isNullish v = true
  end /\
  match repairSpiessMap v with
  | Some sp => repairSpiessMap (spiessMapObject sp) = Some sp
  | None => Js.isNullish v = true
  end.
Proof.
  destruct (Js.isNullish v) eqn:Hn.
  - unfold repairNarrativeLoop, repairSpiessMap. rewrite Hn. split; reflexivity.
  - destruct (repairNarrativeLoop_present v Hn) as (nl & Hnl & Hp & _).
    destruct (repairSpiessMap_present v Hn) as (sp & Hsp & Hps & _).
    rewrite Hnl, Hsp. split.
    + apply repairNarrativeLoop_fixed; [now apply (repairNarrativeLoop_clean v)|exact Hp].
    + apply repairSpiessMap_fixed; [now apply (repairSpiessMap_clean v)|exact Hps].
Qed.

(** ** Words, answers and the summary *)

Section WordFacts.

Import Orchestrator.

Variable sep : ascii.

Lemma sepFree_cons (c : ascii) (w : string) :
  c <> sep -> lacks sep w -> lacks sep (String c w).
Proof. intros Hc Hw x [<- | Hx]; [exact Hc | now apply Hw]. Qed.

Lemma sepFree_tail (c : ascii) (w : string) : lacks sep (String c w) -> c <> sep /\ lacks sep w.
Proof.
  intros H. split; [apply H; now left|]. intros x Hx. apply H. now right.
Qed.

Lemma split_not_nil (s : string) : split sep s <> [].
Proof.
  induction s as [|c s IH]; cbn [split]; [discriminate|].
  destruct (Ascii.eqb c sep); [discriminate|].
  destruct (split sep s); discriminate.
Qed.

Lemma split_pieces (s : string) : Forall (lacks sep) (split sep s).
Proof.
  induction s as [|c s IH]; cbn [split].
  - constructor; [intros x []|constructor].
  - destruct (Ascii.eqb c sep) eqn:E.
    + constructor; [intros x []|exact IH].
    + apply Ascii.eqb_neq in E.
      destruct (split sep s) as [|w ws].
      * constructor; [|constructor]. apply sepFree_cons; [exact E | intros x []].
      * inversion IH; subst. constructor; [now apply sepFree_cons | assumption].
Qed.

Lemma join_cons (w : string) (l : list string) :
  l <> [] ->
  Json.join (String sep EmptyString) (w :: l)
  = w ++ String sep (Json.join (String sep EmptyString) l).
Proof. destruct l; [congruence | reflexivity]. Qed.

(** Joining what [split] returned gives the text back. *)
Lemma join_split (s : string) : Json.join (String sep EmptyString) (split sep s) = s.
Proof.
  induction s as [|c s IH]; [reflexivity|]. cbn [split].
  destruct (Ascii.eqb c sep) eqn:E.
  - apply Ascii.eqb_eq in E. subst c.
    rewrite join_cons by apply split_not_nil. now rewrite IH.
  - pose proof (split_not_nil s) as Hne.
    destruct (split sep s) as [|w ws]; [congruence|].
    destruct ws as [|w' ws'].
    + cbn [Json.join] in IH |- *. congruence.
    + rewrite join_cons in IH by discriminate. rewrite join_cons by discriminate.
      cbn [String.append]. now rewrite IH.
Qed.

Lemma split_free_prefix (w rest : string) :
  lacks sep w -> split sep (w ++ String sep rest) = w :: split sep rest.
Proof.
  induction w as [|c w IH]; intros Hw; cbn [String.append split].
  - now rewrite Ascii.eqb_refl.
  - apply sepFree_tail in Hw as [Hc Hw]. apply Ascii.eqb_neq in Hc. rewrite Hc.
    now rewrite (IH Hw).
Qed.

Lemma split_free (w : string) : lacks sep w -> split sep w = [w].
Proof.
  induction w as [|c w IH]; intros Hw; [reflexivity|]. cbn [split].
  apply sepFree_tail in Hw as [Hc Hw]. apply Ascii.eqb_neq in Hc. rewrite Hc.
  now rewrite (IH Hw).
Qed.

(** Splitting what was joined gives the pieces back. *)
Lemma split_join (l : list string) :
  l <> [] -> Forall (lacks sep) l -> split sep (Json.join (String sep EmptyString) l) = l.
Proof.
  induction l as [|w l IH]; [congruence|]. intros _ H. inversion H; subst.
  destruct l as [|w' l'].
  - now apply split_free.
  - rewrite join_cons by discriminate. rewrite split_free_prefix by assumption.
    f_equal. apply IH; [discriminate | assumption].
Qed.

Lemma join_firstn_prefix (l : list string) :
  forall n, exists rest,
    Json.join (String sep EmptyString) l
    = Json.join (String sep EmptyString) (firstn n l) ++ rest.
Proof.
  induction l as [|w l IH]; intros n.
  - exists EmptyString. now destruct n.
  - destruct n as [|n]; [now eexists|]. cbn [firstn].
    destruct l as [|w' l'].
    + exists EmptyString. destruct n; cbn; now rewrite append_empty_r.
    + destruct (IH n) as (rest & Hrest).
      rewrite join_cons by discriminate.
      destruct (firstn n (w' :: l')) as [|x xs] eqn:E.
      * eexists. cbn [Json.join]. reflexivity.
      * exists rest. rewrite (join_cons w (x :: xs)) by discriminate. rewrite Hrest.
        rewrite append_assoc. cbn [String.append]. reflexivity.
Qed.

Lemma Forall_firstn_pieces (n : nat) (l : list string) :
  Forall (lacks sep) l -> Forall (lacks sep) (firstn n l).
Proof. apply Forall_firstn. Qed.

(** The cut of a text to its first [n] pieces, for [n] at least one: it
    has the lesser of [n] and the former number of pieces, and the text
    begins with it. *)
Lemma cut_words (n : nat) (text : string) :
  1 <= n ->
  let cut := Json.join (String sep EmptyString) (firstn n (split sep text)) in
  split sep cut = firstn n (split sep text) /\
  List.length (split sep cut) = Nat.min n (List.length (split sep text)) /\
  exists rest, text = cut ++ rest.
Proof.
  intros Hn cut.
  assert (Hs : split sep cut = firstn n (split sep text)).
  { apply split_join.
    - pose proof (split_not_nil text). destruct (split sep text); [congruence|].
      destruct n; [lia | discriminate].
    - apply Forall_firstn_pieces, split_pieces. }
  split; [exact Hs|]. split; [now rewrite Hs, length_firstn|].
  destruct (join_firstn_prefix (split sep text) n) as (rest & Hrest).
  exists rest. subst cut. now rewrite <- Hrest, join_split.
Qed.

End WordFacts.

Section AnswerFacts.

Import Orchestrator.

Lemma includes_self (s : string) : includes s s = true.
Proof. apply includes_prefix. rewrite <- (append_empty_r s) at 2. apply prefix_app. Qed.

Lemma includes_left (a b t : string) : includes a t = true -> includes (a ++ b) t = true.
Proof. intros H. now apply (includes_context EmptyString a b). Qed.

Lemma includes_right (a b t : string) : includes b t = true -> includes (a ++ b) t = true.
Proof.
  intros H. rewrite <- (append_empty_r b). now apply (includes_context a b EmptyString).
Qed.

Lemma includes_join (sep a : string) (l : list string) :
  In a l -> includes (Json.join sep l) a = true.
Proof.
  induction l as [|w l IH]; [contradiction|]. intros Hin.
  destruct l as [|w' l'].
  - destruct Hin as [<- | []]. apply includes_self.
  - change (Json.join sep (w :: w' :: l')) with (w ++ sep ++ Json.join sep (w' :: l')).
    destruct Hin as [<- | Hin].
    + apply includes_left, includes_self.
    + apply includes_right, includes_right, IH, Hin.
Qed.

Lemma merge_texts (sessionId : JsVal) (l : list string) :
  mergeAnswersWithInput sessionId (answerTexts l) = Json.join " " (filter nonEmpty l).
Proof.
  unfold mergeAnswersWithInput, answerTexts. f_equal.
  induction l as [|s l IH]; [reflexivity|].
  cbn [map filter]. rewrite IH.
  destruct s; reflexivity.
Qed.

Lemma merge_objects (sessionId : JsVal) (l : list string) :
  mergeAnswersWithInput sessionId (answerObjects l) = Json.join " " (filter nonEmpty l).
Proof.
  unfold mergeAnswersWithInput, answerObjects. f_equal.
  induction l as [|s l IH]; [reflexivity|].
  cbn [map filter]. rewrite IH. reflexivity.
Qed.

End AnswerFacts.

(** X8.  [mergeAnswersWithInput] reads an answer given as a text and an
    answer given as an object with an [answer] text alike: either way
    the result is the non-empty answers in their order, separated by one
    space, so every non-empty answer occurs in it. *)
Theorem merged_answers (sessionId : JsVal) (l : list string) :
  Orchestrator.mergeAnswersWithInput sessionId (answerTexts l)
  = Json.join " " (filter nonEmpty l) /\
  Orchestrator.mergeAnswersWithInput sessionId (answerObjects l)
  = Json.join " " (filter nonEmpty l) /\
  forall a, In a l -> nonEmpty a = true ->
            includes (Orchestrator.mergeAnswersWithInput sessionId (answerObjects l)) a = true.
Proof.
  split; [apply merge_texts|]. split; [apply merge_objects|].
  intros a Hin Hne. rewrite merge_objects. apply includes_join.
  apply filter_In. now split.
Qed.

Section SummaryFacts.

Import Orchestrator.

Lemma lookup_assign (k : string) (v : JsVal) (fields : list (string * JsVal)) :
  Js.lookup k (assign k v fields) = v.
Proof.
  induction fields as [|[k' v'] r IH]; cbn [assign Js.lookup].
  - now rewrite String.eqb_refl.
  - destruct (String.eqb k' k) eqn:E; cbn [Js.lookup].
    + now rewrite String.eqb_refl.
    + now rewrite E.
Qed.

Lemma optGet_object (summary : JsVal) (k : string) (text : string) :
  Js.optGet summary k = JStr text ->
  exists fields, summary = JObj fields /\ Js.lookup k fields = JStr text.
Proof. destruct summary; try discriminate. intros H. now eexists. Qed.

End SummaryFacts.

(** X9.  On a summary whose content is a text, the check of
    [buildSummary] returns a summary whose content has the lesser of
    250 and the former number of space-separated words and is a prefix
    of the former content; a content of at most 250 words leaves the
    summary as it was. *)
Theorem summary_content_cut (summary : JsVal) (text : string) (h : list Request) :
  Js.optGet summary "content" = JStr text ->
  exists summary' text',
    Orchestrator.limitContent summary h = (Return summary', h) /\
    Js.optGet summary' "content" = JStr text' /\
    List.length (Orchestrator.split " " text')
    = Nat.min 250 (List.length (Orchestrator.split " " text)) /\
    (exists rest, text = text' ++ rest) /\
    (List.length (Orchestrator.split " " text) <= 250 -> summary' = summary).
Proof.
  intros H. destruct (optGet_object _ _ _ H) as (fields & -> & Hl).
  unfold Orchestrator.limitContent. cbn [Js.isNullish Js.optGet]. rewrite Hl.
  cbn [Js.truthy]. destruct (isEmpty text) eqn:E; cbn [negb].
  - destruct text; [|discriminate]. exists (JObj fields), EmptyString.
    repeat split; try reflexivity; [exact Hl | now exists EmptyString].
  - destruct (250 <? List.length (Orchestrator.split " " text)) eqn:L.
    + apply Nat.ltb_lt in L.
      destruct (cut_words " " 250 text) as (Hs & Hlen & Hrest); [lia|].
      eexists. eexists. split; [reflexivity|].
      cbn [Js.optGet]. rewrite lookup_assign.
      split; [reflexivity|]. split; [exact Hlen|]. split; [exact Hrest | lia].
    + apply Nat.ltb_ge in L. exists (JObj fields), text.
      repeat split; try reflexivity; [exact Hl | lia | exists EmptyString].
      now rewrite append_empty_r.
Qed.

Lemma summary_content_cut_witness :
  let text := Json.join " " (List.repeat "word" 300) in
  let summary := JObj [("content", JStr text); ("nextStep", JStr "rest")] in
  Js.optGet summary "content" = JStr text /\
  List.length (Orchestrator.split " " text) = 300 /\
  exists summary' text',
    Orchestrator.limitContent summary [] = (Return summary', []) /\
    Js.optGet summary' "content" = JStr text' /\
    List.length (Orchestrator.split " " text') = 250.
Proof.
  intros text summary.
  assert (H : Js.optGet summary "content" = JStr text) by reflexivity.
  assert (L : List.length (Orchestrator.split " " text) = 300) by (vm_compute; reflexivity).
  split; [exact H|]. split; [exact L|].
  destruct (summary_content_cut summary text [] H) as (s' & t' & Hr & Hc & Hlen & _).
  exists s', t'. split; [exact Hr|]. split; [exact Hc|].
  rewrite Hlen, L. reflexivity.
Defined.

(** ** The stage calls: what they return and what they send *)

Section StageFacts.

Import Orchestrator.

Variable JSON_parse : string -> JsVal + string.
Variable openai : Service.

(** The requests of a stage: the stage's own one and, when its reply
    did not parse, the one of [retryJsonFix]. *)
Lemma stage_requests {A} (req : Request) (instruction : string)
      (k : Parsed -> Async A) (handler : string -> Async A) (h : list Request) :
  (forall p h0, snd (k p h0) = h0) ->
  (forall e h0, snd (handler e h0) = h0) ->
  let run :=
    Completion.tryCatch
      (Completion.bind (create openai req) (fun raw =>
       Completion.bind (parseWithRetry JSON_parse openai instruction raw) k))
      handler in
  snd (run h) = (h ++ [req])%list \/
  exists raw,
    openai h req = Content raw /\
    ok (safeJsonParseContent JSON_parse raw) = false /\
    snd (run h) = (h ++ [req; retryRequest instruction raw])%list.
Proof.
  intros Hk Hh run. subst run.
  assert (Hpure : forall p h0,
             snd (let (r, h') := k p h0 in
                  match r with
                  | Return a => (Return a, h')
                  | Throw e => handler e h'
                  end) = h0).
  { intros p h0. pose proof (Hk p h0) as Hs.
    destruct (k p h0) as [[a | e] h1]; cbn [snd] in *; [exact Hs | now rewrite Hh]. }
  unfold Completion.tryCatch, Completion.bind, parseWithRetry, retryJsonFix, create,
    Completion.ret.
  destruct (openai h req) as [e | raw] eqn:E.
  - left. apply Hh.
  - destruct (ok (safeJsonParseContent JSON_parse raw)) eqn:P; cbn [negb].
    + left. apply Hpure.
    + right. exists raw. split; [reflexivity|]. split; [exact P|].
      replace (h ++ [req; retryRequest instruction raw])%list
        with ((h ++ [req]) ++ [retryRequest instruction raw])%list
        by (now rewrite <- app_assoc).
      fold (retryRequest instruction raw). unfold Completion.bind.
      destruct (openai (h ++ [req])%list (retryRequest instruction raw)) as [e | fixed].
      * apply Hh.
      * apply Hpure.
Qed.

Lemma limitContent_history (summary : JsVal) (h : list Request) :
  snd (limitContent summary h) = h.
Proof.
  unfold limitContent. destruct (Js.isNullish summary); [reflexivity|].
  destruct (Js.truthy _); [|reflexivity].
  destruct (Js.optGet summary "content"); try reflexivity.
  destruct summary; try reflexivity.
  destruct (250 <? _); reflexivity.
Qed.

End StageFacts.

Section StageTheorems.

Import Orchestrator.

Variable JSON_parse : string -> JsVal + string.
Variable openai : Service.

Lemma stage_oneOrTwo {A} (req : Request) (instruction : string)
      (k : Parsed -> Async A) (handler : string -> Async A) (h : list Request) :
  (forall p h0, snd (k p h0) = h0) ->
  (forall e h0, snd (handler e h0) = h0) ->
  oneOrTwo JSON_parse openai req h
    (snd (Completion.tryCatch
            (Completion.bind (create openai req) (fun raw =>
             Completion.bind (parseWithRetry JSON_parse openai instruction raw) k))
            handler h)).
Proof.
  intros Hk Hh.
  destruct (stage_requests JSON_parse openai req instruction k handler h Hk Hh)
    as [H | (raw & H1 & H2 & H3)]; [now left | right].
  now exists instruction, raw.
Qed.

Lemma buildNarrativeLoop_requests (input : string) (h : list Request) :
  exists req, oneOrTwo JSON_parse openai req h
                (snd (buildNarrativeLoop JSON_parse openai input h)).
Proof.
  unfold buildNarrativeLoop. eexists. apply stage_oneOrTwo; [|reflexivity].
  intros p h0. cbv zeta.
  destruct (negb _); [|reflexivity]. destruct (repairNarrativeLoop _); reflexivity.
Qed.

Lemma buildSpiessMap_requests (narrativeLoop : JsVal) (h : list Request) :
  exists req, oneOrTwo JSON_parse openai req h
                (snd (buildSpiessMap JSON_parse openai narrativeLoop h)).
Proof.
  unfold buildSpiessMap. eexists. apply stage_oneOrTwo; [|reflexivity].
  intros p h0. cbv zeta.
  destruct (negb _); [|reflexivity]. destruct (repairSpiessMap _); reflexivity.
Qed.

Lemma buildSummary_requests (narrativeLoop spiessMap : JsVal) (h : list Request) :
  oneOrTwo JSON_parse openai (summaryRequest narrativeLoop spiessMap) h
    (snd (buildSummary JSON_parse openai narrativeLoop spiessMap h)).
Proof.
  unfold buildSummary. apply stage_oneOrTwo; [|reflexivity].
  intros p h0. apply limitContent_history.
Qed.

Lemma generateClarifyingQuestions_requests (input : string) (h : list Request) :
  oneOrTwo JSON_parse openai (questionsRequest input) h
    (snd (generateClarifyingQuestions JSON_parse openai input h)).
Proof.
  unfold generateClarifyingQuestions. apply stage_oneOrTwo; reflexivity.
Qed.

Lemma needsClarifyingQuestions_requests (input : string) (h : list Request) :
  snd (needsClarifyingQuestions openai input h) = (h ++ [clarifyingRequest input])%list.
Proof.
  unfold needsClarifyingQuestions, Completion.tryCatch, Completion.bind, create.
  destruct (openai h (clarifyingRequest input)) as [e | [text|]]; reflexivity.
Qed.

(** X10.  Each stage call sends its own request and at most one more,
    the request of [retryJsonFix], and that one only when the first
    reply did not parse: there is one retry and no loop.  The yes/no
    question of [needsClarifyingQuestions] is a single request. *)
Theorem stages_send_one_or_two (input : string) (narrativeLoop spiessMap : JsVal)
        (h : list Request) :
  (exists req, oneOrTwo JSON_parse openai req h
                 (snd (buildNarrativeLoop JSON_parse openai input h))) /\
  (exists req, oneOrTwo JSON_parse openai req h
                 (snd (buildSpiessMap JSON_parse openai narrativeLoop h))) /\
  oneOrTwo JSON_parse openai (summaryRequest narrativeLoop spiessMap) h
    (snd (buildSummary JSON_parse openai narrativeLoop spiessMap h)) /\
  oneOrTwo JSON_parse openai (questionsRequest input) h
    (snd (generateClarifyingQuestions JSON_parse openai input h)) /\
  snd (needsClarifyingQuestions openai input h) = (h ++ [clarifyingRequest input])%list.
Proof.
  split; [apply buildNarrativeLoop_requests|].
  split; [apply buildSpiessMap_requests|].
  split; [apply buildSummary_requests|].
  split; [apply generateClarifyingQuestions_requests|].
  apply needsClarifyingQuestions_requests.
Qed.

(** X11.  [generateClarifyingQuestions] always returns, and returns at
    most three questions; when the service fails on its request it
    returns none. *)
Theorem questions_at_most_three (input : string) (h : list Request) :
  exists questions h',
    generateClarifyingQuestions JSON_parse openai input h = (Return questions, h') /\
    List.length questions <= 3 /\
    (forall err, openai h (questionsRequest input) = Throws err -> questions = []).
Proof.
  unfold generateClarifyingQuestions, Completion.tryCatch, Completion.bind at 1, create at 1.
  destruct (openai h (questionsRequest input)) as [e | raw] eqn:E.
  - exists [], (h ++ [questionsRequest input])%list.
    split; [reflexivity|]. split; [cbn; lia | reflexivity].
  - unfold Completion.bind, ret.
    destruct (parseWithRetry JSON_parse openai "a JSON array of up to 3 strings" raw
                (h ++ [questionsRequest input])%list) as [[parsed | e] h1].
    + eexists. eexists. split; [reflexivity|]. split; [|discriminate].
      destruct parsed as [[]|]; cbn [List.length]; try lia.
      all: try (rewrite length_firstn; lia).
    + exists [], h1. split; [reflexivity|]. split; [cbn; lia | discriminate].
Qed.

Lemma limitContent_result (summary summary' : JsVal) (h h' : list Request) :
  limitContent summary h = (Return summary', h') ->
  Js.isNullish summary' = false /\
  forall text, Js.optGet summary' "content" = JStr text ->
               List.length (split " " text) <= 250.
Proof.
  intros H.
  destruct (Js.isNullish summary) eqn:N.
  { unfold limitContent in H. rewrite N in H. discriminate. }
  destruct (Js.optGet summary "content") as [| | b | z | text | items | fields] eqn:C.
  5: { destruct (optGet_object _ _ _ C) as (fields & -> & Hl).
       unfold limitContent in H. cbn [Js.isNullish Js.optGet] in H. rewrite Hl in H.
       cbn [Js.truthy] in H. destruct (isEmpty text) eqn:E; cbn [negb] in H.
       - injection H as <- _. split; [reflexivity|].
         intros t Ht. cbn [Js.optGet] in Ht. rewrite Hl in Ht. injection Ht as <-.
         destruct text; [cbn; lia | discriminate].
       - destruct (250 <? List.length (split " " text)) eqn:L.
         + apply Nat.ltb_lt in L.
           destruct (cut_words " " 250 text) as (_ & Hlen & _); [lia|].
           apply (f_equal fst) in H. cbn [fst Completion.ret] in H.
           assert (Es : summary'
                        = JObj (assign "content"
                                  (JStr (Json.join " " (firstn 250 (split " " text))))
                                  fields)) by congruence.
           rewrite Es. split; [reflexivity|].
           intros t Ht. cbn [Js.optGet] in Ht. rewrite lookup_assign in Ht.
           assert (Et : t = Json.join " " (firstn 250 (split " " text))) by congruence.
           rewrite Et, Hlen. lia.
         + apply Nat.ltb_ge in L. injection H as <- _. split; [reflexivity|].
           intros t Ht. cbn [Js.optGet] in Ht. rewrite Hl in Ht. now injection Ht as <-. }
  all: unfold limitContent in H; rewrite N, C in H; cbn in H;
    try discriminate;
    try (destruct b; cbn in H; try discriminate);
    try (destruct (z =? 0)%Z; cbn in H; try discriminate);
    injection H as <- _; (split; [exact N|]); intros t Ht; congruence.
Qed.

(** X12.  [buildSummary] always returns; what it returns is neither
    null nor undefined, and a content that is a text has at most 250
    space-separated words. *)
Theorem summary_at_most_250_words (narrativeLoop spiessMap : JsVal) (h : list Request) :
  exists summary h',
    buildSummary JSON_parse openai narrativeLoop spiessMap h = (Return summary, h') /\
    Js.isNullish summary = false /\
    forall text, Js.optGet summary "content" = JStr text ->
                 List.length (split " " text) <= 250.
Proof.
  unfold buildSummary.
  apply (tryCatch_default _ getDefaultSummary
           (fun s => Js.isNullish s = false /\
                     forall text, Js.optGet s "content" = JStr text ->
                                  List.length (split " " text) <= 250)).
  - split; [reflexivity|]. intros text H. injection H as <-. vm_compute. lia.
  - intros a h' Hb.
    apply bind_returns in Hb as (raw & h1 & _ & Hb).
    apply bind_returns in Hb as (parsed & h2 & _ & Hb).
    now apply (limitContent_result _ _ _ _ Hb).
Qed.

End StageTheorems.

Section MechanismFacts.

Lemma includes_join_item (sep w t : string) (l : list string) :
  In w l -> includes w t = true -> includes (Json.join sep l) t = true.
Proof.
  intros Hin Ht. apply includes_join with (sep := sep) in Hin.
  apply includes_split in Hin as (a & b & ->).
  now apply includes_context.
Qed.

Lemma spiessMapObject_names_microTest (sp : SpiessMap) :
  includes (Json.interpolate (spiessMapObject sp)) "microTest" = true.
Proof.
  unfold Json.interpolate, spiessMapObject, strings.
  cbn [Json.stringify flat_map snd fst app].
  apply (includes_context "{" _ "}").
  eapply includes_join_item.
  - right; right; right; right; left; reflexivity.
  - apply includes_left. reflexivity.
Qed.

Lemma text_mentions_test (narrativeLoop : JsVal) (sp : SpiessMap) :
  includes (toLowerCase (Json.interpolate narrativeLoop ++ " "
                         ++ Json.interpolate (spiessMapObject sp))) "test" = true.
Proof.
  destruct (includes_split _ _ (spiessMapObject_names_microTest sp)) as (a & b & ->).
  rewrite !toLowerCase_app.
  apply includes_right, includes_right, includes_right, includes_left.
  reflexivity.
Qed.

Lemma pushIf_keeps (cond : bool) (tag x : string) (tags : list string) :
  In x tags -> In x (pushIf cond tag tags).
Proof. unfold pushIf. destruct cond; [|easy]. intros H. apply in_or_app. now left. Qed.

Lemma pushIf_pushes (tag : string) (tags : list string) :
  In tag (pushIf true tag tags).
Proof. unfold pushIf. apply in_or_app. right. now left. Qed.

Lemma dedupe_keeps (x : string) (tags seen : list string) :
  In x tags -> ~ In x seen -> In x (dedupe seen tags).
Proof.
  revert seen. induction tags as [|t r IH]; intros seen Hin Hs; [contradiction|].
  cbn [dedupe]. destruct (existsb (String.eqb t) seen) eqn:E.
  - destruct Hin as [-> | Hin]; [|now apply IH].
    apply existsb_exists in E as (y & Hy & Heq). apply String.eqb_eq in Heq. now subst.
  - destruct Hin as [-> | Hin]; [now left|].
    destruct (String.eqb t x) eqn:Ex.
    + apply String.eqb_eq in Ex. now left.
    + right. apply IH; [exact Hin|]. intros [-> | H]; [|contradiction].
      now rewrite String.eqb_refl in Ex.
Qed.

Lemma attention_testing_present (narrativeLoop : JsVal) (sp : SpiessMap) :
  In "attention_testing" (detectMechanisms narrativeLoop (spiessMapObject sp)).
Proof.
  unfold detectMechanisms. cbv zeta.
  rewrite (text_mentions_test narrativeLoop sp), orb_true_r.
  apply dedupe_keeps; [|easy].
  apply pushIf_keeps, pushIf_pushes.
Qed.

End MechanismFacts.

(** X13.  The tags [detectMechanisms] returns are pairwise distinct and
    among the eight tags of its tests.  Its keyword search runs over the
    JSON text of both values, property names included: the name
    microTest of a SpiessMap contains 'test', so attention_testing is
    among the tags of every SpiessMap, whatever its content. *)
Theorem attention_testing_always (narrativeLoop : JsVal) (sp : SpiessMap) :
  let tags := detectMechanisms narrativeLoop (spiessMapObject sp) in
  NoDup tags /\ incl tags mechanismTags /\ In "attention_testing" tags.
Proof.
  cbv zeta. destruct (detectMechanisms_tags narrativeLoop (spiessMapObject sp)) as [Hn Hi].
  split; [exact Hn|]. split; [exact Hi|].
  apply attention_testing_present.
Qed.

Section OrchestrationFacts.

Import Tracking AnalyticsService Orchestrator.

Variable sanitizeHtml : string -> string.
Variable JSON_parse : string -> JsVal + string.
Variable openai : Service.

Lemma recorded_trans (sid : JsVal) (n1 n2 : list string) (w w1 w2 : World) :
  recorded sid n1 w w1 -> recorded sid n2 w1 w2 -> recorded sid (n1 ++ n2) w w2.
Proof.
  intros (l1 & E1 & N1 & F1) (l2 & E2 & N2 & F2). exists (l1 ++ l2)%list.
  split; [rewrite E2, E1; now rewrite <- app_assoc|].
  split; [rewrite map_app; now rewrite N1, N2 | now apply Forall_app].
Qed.

Lemma oneOrTwo_length (req : Request) (h h' : list Request) :
  oneOrTwo JSON_parse openai req h h' ->
  exists rest, h' = (h ++ req :: rest)%list /\ List.length rest <= 1.
Proof.
  intros [-> | (i & raw & _ & _ & ->)].
  - exists []. split; [reflexivity | cbn; lia].
  - eexists [_]. split; [reflexivity | cbn; lia].
Qed.

Lemma buildNarrativeLoop_carries (input : string) (h : list Request) :
  exists req, oneOrTwo JSON_parse openai req h
                (snd (buildNarrativeLoop JSON_parse openai input h)) /\
              carries req input.
Proof.
  unfold buildNarrativeLoop. cbv zeta. eexists. split.
  - apply stage_oneOrTwo; [|reflexivity].
    intros p h0. destruct (negb _); [|reflexivity].
    destruct (repairNarrativeLoop _); reflexivity.
  - unfold carries. cbn [messages]. eexists. f_equal. f_equal.
    cbn [template Json.join]. rewrite <- !append_assoc. reflexivity.
Qed.

Lemma buildSummary_defined (narrativeLoop spiessMap : JsVal) (h : list Request) :
  exists summary h',
    buildSummary JSON_parse openai narrativeLoop spiessMap h = (Return summary, h') /\
    Js.isNullish summary = false.
Proof.
  unfold buildSummary.
  apply (tryCatch_default _ getDefaultSummary (fun s => Js.isNullish s = false));
    [reflexivity|].
  intros a h' Hb.
  apply bind_returns in Hb as (raw & h1 & _ & Hb).
  apply bind_returns in Hb as (parsed & h2 & _ & Hb).
  now apply (limitContent_result _ _ _ _ Hb).
Qed.

Lemma generateClarifyingQuestions_returns (input : string) (h : list Request) :
  exists questions h',
    generateClarifyingQuestions JSON_parse openai input h = (Return questions, h') /\
    List.length questions <= 3.
Proof.
  unfold generateClarifyingQuestions.
  apply (tryCatch_default _ [] (fun q => List.length q <= 3)); [cbn; lia|].
  intros a h' Hb.
  apply bind_returns in Hb as (raw & h1 & _ & Hb).
  apply bind_returns in Hb as (parsed & h2 & _ & Hb).
  injection Hb as <- _.
  destruct parsed as [[]|]; cbn [List.length]; try lia.
  all: try (rewrite length_firstn; lia).
  destruct items as [|? [|? [|? ?]]]; cbn [List.length]; lia.
Qed.

Lemma truncateQuestions_texts (questions : list JsVal) :
  forallb isText questions = true <-> exists l, truncateQuestions questions = Some l.
Proof.
  induction questions as [|q r IH]; cbn [forallb truncateQuestions].
  - split; [now exists [] | reflexivity].
  - destruct q; cbn [isText andb]; try (split; [discriminate | now intros [l H]]).
    rewrite IH. split.
    + intros [l ->]. now eexists.
    + intros [l H]. destruct (truncateQuestions r); [now eexists | discriminate].
Qed.

Lemma processStages_run (input : string) (sid : JsVal) (options : Options) (req : option Req)
      (w : World) :
  exists result w' first rest,
    processStages JSON_parse openai input sid options req w = (Return result, w') /\
    presentNarrativeLoop (Orchestrator.narrativeLoop result) = true /\
    presentSpiessMap (Orchestrator.spiessMap result) = true /\
    Js.isNullish (Orchestrator.summary result) = false /\
    Orchestrator.tags result
    = detectMechanisms (narrativeLoopObject (Orchestrator.narrativeLoop result))
                       (spiessMapObject (Orchestrator.spiessMap result)) /\
    recorded sid ["loop_built"; "spiess_built"; "summary_built"] w w' /\
    requests w' = (requests w ++ first :: rest)%list /\
    carries first input /\
    2 <= List.length rest <= 5.
Proof.
  destruct (buildNarrativeLoop_present JSON_parse openai input (requests w))
    as (nl & h1 & H1 & P1).
  destruct (buildNarrativeLoop_carries input (requests w)) as (r1 & O1 & C1).
  rewrite H1 in O1. cbn [snd] in O1.
  destruct (buildSpiessMap_present JSON_parse openai (narrativeLoopObject nl) h1)
    as (sp & h2 & H2 & P2).
  destruct (buildSpiessMap_requests JSON_parse openai (narrativeLoopObject nl) h1)
    as (r2 & O2).
  rewrite H2 in O2. cbn [snd] in O2.
  destruct (buildSummary_defined (narrativeLoopObject nl) (spiessMapObject sp) h2)
    as (su & h3 & H3 & N3).
  pose proof (buildSummary_requests JSON_parse openai
                (narrativeLoopObject nl) (spiessMapObject sp) h2) as O3.
  rewrite H3 in O3. cbn [snd] in O3.
  apply oneOrTwo_length in O1 as (t1 & E1 & L1).
  apply oneOrTwo_length in O2 as (t2 & E2 & L2).
  apply oneOrTwo_length in O3 as (t3 & E3 & L3).
  eexists. eexists. exists r1.
  exists (t1 ++ r2 :: t2 ++ summaryRequest (narrativeLoopObject nl) (spiessMapObject sp) :: t3)%list.
  split.
  { unfold processStages, Tracking.bind, lift. rewrite H1.
    unfold trackLoopBuilt, trackEvent. cbn [requests events]. rewrite H2.
    unfold trackSpiessBuilt, trackEvent. cbn [requests events]. rewrite H3.
    unfold trackSummaryBuilt. rewrite N3. unfold trackEvent. cbn [requests events].
    reflexivity. }
  cbn [Orchestrator.narrativeLoop Orchestrator.spiessMap Orchestrator.summary
       Orchestrator.tags requests events].
  split; [exact P1|]. split; [exact P2|]. split; [exact N3|]. split; [reflexivity|].
  split.
  { eexists [_; _; _]. cbn [events]. split; [now rewrite <- !app_assoc|].
    split; [reflexivity | now repeat constructor]. }
  split.
  { rewrite E3, E2, E1. rewrite <- !app_assoc. cbn [app]. reflexivity. }
  split; [exact C1|].
  rewrite !length_app. cbn [List.length]. rewrite length_app. cbn [List.length]. lia.
Qed.

End OrchestrationFacts.

Section AnalyzeFacts.

Import Tracking AnalyticsService Orchestrator.

Variable sanitizeHtml : string -> string.
Variable JSON_parse : string -> JsVal + string.
Variable openai : Service.

Lemma needsClarifyingQuestions_yes (input text : string) (h : list Request) :
  openai h (clarifyingRequest input) = Content (Some text) ->
  fst (needsClarifyingQuestions openai input h)
  = Return (String.eqb (toUpperCase (trim text)) "YES").
Proof.
  intros H. unfold needsClarifyingQuestions, Completion.tryCatch, Completion.bind, create.
  now rewrite H.
Qed.

(** What [analyze] does on each outcome of the safety gate and of the
    yes/no question. *)
Lemma analyze_cases (sid : string) (start : Z) (later : Instant) (input : JsVal)
      (options : Options) (req : option Req) (w : World) :
  exists a w',
    analyze sanitizeHtml JSON_parse openai sid start later input options req w
    = (Return a, w') /\
    match validateInput sanitizeHtml (iso later) input
            (Js.truthy (Js.or (storageOptIn options) (JBool false)))
            (notFalse (redactNames options)) with
    | Crisis response =>
        a = CrisisExit (JStr sid) response /\ requests w' = requests w /\
        recorded (JStr sid) ["session_started"; "safe_exit"] w w'
    | Rejected error =>
        a = Failure (JStr sid) "VALIDATION_ERROR" error (iso later) /\
        requests w' = requests w /\
        recorded (JStr sid) ["session_started"; "safe_exit"] w w'
    | Accepted p _ _ =>
        exists (b : bool) rest,
          fst (needsClarifyingQuestions openai p (requests w)) = Return b /\
          requests w' = (requests w ++ clarifyingRequest p :: rest)%list /\
          if b then
            exists questions,
              fst (generateClarifyingQuestions JSON_parse openai p
                     (requests w ++ [clarifyingRequest p])%list) = Return questions /\
              List.length questions <= 3 /\ 1 <= List.length rest <= 2 /\
              if forallb isText questions
              then a = ClarifyingQuestions (JStr sid) questions /\
                   recorded (JStr sid) ["session_started"; "input_received"; "questions_asked"] w w'
              else a = Failure (JStr sid) "AI_PROCESSING_ERROR"
                         "Analysis failed due to processing error" (iso later) /\
                   recorded (JStr sid) ["session_started"; "input_received"; "safe_exit"] w w'
          else
            exists result first rest',
              a = Completed (JStr sid) result (Some (millis later - start)%Z) /\
              presentNarrativeLoop (Orchestrator.narrativeLoop result) = true /\
              presentSpiessMap (Orchestrator.spiessMap result) = true /\
              Js.isNullish (Orchestrator.summary result) = false /\
              Orchestrator.tags result
              = detectMechanisms (narrativeLoopObject (Orchestrator.narrativeLoop result))
                                 (spiessMapObject (Orchestrator.spiessMap result)) /\
              recorded (JStr sid) ["session_started"; "input_received"; "loop_built";
                            "spiess_built"; "summary_built"] w w' /\
              rest = first :: rest' /\ carries first p /\
              2 <= List.length rest' <= 5
    end.
Proof.
  unfold analyze. cbv zeta.
  destruct (validateInput sanitizeHtml (iso later) input
              (Js.truthy (Js.or (storageOptIn options) (JBool false)))
              (notFalse (redactNames options))) as [error | response | p n m] eqn:V.
  - eexists. eexists. split; [reflexivity|].
    split; [reflexivity|]. split; [reflexivity|].
    eexists [_; _]. cbn [events]. split; [now rewrite <- app_assoc|].
    split; [reflexivity | now repeat constructor].
  - eexists. eexists. split; [reflexivity|].
    split; [reflexivity|]. split; [reflexivity|].
    eexists [_; _]. cbn [events]. split; [now rewrite <- app_assoc|].
    split; [reflexivity | now repeat constructor].
  - destruct (needsClarifyingQuestions_returns openai p (requests w)) as (b & Hb & _).
    pose proof (needsClarifyingQuestions_requests openai p (requests w)) as Hr.
    destruct (needsClarifyingQuestions openai p (requests w)) as [r h1] eqn:N.
    cbn [fst snd] in Hb, Hr. subst r h1.
    unfold Tracking.tryCatch, Tracking.bind, trackSessionStarted, trackInputReceived,
      trackEvent, lift.
    cbn [requests events]. rewrite N.
    destruct b; cbv beta iota; cbn [requests events].
    + destruct (generateClarifyingQuestions_returns JSON_parse openai p
                  (requests w ++ [clarifyingRequest p])%list) as (qs & h2 & G & L).
      pose proof (generateClarifyingQuestions_requests JSON_parse openai p
                    (requests w ++ [clarifyingRequest p])%list) as O.
      rewrite G in *. cbn [snd] in O.
      apply oneOrTwo_length in O as (t & E & Lt).
      unfold trackQuestionsAsked.
      destruct (truncateQuestions qs) as [l|] eqn:T.
      * eexists. eexists. split; [reflexivity|].
        exists true. eexists. split; [reflexivity|].
        cbn [requests]. split; [rewrite E, <- app_assoc; reflexivity|].
        exists qs. split; [reflexivity|]. split; [exact L|].
        split; [cbn [List.length]; lia|].
        replace (forallb isText qs) with true
          by (symmetry; apply truncateQuestions_texts; now exists l).
        split; [reflexivity|].
        eexists [_; _; _]. cbn [events]. split; [now rewrite <- !app_assoc|].
        split; [reflexivity | now repeat constructor].
      * eexists. eexists. split; [reflexivity|].
        exists true. eexists. split; [reflexivity|].
        cbn [requests]. split; [rewrite E, <- app_assoc; reflexivity|].
        exists qs. split; [reflexivity|]. split; [exact L|].
        split; [cbn [List.length]; lia|].
        replace (forallb isText qs) with false.
        2:{ symmetry. apply not_true_is_false. intros F.
            apply truncateQuestions_texts in F as (l & F). congruence. }
        split; [reflexivity|].
        eexists [_; _; _]. cbn [events]. split; [now rewrite <- !app_assoc|].
        split; [reflexivity | now repeat constructor].
    + match goal with
      | |- context [processStages JSON_parse openai p (JStr sid) options req ?w2] =>
          destruct (processStages_run JSON_parse openai p (JStr sid) options req w2)
            as (result & w' & first & rest' & HP & P1 & P2 & N3 & Ht & Hrec & Hreq & Hc & Hl)
      end.
      rewrite HP. eexists. eexists. split; [reflexivity|].
      exists false. eexists. split; [reflexivity|].
      cbn [requests] in Hreq.
      split; [rewrite Hreq, <- app_assoc; reflexivity|].
      exists result, first, rest'.
      split; [reflexivity|]. split; [exact P1|]. split; [exact P2|]. split; [exact N3|].
      split; [exact Ht|].
      split.
      { eapply (recorded_trans (JStr sid) ["session_started"; "input_received"]);
          [|exact Hrec].
        eexists [_; _]. cbn [events]. split; [now rewrite <- app_assoc|].
        split; [reflexivity | now repeat constructor]. }
      split; [reflexivity|]. split; [exact Hc | exact Hl].
Qed.

End AnalyzeFacts.

(** X14.  [processStages] always returns, whatever the completion
    service does: the NarrativeLoop and the SpiessMap it returns have
    every field present and non-empty, the summary is neither null nor
    undefined, attention_testing is among the tags, the three events
    loop_built, spiess_built and summary_built are recorded in this
    order under the session, and between three and six requests are
    made. *)
Theorem stages_always_complete
  (JSON_parse : string -> JsVal + string) (openai : Service)
  (input : string) (sessionId : JsVal) (options : Orchestrator.Options)
  (req : option Tracking.Req) (w : Tracking.World) :
  exists result w',
    Orchestrator.processStages JSON_parse openai input sessionId options req w
    = (Return result, w') /\
    presentNarrativeLoop (Orchestrator.narrativeLoop result) = true /\
    presentSpiessMap (Orchestrator.spiessMap result) = true /\
    Js.isNullish (Orchestrator.summary result) = false /\
    In "attention_testing" (Orchestrator.tags result) /\
    recorded sessionId ["loop_built"; "spiess_built"; "summary_built"] w w' /\
    requested 3 6 w w'.
Proof.
  destruct (processStages_run JSON_parse openai input sessionId options req w)
    as (result & w' & first & rest & HP & P1 & P2 & N3 & Ht & Hrec & Hreq & _ & Hl).
  exists result, w'. split; [exact HP|]. split; [exact P1|]. split; [exact P2|].
  split; [exact N3|]. split; [rewrite Ht; apply attention_testing_present|].
  split; [exact Hrec|].
  exists (first :: rest). split; [exact Hreq | cbn [List.length]; lia].
Qed.

(** X15.  For every value of the answers, [processAnswers] returns a
    completed analysis under the session id it was given: its handler
    is never entered.  The text merged from the answers goes to the
    completion service as it is, at the end of the first request, also
    when it is a text [validateInput] would refuse; the events recorded
    are loop_built, spiess_built and summary_built, and no safe_exit. *)
Theorem answers_go_to_the_service
  (JSON_parse : string -> JsVal + string) (openai : Service)
  (now : Orchestrator.Instant) (sessionId : JsVal) (answers : JsVal)
  (options : Orchestrator.Options) (req : option Tracking.Req) (w : Tracking.World) :
  exists result w' first rest,
    Orchestrator.processAnswers JSON_parse openai now sessionId answers options req w
    = (Return (Orchestrator.Completed sessionId result None), w') /\
    Tracking.requests w' = (Tracking.requests w ++ first :: rest)%list /\
    carries first (Orchestrator.mergeAnswersWithInput sessionId answers) /\
    recorded sessionId ["loop_built"; "spiess_built"; "summary_built"] w w'.
Proof.
  destruct (processStages_run JSON_parse openai
              (Orchestrator.mergeAnswersWithInput sessionId answers)
              sessionId options req w)
    as (result & w' & first & rest & HP & _ & _ & _ & _ & Hrec & Hreq & Hc & _).
  exists result, w', first, rest.
  split; [|now repeat split].
  unfold Orchestrator.processAnswers, Tracking.tryCatch, Tracking.bind. cbv zeta.
  now rewrite HP.
Qed.

(** X16.  An input [validateInput] does not accept never reaches the
    completion service: [analyze] returns without success under the new
    session id, makes no request, and records session_started and then
    safe_exit.  For a text in which [detectCrisis] finds a crisis the
    answer is the crisis response. *)
Theorem gate_precedes_service
  (sanitizeHtml : string -> string) (JSON_parse : string -> JsVal + string)
  (openai : Service) (sessionId : string) (startTime : Z) (later : Orchestrator.Instant)
  (input : JsVal) (options : Orchestrator.Options) (req : option Tracking.Req)
  (w : Tracking.World) :
  processedInput
    (validateInput sanitizeHtml (Orchestrator.iso later) input
       (Js.truthy (Js.or (Orchestrator.storageOptIn options) (JBool false)))
       (Orchestrator.notFalse (Orchestrator.redactNames options))) = None ->
  exists a w',
    Orchestrator.analyze sanitizeHtml JSON_parse openai sessionId startTime later
      input options req w = (Return a, w') /\
    Orchestrator.success a = false /\
    Orchestrator.sessionOf a = JStr sessionId /\
    Tracking.requests w' = Tracking.requests w /\
    recorded (JStr sessionId) ["session_started"; "safe_exit"] w w' /\
    (forall s, input = JStr s -> detectCrisis s = true ->
               a = Orchestrator.CrisisExit (JStr sessionId)
                     (getCrisisResponse (Orchestrator.iso later))).
Proof.
  intros H.
  destruct (analyze_cases sanitizeHtml JSON_parse openai sessionId startTime later
              input options req w) as (a & w' & Ha & Hc).
  exists a, w'. split; [exact Ha|].
  destruct (validateInput sanitizeHtml (Orchestrator.iso later) input
              (Js.truthy (Js.or (Orchestrator.storageOptIn options) (JBool false)))
              (Orchestrator.notFalse (Orchestrator.redactNames options)))
    as [error | response | p n m] eqn:V; [| |discriminate H].
  - destruct Hc as (-> & Hr & He). repeat split; try assumption; try reflexivity.
    intros s -> Hs. rewrite (crisis_exit sanitizeHtml _ _ _ _ Hs) in V. discriminate V.
  - destruct Hc as (-> & Hr & He). repeat split; try assumption; try reflexivity.
    intros s -> Hs. rewrite (crisis_exit sanitizeHtml _ _ _ _ Hs) in V. congruence.
Qed.

Lemma gate_precedes_service_witness :
  let service : Service := fun _ _ => Content (Some "NO") in
  let options := {| Orchestrator.userId := None;
                    Orchestrator.storageOptIn := JUndefined;
                    Orchestrator.redactNames := JUndefined |} in
  let later := {| Orchestrator.millis := 1767225600250;
                  Orchestrator.iso := "2026-01-01T00:00:00.250Z" |} in
  let input := JStr "Lately i can't take it anymore." in
  let w := {| Tracking.requests := []; Tracking.events := [] |} in
  processedInput (validateInput plainText (Orchestrator.iso later) input false true) = None /\
  exists a w',
    Orchestrator.analyze plainText JsonReader.parse service "session-1" 1767225600000
      later input options None w = (Return a, w') /\
    Orchestrator.success a = false /\
    Tracking.requests w' = [].
Proof.
  intros service options later input w.
  assert (H : processedInput
                (validateInput plainText (Orchestrator.iso later) input false true) = None)
    by (vm_compute; reflexivity).
  split; [exact H|].
  destruct (gate_precedes_service plainText JsonReader.parse service "session-1"
              1767225600000 later input options None w H)
    as (a & w' & Ha & Hs & _ & Hr & _).
  exists a, w'. split; [exact Ha|]. split; [exact Hs | exact Hr].
Defined.

(** X17.  On an accepted input for which the completion service does
    not answer YES to the yes/no question (any other reply, a failure
    included), [analyze] returns a completed analysis: both stage values
    have every field present and non-empty, attention_testing is among
    the tags, the processing time is the second reading of the clock
    less the first, the five events of a full run are recorded in
    order, and between four and seven requests are made. *)
Theorem analysis_completes
  (sanitizeHtml : string -> string) (JSON_parse : string -> JsVal + string)
  (openai : Service) (sessionId : string) (startTime : Z) (later : Orchestrator.Instant)
  (input : JsVal) (options : Orchestrator.Options) (req : option Tracking.Req)
  (w : Tracking.World) (p : string) (n m : nat) :
  validateInput sanitizeHtml (Orchestrator.iso later) input
    (Js.truthy (Js.or (Orchestrator.storageOptIn options) (JBool false)))
    (Orchestrator.notFalse (Orchestrator.redactNames options)) = Accepted p n m ->
  (forall text, openai (Tracking.requests w) (clarifyingRequest p) = Content (Some text) ->
                toUpperCase (trim text) <> "YES") ->
  exists result w',
    Orchestrator.analyze sanitizeHtml JSON_parse openai sessionId startTime later
      input options req w
    = (Return (Orchestrator.Completed (JStr sessionId) result
                 (Some (Orchestrator.millis later - startTime)%Z)), w') /\
    presentNarrativeLoop (Orchestrator.narrativeLoop result) = true /\
    presentSpiessMap (Orchestrator.spiessMap result) = true /\
    In "attention_testing" (Orchestrator.tags result) /\
    recorded (JStr sessionId) ["session_started"; "input_received"; "loop_built";
                        "spiess_built"; "summary_built"] w w' /\
    requested 4 7 w w'.
Proof.
  intros V Hno.
  destruct (analyze_cases sanitizeHtml JSON_parse openai sessionId startTime later
              input options req w) as (a & w' & Ha & Hc).
  rewrite V in Hc. destruct Hc as (b & rest & Hb & Hreq & Hc).
  destruct b.
  - destruct (needsClarifyingQuestions_returns openai p (Tracking.requests w))
      as (b' & Hb' & Hyes).
    rewrite Hb in Hb'. injection Hb' as <-.
    destruct (Hyes eq_refl) as (text & Ht & Hy). now elim (Hno text Ht).
  - destruct Hc as (result & first & rest' & -> & P1 & P2 & _ & Ht & Hrec & -> & _ & Hl).
    exists result, w'. split; [exact Ha|]. split; [exact P1|]. split; [exact P2|].
    split; [rewrite Ht; apply attention_testing_present|]. split; [exact Hrec|].
    eexists. split; [exact Hreq | cbn [List.length]; lia].
Qed.

Lemma analysis_completes_witness :
  let service : Service := fun _ _ => Throws "service unavailable" in
  let options := {| Orchestrator.userId := None;
                    Orchestrator.storageOptIn := JUndefined;
                    Orchestrator.redactNames := JUndefined |} in
  let later := {| Orchestrator.millis := 1767225600250;
                  Orchestrator.iso := "2026-01-01T00:00:00.250Z" |} in
  let text := "My manager ignored my report and now I expect to be fired." in
  let w := {| Tracking.requests := []; Tracking.events := [] |} in
  validateInput plainText (Orchestrator.iso later) (JStr text) false true
  = Accepted text 58 58 /\
  exists result w',
    Orchestrator.analyze plainText JsonReader.parse service "session-1" 1767225600000
      later (JStr text) options None w
    = (Return (Orchestrator.Completed (JStr "session-1") result (Some 250%Z)), w') /\
    In "attention_testing" (Orchestrator.tags result).
Proof.
  intros service options later text w.
  assert (V : validateInput plainText (Orchestrator.iso later) (JStr text) false true
              = Accepted text 58 58) by (vm_compute; reflexivity).
  split; [exact V|].
  destruct (analysis_completes plainText JsonReader.parse service "session-1"
              1767225600000 later (JStr text) options None w text 58 58 V)
    as (result & w' & Ha & _ & _ & Ht & _).
  { intros reply H. discriminate H. }
  exists result, w'. split; [exact Ha | exact Ht].
Defined.

(** X18.  On an accepted input for which the completion service
    answers YES, [analyze] asks for questions and runs no stage: two or
    three requests are made.  When every question returned is a text
    the answer is the clarifying-questions result with at most three
    questions; when one is not, tracking them throws and the answer is
    the AI_PROCESSING_ERROR failure, recorded as a safe_exit. *)
Theorem questions_instead_of_stages
  (sanitizeHtml : string -> string) (JSON_parse : string -> JsVal + string)
  (openai : Service) (sessionId : string) (startTime : Z) (later : Orchestrator.Instant)
  (input : JsVal) (options : Orchestrator.Options) (req : option Tracking.Req)
  (w : Tracking.World) (p : string) (n m : nat) (text : string) :
  validateInput sanitizeHtml (Orchestrator.iso later) input
    (Js.truthy (Js.or (Orchestrator.storageOptIn options) (JBool false)))
    (Orchestrator.notFalse (Orchestrator.redactNames options)) = Accepted p n m ->
  openai (Tracking.requests w) (clarifyingRequest p) = Content (Some text) ->
  toUpperCase (trim text) = "YES" ->
  exists a w' questions,
    Orchestrator.analyze sanitizeHtml JSON_parse openai sessionId startTime later
      input options req w = (Return a, w') /\
    fst (Orchestrator.generateClarifyingQuestions JSON_parse openai p
           (Tracking.requests w ++ [clarifyingRequest p])%list) = Return questions /\
    List.length questions <= 3 /\
    requested 2 3 w w' /\
    if forallb isText questions
    then a = Orchestrator.ClarifyingQuestions (JStr sessionId) questions /\
         recorded (JStr sessionId) ["session_started"; "input_received"; "questions_asked"] w w'
    else a = Orchestrator.Failure (JStr sessionId) "AI_PROCESSING_ERROR"
               "Analysis failed due to processing error" (Orchestrator.iso later) /\
         recorded (JStr sessionId) ["session_started"; "input_received"; "safe_exit"] w w'.
Proof.
  intros V Hreply Hyes.
  destruct (analyze_cases sanitizeHtml JSON_parse openai sessionId startTime later
              input options req w) as (a & w' & Ha & Hc).
  rewrite V in Hc. destruct Hc as (b & rest & Hb & Hreq & Hc).
  rewrite (needsClarifyingQuestions_yes openai p text _ Hreply), Hyes in Hb.
  cbn [String.eqb] in Hb.
  assert (b = true) as -> by (vm_compute in Hb; congruence).
  destruct Hc as (questions & Hq & Hl & Hrest & Hc).
  exists a, w', questions. split; [exact Ha|]. split; [exact Hq|]. split; [exact Hl|].
  split; [|exact Hc].
  eexists. split; [exact Hreq | cbn [List.length]; lia].
Qed.

Lemma questions_instead_of_stages_witness :
  let service : Service := fun h _ =>
    match h with
    | [] => Content (Some "yes ")
    | _ => Content (Some ("[" ++ Json.quote "What are you afraid of?" ++ ", 2]"))
    end in
  let options := {| Orchestrator.userId := None;
                    Orchestrator.storageOptIn := JUndefined;
                    Orchestrator.redactNames := JUndefined |} in
  let later := {| Orchestrator.millis := 1767225600250;
                  Orchestrator.iso := "2026-01-01T00:00:00.250Z" |} in
  let text := "Things went badly." in
  let w := {| Tracking.requests := []; Tracking.events := [] |} in
  validateInput plainText (Orchestrator.iso later) (JStr text) false true
  = Accepted text 18 18 /\
  toUpperCase (trim "yes ") = "YES" /\
  exists w',
    Orchestrator.analyze plainText JsonReader.parse service "session-1" 1767225600000
      later (JStr text) options None w
    = (Return (Orchestrator.Failure (JStr "session-1") "AI_PROCESSING_ERROR"
                 "Analysis failed due to processing error" "2026-01-01T00:00:00.250Z"), w').
Proof.
  intros service options later text w.
  assert (V : validateInput plainText (Orchestrator.iso later) (JStr text) false true
              = Accepted text 18 18) by (vm_compute; reflexivity).
  assert (Y : toUpperCase (trim "yes ") = "YES") by reflexivity.
  split; [exact V|]. split; [exact Y|].
  destruct (questions_instead_of_stages plainText JsonReader.parse service "session-1"
              1767225600000 later (JStr text) options None w text 18 18 "yes "
              V eq_refl Y)
    as (a & w' & questions & Ha & Hq & _ & _ & Hc).
  vm_compute in Hq. injection Hq as <-.
  cbn [forallb isText andb] in Hc. destruct Hc as [-> _].
  exists w'. exact Ha.
Defined.

(** X19.  [analyze] never throws: for every input, options and
    completion service it returns an answer that carries the session id
    of the call.  It records session_started first, it makes at most
    seven requests, and it answers without success exactly when the
    last event it records is safe_exit. *)
Theorem analyze_always_answers
  (sanitizeHtml : string -> string) (JSON_parse : string -> JsVal + string)
  (openai : Service) (sessionId : string) (startTime : Z) (later : Orchestrator.Instant)
  (input : JsVal) (options : Orchestrator.Options) (req : option Tracking.Req)
  (w : Tracking.World) :
  exists a w' names,
    Orchestrator.analyze sanitizeHtml JSON_parse openai sessionId startTime later
      input options req w = (Return a, w') /\
    Orchestrator.sessionOf a = JStr sessionId /\
    requested 0 7 w w' /\
    recorded (JStr sessionId) ("session_started" :: names) w w' /\
    Orchestrator.success a = negb (String.eqb (last names EmptyString) "safe_exit").
Proof.
  destruct (analyze_cases sanitizeHtml JSON_parse openai sessionId startTime later
              input options req w) as (a & w' & Ha & Hc).
  exists a, w'.
  destruct (validateInput sanitizeHtml (Orchestrator.iso later) input
              (Js.truthy (Js.or (Orchestrator.storageOptIn options) (JBool false)))
              (Orchestrator.notFalse (Orchestrator.redactNames options)))
    as [error | response | p n m].
  - destruct Hc as (-> & Hr & He). eexists. split; [exact Ha|]. split; [reflexivity|].
    split; [exists []; rewrite app_nil_r; split; [exact Hr | cbn; lia]|].
    split; [exact He | reflexivity].
  - destruct Hc as (-> & Hr & He). eexists. split; [exact Ha|]. split; [reflexivity|].
    split; [exists []; rewrite app_nil_r; split; [exact Hr | cbn; lia]|].
    split; [exact He | reflexivity].
  - destruct Hc as (b & rest & Hb & Hreq & Hc). destruct b.
    + destruct Hc as (questions & _ & _ & Hrest & Hc).
      destruct (forallb isText questions); destruct Hc as (-> & He).
      * eexists. split; [exact Ha|]. split; [reflexivity|].
        split; [eexists; split; [exact Hreq | cbn [List.length]; lia]|].
        split; [exact He | reflexivity].
      * eexists. split; [exact Ha|]. split; [reflexivity|].
        split; [eexists; split; [exact Hreq | cbn [List.length]; lia]|].
        split; [exact He | reflexivity].
    + destruct Hc as (result & first & rest' & -> & _ & _ & _ & _ & He & -> & _ & Hl).
      eexists. split; [exact Ha|]. split; [reflexivity|].
      split; [eexists; split; [exact Hreq | cbn [List.length]; lia]|].
      split; [exact He | reflexivity].
Qed.

Section ControllerFacts.

Import Tracking AnalyticsService Orchestrator ChatController.

Variable sanitizeHtml : string -> string.
Variable JSON_parse : string -> JsVal + string.
Variable openai : Service.
Variable accepts : list Write -> Write -> bool.

Lemma createAll_extends (docs : list Message.Doc) (log : list Write) :
  exists rest, createAll accepts docs log = (log ++ rest)%list.
Proof.
  revert log. induction docs as [|doc docs IH]; intros log; cbn [createAll].
  - exists []. now rewrite app_nil_r.
  - unfold write. destruct (accepts log (CreateMessage doc)).
    + destruct (IH (log ++ [CreateMessage doc])%list) as (rest & ->).
      eexists. now rewrite <- app_assoc.
    + now eexists.
Qed.

Lemma createAll_first (doc : Message.Doc) (docs : list Message.Doc) (log : list Write) :
  exists rest, createAll accepts (doc :: docs) log = (log ++ CreateMessage doc :: rest)%list.
Proof.
  cbn [createAll]. unfold write. destruct (accepts log (CreateMessage doc)).
  - destruct (createAll_extends docs (log ++ [CreateMessage doc])%list) as (rest & ->).
    exists rest. now rewrite <- app_assoc.
  - now exists [].
Qed.

Lemma analyze_returns (sid : string) (start : Z) (later : Instant) (input : JsVal)
      (options : Options) (req : option Req) (w : World) :
  exists a w',
    Orchestrator.analyze sanitizeHtml JSON_parse openai sid start later input options req w
    = (Return a, w') /\
    sessionOf a = JStr sid.
Proof.
  destruct (analyze_cases sanitizeHtml JSON_parse openai sid start later
              input options req w) as (a & w' & Ha & Hc).
  exists a, w'. split; [exact Ha|].
  destruct (validateInput _ _ _ _ _) as [error | response | p n m].
  - now destruct Hc as (-> & _).
  - now destruct Hc as (-> & _).
  - destruct Hc as (b & rest & _ & _ & Hc). destruct b.
    + destruct Hc as (questions & _ & _ & _ & Hc).
      destruct (forallb isText questions); now destruct Hc as (-> & _).
    + now destruct Hc as (result & first & rest' & -> & _).
Qed.




End ControllerFacts.


(** X21.  What the /analyze handler hands to the database is the text
    as it came in, not the text [validateInput] processed: when it
    answers 200, it creates the human message with the input itself as
    its text, after the one session document it saves when storageOptIn
    is truthy, whose input is the same text.  Neither [sanitizeInput]
    nor [redactPII] touches what is stored. *)
Theorem raw_input_goes_to_the_database
  (sanitizeHtml : string -> string) (JSON_parse : string -> JsVal + string)
  (openai : Service)
  (accepts : list ChatController.Write -> ChatController.Write -> bool)
  (clock sessionId : string) (startTime : Z) (later : Orchestrator.Instant)
  (body : Body.Analyze) (req : option Tracking.Req)
  (w : Tracking.World) (log : list ChatController.Write) (input : string) :
  Body.input body = JStr input ->
  ChatController.status
    (fst (fst (ChatController.analyze sanitizeHtml JSON_parse openai accepts clock
                 sessionId startTime later (Some body) req w log))) = 200 ->
  exists saved rest,
    snd (ChatController.analyze sanitizeHtml JSON_parse openai accepts clock
           sessionId startTime later (Some body) req w log)
    = (log ++ saved
           ++ ChatController.CreateMessage
                {| Message.sessionId := JStr sessionId;
                   Message.sender := "human";
                   Message.message := input |} :: rest)%list /\
    List.length saved = (if Js.truthy (Body.storageOptIn body) then 1 else 0) /\
    forall doc, In (ChatController.SaveSession doc) saved -> Session.input doc = input.
Proof.
  intros Hin.
  unfold ChatController.analyze, ChatController.refuse. rewrite Hin.
  destruct (isEmpty input); [discriminate|].
  match goal with
  | |- context [Orchestrator.analyze _ _ _ _ _ _ _ ?o _ _] =>
      destruct (analyze_returns sanitizeHtml JSON_parse openai sessionId startTime later
                  (JStr input) o req w) as (a & w' & Ha & Hs)
  end.
  rewrite Ha. destruct (Orchestrator.success a); cbn [negb fst snd ChatController.status];
    [|discriminate].
  intros _. rewrite Hs.
  assert (T : Js.truthy match Body.storageOptIn body with
                        | JUndefined => JBool false
                        | v => v
                        end = Js.truthy (Body.storageOptIn body))
    by now destruct (Body.storageOptIn body).
  rewrite T. destruct (Js.truthy (Body.storageOptIn body)).
  - unfold ChatController.write at 1. cbn [snd].
    match goal with
    | |- context [ChatController.createAll _ (?d :: ?ds) (log ++ [?wr])%list] =>
        destruct (createAll_first accepts d ds (log ++ [wr])%list) as (rest & ->);
        exists [wr], rest
    end.
    split; [now rewrite <- app_assoc|]. split; [reflexivity|].
    intros doc [H | []]. now injection H as <-.
  - match goal with
    | |- context [ChatController.createAll _ (?d :: ?ds) log] =>
        destruct (createAll_first accepts d ds log) as (rest & ->)
    end.
    exists [], rest. split; [reflexivity|]. split; [reflexivity|]. intros doc [].
Qed.

Lemma raw_input_goes_to_the_database_witness :
  let service : Service := fun _ _ => Throws "service unavailable" in
  let later := {| Orchestrator.millis := 1767225600250;
                  Orchestrator.iso := "2026-01-01T00:00:00.250Z" |} in
  let text := "Write to me at ada@example.org about the review." in
  let body := {| Body.input := JStr text; Body.storageOptIn := JUndefined;
                 Body.redactNames := JBool true; Body.user := None |} in
  let w := {| Tracking.requests := []; Tracking.events := [] |} in
  let run := ChatController.analyze plainText JsonReader.parse service (fun _ _ => true)
               "2026-01-01T00:00:00.300Z" "session-1" 1767225600000 later
               (Some body) None w [] in
  processedInput (validateInput plainText "2026-01-01T00:00:00.250Z" (JStr text) false true)
  = Some "Write to me at [EMAIL_REDACTED] about the review." /\
  ChatController.status (fst (fst run)) = 200 /\
  exists rest,
    snd run = ChatController.CreateMessage
                {| Message.sessionId := JStr "session-1";
                   Message.sender := "human";
                   Message.message := text |} :: rest.
Proof.
  intros service later text body w run.
  assert (P : processedInput
                (validateInput plainText "2026-01-01T00:00:00.250Z" (JStr text) false true)
              = Some "Write to me at [EMAIL_REDACTED] about the review.")
    by (vm_compute; reflexivity).
  assert (S : ChatController.status (fst (fst run)) = 200) by (vm_compute; reflexivity).
  split; [exact P|]. split; [exact S|].
  destruct (raw_input_goes_to_the_database plainText JsonReader.parse service
              (fun _ _ => true) "2026-01-01T00:00:00.300Z" "session-1" 1767225600000
              later body None w [] text eq_refl S) as (saved & rest & Hlog & Hlen & _).
  cbn [Body.storageOptIn body Js.truthy] in Hlen.
  destruct saved; [|discriminate Hlen].
  exists rest. exact Hlog.
Defined.


(** ** Runs of the properties above *)

Lemma merged_answers_witness :
  let l := ["I was late"; ""; "Being fired"] in
  In "Being fired" l /\ nonEmpty "Being fired" = true /\
  Orchestrator.mergeAnswersWithInput (JStr "session-1") (answerObjects l)
  = "I was late Being fired" /\
  includes (Orchestrator.mergeAnswersWithInput (JStr "session-1") (answerObjects l))
    "Being fired" = true.
Proof.
  intros l.
  assert (Hin : In "Being fired" l) by (right; right; now left).
  assert (Hne : nonEmpty "Being fired" = true) by reflexivity.
  destruct (merged_answers (JStr "session-1") l) as (_ & Hobj & Hall).
  split; [exact Hin|]. split; [exact Hne|]. split; [exact Hobj|].
  exact (Hall "Being fired" Hin Hne).
Defined.

Lemma questions_at_most_three_witness :
  let service : Service := fun _ _ => Throws "service unavailable" in
  service [] (Orchestrator.questionsRequest "Things went badly.")
  = Throws "service unavailable" /\
  exists h',
    Orchestrator.generateClarifyingQuestions JsonReader.parse service
      "Things went badly." [] = (Return [], h').
Proof.
  intros service. split; [reflexivity|].
  destruct (questions_at_most_three JsonReader.parse service "Things went badly." [])
    as (questions & h' & Hrun & _ & Hnone).
  rewrite (Hnone "service unavailable" eq_refl) in Hrun.
  exists h'. exact Hrun.
Defined.

Lemma summary_at_most_250_words_witness :
  let service : Service := fun _ _ =>
    Content (Some ("{" ++ Json.quote "content" ++ ":"
                       ++ Json.quote (Json.join " " (List.repeat "word" 300)) ++ "}")) in
  exists summary h' text,
    Orchestrator.buildSummary JsonReader.parse service (JObj []) (JObj []) []
    = (Return summary, h') /\
    Js.optGet summary "content" = JStr text /\
    List.length (Orchestrator.split " " text) <= 250.
Proof.
  intros service.
  destruct (summary_at_most_250_words JsonReader.parse service (JObj []) (JObj []) [])
    as (summary & h' & Hrun & _ & Hwords).
  assert (Hc : exists text, Js.optGet summary "content" = JStr text).
  { assert (E : fst (Orchestrator.buildSummary JsonReader.parse service
                       (JObj []) (JObj []) []) = Return summary) by now rewrite Hrun.
    vm_compute in E. injection E as <-. now eexists. }
  destruct Hc as (text & Hc).
  exists summary, h', text. split; [exact Hrun|]. split; [exact Hc|].
  exact (Hwords text Hc).
Defined.


